(** * s2dm: field shapes, directive preservation, RDF extraction and the
      [registry id] command

    A shallow embedding of the parts of s2dm that the specification talks
    about:

    - [s2dm/exporters/utils/field.py]      (module [field])
    - [s2dm/exporters/utils/directive.py]  (module [directive])
    - [s2dm/exporters/rdf_materializer.py] (module [rdf_materializer])
    - [s2dm/cli.py]                        (module [cli])

    together with the slices of the Python runtime ([str], [pathlib]) and of
    graphql-core's object model that this code reads.  Python [str] values
    are modelled by [string]; a character stands for the code point of the
    same number, so the model covers text whose code points are below 256. *)

From Stdlib Require Import ZArith Ascii.
From stdpp Require Import base option list strings gmap sorting.

Local Open Scope Z_scope.
Local Set Warnings "-register-all".

(** ** Python [str] *)
Module pystr.

Definition code (c : ascii) : N := N_of_ascii c.

(** [str.isspace] on one character (also the class [\s] of [re]). *)
Definition isspace (c : ascii) : bool :=
  let n := code c in
  ((9 <=? n) && (n <=? 13) || (28 <=? n) && (n <=? 32)
   || (n =? 133) || (n =? 160))%N.

(** The class [\w] of [re] on [str] patterns: alphanumeric or underscore. *)
Definition isword (c : ascii) : bool :=
  let n := code c in
  ((48 <=? n) && (n <=? 57) || (65 <=? n) && (n <=? 90)
   || (97 <=? n) && (n <=? 122) || (n =? 95)
   || (n =? 170) || (n =? 178) || (n =? 179) || (n =? 181)
   || (n =? 185) || (n =? 186) || (188 <=? n) && (n <=? 190)
   || (192 <=? n) && (n <=? 214) || (216 <=? n) && (n <=? 246)
   || (248 <=? n) && (n <=? 255))%N.

Definition nl : ascii := ascii_of_nat 10.
Definition dquote : ascii := ascii_of_nat 34.
Definition backslash : ascii := ascii_of_nat 92.

(** Truthiness of a string: non-empty. *)
Definition truthy (s : string) : bool :=
  match s with EmptyString => false | String _ _ => true end.

Fixpoint lstrip (s : string) : string :=
  match s with
  | EmptyString => EmptyString
  | String c s' => if isspace c then lstrip s' else s
  end.

Fixpoint rstrip (s : string) : string :=
  match s with
  | EmptyString => EmptyString
  | String c s' =>
      let r := rstrip s' in
      if isspace c && negb (truthy r) then EmptyString else String c r
  end.

Definition strip (s : string) : string := rstrip (lstrip s).

(** [s.split(sep)] for a one-character separator. *)
Fixpoint split (sep : ascii) (s : string) : list string :=
  match s with
  | EmptyString => [EmptyString]
  | String c s' =>
      if decide (c = sep) then EmptyString :: split sep s'
      else match split sep s' with
           | h :: t => String c h :: t
           | [] => [String c EmptyString]
           end
  end.

(** [sep.join(l)]. *)
Fixpoint join (sep : string) (l : list string) : string :=
  match l with
  | [] => EmptyString
  | [x] => x
  | x :: l' => x +:+ sep +:+ join sep l'
  end.

Fixpoint startswith (s p : string) : bool :=
  match p, s with
  | EmptyString, _ => true
  | String a p', String b s' => if decide (a = b) then startswith s' p' else false
  | String _ _, EmptyString => false
  end.

Definition endswith (s p : string) : bool :=
  startswith (String.rev s) (String.rev p).

(** Slices [s[:n]] and [s[n:]] for [0 <= n]. *)
Fixpoint take (n : nat) (s : string) : string :=
  match n, s with
  | S n', String c s' => String c (take n' s')
  | _, _ => EmptyString
  end.

Fixpoint drop (n : nat) (s : string) : string :=
  match n, s with
  | S n', String _ s' => drop n' s'
  | _, _ => s
  end.

(** [s.rfind(c)]: index of the last occurrence, or -1. *)
Fixpoint rfind (c : ascii) (s : string) : Z :=
  match s with
  | EmptyString => -1
  | String a s' =>
      let r := rfind c s' in
      if 0 <=? r then r + 1 else if decide (a = c) then 0 else -1
  end.

(** Longest prefix whose characters satisfy [p], and the rest. *)
Fixpoint span (p : ascii -> bool) (s : string) : string * string :=
  match s with
  | EmptyString => (EmptyString, EmptyString)
  | String c s' =>
      if p c then let '(a, b) := span p s' in (String c a, b)
      else (EmptyString, s)
  end.

(** [s.replace(old, new)]: every non-overlapping occurrence, left to
    right.  [skip] counts the characters of a matched occurrence that are
    still to be passed over. *)
Fixpoint replace_go (old new : string) (skip : nat) (s : string) : string :=
  match s with
  | EmptyString => EmptyString
  | String c s' =>
      match skip with
      | S k => replace_go old new k s'
      | O =>
          if startswith s old
          then new +:+ replace_go old new (Nat.pred (String.length old)) s'
          else String c (replace_go old new O s')
      end
  end.

Fixpoint intersperse (new : string) (s : string) : string :=
  match s with
  | EmptyString => new
  | String c s' => new +:+ String c (intersperse new s')
  end.

Definition replace (old new s : string) : string :=
  if truthy old then replace_go old new O s else intersperse new s.

(** [sub in s]. *)
Fixpoint contains (s sub : string) : bool :=
  startswith s sub ||
  match s with
  | EmptyString => false
  | String _ s' => contains s' sub
  end.

End pystr.

(** ** Results of calls that may raise *)
Inductive pyresult (E A : Type) : Type :=
| Ok (a : A)
| Raise (e : E).
Arguments Ok {E A} a.
Arguments Raise {E A} e.

(** ** [pathlib.PurePosixPath] *)
Module pathlib.

(** A path is its final component [name] and what precedes it. *)
Record Path : Type := mkPath { parent : list string; name : string }.

Global Instance Path_eq_dec : EqDecision Path.
Proof. solve_decision. Defined.

(** [name.rfind('.')] lies strictly between 0 and [len(name) - 1] exactly
    when the name has a suffix. *)
Definition suffix_index (nm : string) : option nat :=
  let i := pystr.rfind "." nm in
  if (0 <? i) && (i <? Z.of_nat (String.length nm) - 1)
  then Some (Z.to_nat i) else None.

Definition suffix (p : Path) : string :=
  match suffix_index (name p) with
  | Some i => pystr.drop i (name p)
  | None => EmptyString
  end.

Definition stem (p : Path) : string :=
  match suffix_index (name p) with
  | Some i => pystr.take i (name p)
  | None => name p
  end.

Inductive ValueError : Type :=
| EmptyName (p : Path)
| InvalidName (nm : string).

(** The names that [with_name] accepts: not empty, without the separator
    and not [.].  This is the rule of pathlib from Python 3.12 on; earlier
    versions parse the name and also accept one in which the separator stands
    next to empty or [.] components only.  On names without a separator the
    versions agree. *)
Definition valid_name (nm : string) : bool :=
  pystr.truthy nm && negb (pystr.contains nm "/")
  && negb (bool_decide (nm = ".")).

Definition with_name (p : Path) (nm : string) : pyresult ValueError Path :=
  if negb (pystr.truthy (name p)) then Raise (EmptyName p)
  else if negb (valid_name nm) then Raise (InvalidName nm)
  else Ok (mkPath (parent p) nm).

End pathlib.

(** ** The slice of graphql-core's object model that s2dm reads *)
Module graphql.

(** Value literals of the language AST ([graphql.language.ast]). *)
Inductive ValueNode : Type :=
| VariableNode (name : string)
| IntValueNode (value : string)
| FloatValueNode (value : string)
| StringValueNode (value : string) (block : bool)
| BooleanValueNode (value : bool)
| NullValueNode
| EnumValueNode (value : string)
| ListValueNode (values : list ValueNode)
| ObjectValueNode (fields : list (string * ValueNode)).

(** [ArgumentNode]: [name.value] and [value]. *)
Record ArgumentNode : Type :=
  mkArgument { arg_name : string; arg_value : ValueNode }.

(** [DirectiveNode]: [name.value] and [arguments]. *)
Record DirectiveNode : Type :=
  mkDirective { name_value : string; arguments : list ArgumentNode }.

(** A definition node of the AST; only its [directives] are read. *)
Record DefinitionNode : Type :=
  mkNode { directives : list DirectiveNode }.

(** Type expressions of fields: a named type under list and non-null
    wrappers. *)
Inductive GraphQLType : Type :=
| GraphQLNamed (name : string)
| GraphQLList (of_type : GraphQLType)
| GraphQLNonNull (of_type : GraphQLType).

Definition is_non_null_type (t : GraphQLType) : bool :=
  match t with GraphQLNonNull _ => true | _ => false end.

Definition is_list_type (t : GraphQLType) : bool :=
  match t with GraphQLList _ => true | _ => false end.

(** graphql-core refuses to build a non-null wrapper around a non-null
    type; every other nesting is a legal type expression. *)
Fixpoint legal (t : GraphQLType) : bool :=
  match t with
  | GraphQLNamed _ => true
  | GraphQLList e => legal e
  | GraphQLNonNull e => negb (is_non_null_type e) && legal e
  end.

Fixpoint get_named_type (t : GraphQLType) : string :=
  match t with
  | GraphQLNamed n => n
  | GraphQLList e | GraphQLNonNull e => get_named_type e
  end.

(** [GraphQLField] / [GraphQLInputField]: [type] and [ast_node]. *)
Record GraphQLField : Type :=
  mkField { type : GraphQLType; ast_node : option DefinitionNode }.

Record GraphQLEnumValue : Type :=
  mkEnumValue { value_ast_node : option DefinitionNode }.

(** The named types of a schema, one constructor per graphql-core class.
    [fields] and [values] are insertion-ordered dicts. *)
Inductive GraphQLNamedType : Type :=
| GraphQLObjectType (name : string) (description : option string)
    (fields : list (string * GraphQLField)) (node : option DefinitionNode)
| GraphQLInterfaceType (name : string) (description : option string)
    (fields : list (string * GraphQLField)) (node : option DefinitionNode)
| GraphQLInputObjectType (name : string) (description : option string)
    (fields : list (string * GraphQLField)) (node : option DefinitionNode)
| GraphQLUnionType (name : string) (description : option string)
    (types : list string) (node : option DefinitionNode)
| GraphQLEnumType (name : string) (description : option string)
    (values : list (string * GraphQLEnumValue)) (node : option DefinitionNode)
| GraphQLScalarType (name : string) (description : option string)
    (node : option DefinitionNode).

Definition type_name (t : GraphQLNamedType) : string :=
  match t with
  | GraphQLObjectType n _ _ _ | GraphQLInterfaceType n _ _ _
  | GraphQLInputObjectType n _ _ _ | GraphQLUnionType n _ _ _
  | GraphQLEnumType n _ _ _ | GraphQLScalarType n _ _ => n
  end.

Definition type_description (t : GraphQLNamedType) : option string :=
  match t with
  | GraphQLObjectType _ d _ _ | GraphQLInterfaceType _ d _ _
  | GraphQLInputObjectType _ d _ _ | GraphQLUnionType _ d _ _
  | GraphQLEnumType _ d _ _ | GraphQLScalarType _ d _ => d
  end.

Definition type_ast_node (t : GraphQLNamedType) : option DefinitionNode :=
  match t with
  | GraphQLObjectType _ _ _ a | GraphQLInterfaceType _ _ _ a
  | GraphQLInputObjectType _ _ _ a | GraphQLUnionType _ _ _ a
  | GraphQLEnumType _ _ _ a | GraphQLScalarType _ _ a => a
  end.

(** [getattr(t, "fields")] where the class has the attribute. *)
Definition type_fields (t : GraphQLNamedType)
  : option (list (string * GraphQLField)) :=
  match t with
  | GraphQLObjectType _ _ fs _ | GraphQLInterfaceType _ _ fs _
  | GraphQLInputObjectType _ _ fs _ => Some fs
  | _ => None
  end.

(** [GraphQLSchema]: the insertion-ordered [type_map]. *)
Record GraphQLSchema : Type :=
  mkSchema { type_map : list (string * GraphQLNamedType) }.

End graphql.

(** ** [graphql.language.printer.print_ast] on value literals

    The printer is graphql-core's.  Its rendering of string literals
    (quoting and escaping, block strings) is the parameter [print_string];
    the structural cases are the printer's own: scalars keep their lexeme,
    a list is bracketed, an object is braced. *)
Module printer.
Import graphql.

Section print_ast.
Variable print_string : string -> bool -> string.

Fixpoint print_ast (v : ValueNode) : string :=
  match v with
  | VariableNode n => "$" +:+ n
  | IntValueNode s | FloatValueNode s | EnumValueNode s => s
  | StringValueNode s b => print_string s b
  | BooleanValueNode b => if b then "true" else "false"
  | NullValueNode => "null"
  | ListValueNode vs =>
      "[" +:+ pystr.join ", " (List.map print_ast vs) +:+ "]"
  | ObjectValueNode fs =>
      "{" +:+ pystr.join ", "
                (List.map (fun f => let '(n, x) := f in n +:+ ": " +:+ print_ast x) fs)
          +:+ "}"
  end.

End print_ast.

(** Quoting of a string that needs no escape. *)
Definition print_plain_string (s : string) (block : bool) : string :=
  String pystr.dquote (s +:+ String pystr.dquote EmptyString).

End printer.

(** ** [s2dm/exporters/utils/directive.py] *)
Module directive.
Import graphql.

(** Keys of the directive map: a type name, or a (type, member) pair. *)
Definition Key : Type := string + string * string.

Definition has_given_directive (element : GraphQLField) (directive_name : string) : bool :=
  match ast_node element with
  | Some node =>
      existsb (fun d => bool_decide (name_value d = directive_name))
              (directives node)
  | None => false
  end.

Section with_printer.
Variable print_string : string -> bool -> string.

Definition format_argument (arg_node : ArgumentNode) : string :=
  arg_name arg_node +:+ ": " +:+ printer.print_ast print_string (arg_value arg_node).

Definition format_directive_from_ast (directive_node : DirectiveNode) : string :=
  let directive_name := name_value directive_node in
  if bool_decide (directive_name = "deprecated")
     || bool_decide (directive_name = "specifiedBy")
  then EmptyString
  else
    let args_str :=
      match arguments directive_node with
      | [] => EmptyString
      | args => "(" +:+ pystr.join ", " (List.map format_argument args) +:+ ")"
      end in
    "@" +:+ directive_name +:+ args_str.

(** The helper [has_directives] of [build_directive_map]. *)
Definition has_directives (node : option DefinitionNode) : bool :=
  match node with
  | Some n => match directives n with [] => false | _ :: _ => true end
  | None => false
  end.

(** The helper [get_directive_strings]: the loop keeps the non-empty
    renderings, in order. *)
Fixpoint directive_strings_of (ds : list DirectiveNode) : list string :=
  match ds with
  | [] => []
  | directive_node :: rest =>
      let directive_str := format_directive_from_ast directive_node in
      if pystr.truthy directive_str
      then directive_str :: directive_strings_of rest
      else directive_strings_of rest
  end.

Definition get_directive_strings (node : option DefinitionNode) : list string :=
  match node with
  | Some n => directive_strings_of (directives n)
  | None => []
  end.

(** [if has_directives(v): ds = get_directive_strings(v); if ds: m[k] = ds]. *)
Definition record_directives (k : Key) (node : option DefinitionNode)
    (directive_map : gmap Key (list string)) : gmap Key (list string) :=
  if has_directives node then
    match get_directive_strings node with
    | [] => directive_map
    | directive_strings => <[k := directive_strings]> directive_map
    end
  else directive_map.

(** [isinstance(type_obj, DIRECTIVE_RELATED_TYPES)]. *)
Definition is_directive_related (type_obj : GraphQLNamedType) : bool :=
  match type_obj with
  | GraphQLObjectType _ _ _ _ | GraphQLInterfaceType _ _ _ _
  | GraphQLInputObjectType _ _ _ _ | GraphQLEnumType _ _ _ _
  | GraphQLUnionType _ _ _ _ | GraphQLScalarType _ _ _ => true
  end.

Definition record_fields (type_name : string)
    (fields : list (string * GraphQLField))
    (directive_map : gmap Key (list string)) : gmap Key (list string) :=
  fold_left (fun m f => record_directives (inr (type_name, f.1)) (ast_node f.2) m)
            fields directive_map.

Definition record_enum_values (type_name : string)
    (values : list (string * GraphQLEnumValue))
    (directive_map : gmap Key (list string)) : gmap Key (list string) :=
  fold_left (fun m v => record_directives (inr (type_name, v.1)) (value_ast_node v.2) m)
            values directive_map.

(** One iteration of the loop over [schema.type_map.items()]. *)
Definition record_type (directive_map : gmap Key (list string))
    (item : string * GraphQLNamedType) : gmap Key (list string) :=
  let '(type_name, type_obj) := item in
  if pystr.startswith type_name "__" || negb (is_directive_related type_obj)
  then directive_map
  else
    let m1 := record_directives (inl type_name) (type_ast_node type_obj) directive_map in
    let m2 := match type_fields type_obj with
              | Some fields => record_fields type_name fields m1
              | None => m1
              end in
    match type_obj with
    | GraphQLEnumType _ _ values _ => record_enum_values type_name values m2
    | _ => m2
    end.

Definition build_directive_map (schema : GraphQLSchema) : gmap Key (list string) :=
  fold_left record_type (type_map schema) ∅.

End with_printer.

(** [find_first_unquoted_brace]: [prev] is [line[i - 1]] when [0 < i]. *)
Fixpoint find_brace_from (i : Z) (prev : option ascii) (in_comment : bool)
    (line : string) : Z :=
  match line with
  | EmptyString => -1
  | String c rest =>
      if bool_decide (c = pystr.dquote)
         && negb (bool_decide (prev = Some pystr.backslash))
      then find_brace_from (i + 1) (Some c) (negb in_comment) rest
      else if bool_decide (c = "{"%char) && negb in_comment then i
      else find_brace_from (i + 1) (Some c) in_comment rest
  end.

Definition find_first_unquoted_brace (line : string) : Z :=
  find_brace_from 0 None false line.

Definition strip_prefix (p s : string) : option string :=
  if pystr.startswith s p then Some (pystr.drop (String.length p) s) else None.

(** [re.match(GRAPHQL_TYPE_DEFINITION_PATTERN, line)], the pattern being
    [^(type|interface|input|enum|union|scalar)\s+(\w+)]: groups 1 and 2. *)
Definition match_keyword (line kw : string) : option (string * string) :=
  match strip_prefix kw line with
  | Some rest =>
      let '(ws, rest') := pystr.span pystr.isspace rest in
      let '(w, _) := pystr.span pystr.isword rest' in
      if pystr.truthy ws && pystr.truthy w then Some (kw, w) else None
  | None => None
  end.

(** The alternatives of group 1 are tried in the order written. *)
Fixpoint first_alternative (line : string) (kws : list string)
    : option (string * string) :=
  match kws with
  | [] => None
  | kw :: kws' =>
      match match_keyword line kw with
      | Some m => Some m
      | None => first_alternative line kws'
      end
  end.

Definition match_type_definition (line : string) : option (string * string) :=
  first_alternative line
    ["type"; "interface"; "input"; "enum"; "union"; "scalar"].

(** [re.match(r"^\s+(\w+)(?:\([^)]*\))?\s*:\s*", line)]: group 1.  Every
    quantifier is followed by a character outside its class, so the greedy
    match is the only candidate; when the optional parenthesised group is
    skipped at an opening parenthesis, [\s*:] cannot match there. *)
Definition match_field (line : string) : option string :=
  let '(ws, r1) := pystr.span pystr.isspace line in
  let '(w, r2) := pystr.span pystr.isword r1 in
  if pystr.truthy ws && pystr.truthy w then
    let r3 :=
      match r2 with
      | String "("%char inner =>
          let '(_, r) := pystr.span (fun c => negb (bool_decide (c = ")"%char))) inner in
          match r with
          | String ")"%char after => after
          | _ => r2
          end
      | _ => r2
      end in
    let '(_, r4) := pystr.span pystr.isspace r3 in
    match r4 with
    | String ":"%char _ => Some w
    | _ => None
    end
  else None.

(** [re.match(r"^\s+(\w+)\s*$", line)]: group 1. *)
Definition match_enum_value (line : string) : option string :=
  let '(ws, r1) := pystr.span pystr.isspace line in
  let '(w, r2) := pystr.span pystr.isword r1 in
  let '(_, r3) := pystr.span pystr.isspace r2 in
  if pystr.truthy ws && pystr.truthy w && negb (pystr.truthy r3)
  then Some w else None.

(** [" " + " ".join(directive_map[k])]. *)
Definition directives_str (ds : list string) : string :=
  " " +:+ pystr.join " " ds.

(** The type-definition branch of the loop body. *)
Definition annotate_type_line (directive_map : gmap Key (list string))
    (type_kind type_name line : string) : string :=
  match directive_map !! inl type_name with
  | Some ds =>
      let brace_pos := find_first_unquoted_brace line in
      if negb (brace_pos =? -1) then
        pystr.rstrip (pystr.take (Z.to_nat brace_pos) line)
          +:+ directives_str ds +:+ " " +:+ pystr.drop (Z.to_nat brace_pos) line
      else
        pystr.replace (type_kind +:+ " " +:+ type_name)
          (type_kind +:+ " " +:+ type_name +:+ directives_str ds) line
  | None => line
  end.

(** Appending the directives of member [member] of [current_type]. *)
Definition annotate_member (directive_map : gmap Key (list string))
    (current_type : string) (member : option string) (line : string) : string :=
  match member with
  | Some member_name =>
      match directive_map !! inr (current_type, member_name) with
      | Some ds => pystr.rstrip line +:+ directives_str ds
      | None => line
      end
  | None => line
  end.

(** One iteration of the loop over the lines: the new [current_type] and
    the line appended to [result_lines]. *)
Definition annotate_line (directive_map : gmap Key (list string))
    (current_type : option string) (line : string) : option string * string :=
  let '(current_type, line) :=
    match match_type_definition line with
    | Some (type_kind, type_name) =>
        (Some type_name, annotate_type_line directive_map type_kind type_name line)
    | None =>
        match current_type with
        | Some ct =>
            if pystr.truthy ct then
              let line1 := annotate_member directive_map ct (match_field line) line in
              let line2 := annotate_member directive_map ct (match_enum_value line1) line1 in
              (current_type, line2)
            else (current_type, line)
        | None => (current_type, line)
        end
    end in
  if bool_decide (pystr.strip line = "}") then (None, line) else (current_type, line).

Fixpoint annotate_lines (directive_map : gmap Key (list string))
    (current_type : option string) (lines : list string) : list string :=
  match lines with
  | [] => []
  | line :: rest =>
      let '(current_type', line') := annotate_line directive_map current_type line in
      line' :: annotate_lines directive_map current_type' rest
  end.

Definition add_directives_to_schema (schema_str : string)
    (directive_map : gmap Key (list string)) : string :=
  let lines := pystr.split pystr.nl schema_str in
  pystr.join (String pystr.nl EmptyString) (annotate_lines directive_map None lines).

End directive.

(** ** [s2dm/exporters/utils/field.py] *)
Module field.
Import graphql.

Record Cardinality : Type := mkCardinality { min : option Z; max : option Z }.

Record FieldCaseMetadata : Type := mkMetadata {
  description : string;
  value_cardinality : Cardinality;
  list_cardinality : Cardinality }.

(** The members of the enum [FieldCase]. *)
Inductive FieldCase : Type :=
| DEFAULT
| NON_NULL
| LIST
| NON_NULL_LIST
| LIST_NON_NULL
| NON_NULL_LIST_NON_NULL
| SET
| SET_NON_NULL.

Global Instance FieldCase_eq_dec : EqDecision FieldCase.
Proof. solve_decision. Defined.

Global Instance Cardinality_eq_dec : EqDecision Cardinality.
Proof. solve_decision. Defined.

Global Instance FieldCaseMetadata_eq_dec : EqDecision FieldCaseMetadata.
Proof. solve_decision. Defined.

(** The value each member is declared with. *)
Definition value (c : FieldCase) : FieldCaseMetadata :=
  match c with
  | DEFAULT =>
      mkMetadata
        "A singular element that can also be null. EXAMPLE -> field: NamedType"
        (mkCardinality (Some 0) (Some 1)) (mkCardinality None None)
  | NON_NULL =>
      mkMetadata
        "A singular element that cannot be null. EXAMPLE -> field: NamedType!"
        (mkCardinality (Some 1) (Some 1)) (mkCardinality None None)
  | LIST =>
      mkMetadata
        "An array of elements. The array itself can be null. EXAMPLE -> field: [NamedType]"
        (mkCardinality (Some 0) None) (mkCardinality (Some 0) (Some 1))
  | NON_NULL_LIST =>
      mkMetadata
        "An array of elements. The array itself cannot be null. EXAMPLE -> field: [NamedType]!"
        (mkCardinality (Some 0) None) (mkCardinality (Some 1) (Some 1))
  | LIST_NON_NULL =>
      mkMetadata
        "An array of elements. The array itself can be null but the elements cannot. EXAMPLE -> field: [NamedType!]"
        (mkCardinality (Some 1) None) (mkCardinality (Some 0) (Some 1))
  | NON_NULL_LIST_NON_NULL =>
      mkMetadata
        "List and elements in the list cannot be null. EXAMPLE -> field: [NamedType!]!"
        (mkCardinality (Some 1) None) (mkCardinality (Some 1) (Some 1))
  | SET =>
      mkMetadata
        "A set of elements. EXAMPLE -> field: [NamedType] @noDuplicates"
        (mkCardinality (Some 0) None) (mkCardinality (Some 0) (Some 1))
  | SET_NON_NULL =>
      mkMetadata
        "A set of elements. The elements cannot be null. EXAMPLE -> field: [NamedType!] @noDuplicates"
        (mkCardinality (Some 1) None) (mkCardinality (Some 0) (Some 1))
  end.

Definition all_field_cases : list FieldCase :=
  [DEFAULT; NON_NULL; LIST; NON_NULL_LIST; LIST_NON_NULL;
   NON_NULL_LIST_NON_NULL; SET; SET_NON_NULL].

(** The dict literal, in the order written. *)
Definition FIELD_CASE_TO_TYPE_WRAPPER_PATTERN : list (FieldCase * string) :=
  [ (DEFAULT, "bare");
    (NON_NULL, "nonNull");
    (LIST, "list");
    (LIST_NON_NULL, "listOfNonNull");
    (NON_NULL_LIST, "nonNullList");
    (NON_NULL_LIST_NON_NULL, "nonNullListOfNonNull");
    (SET, "list");
    (SET_NON_NULL, "listOfNonNull") ].

Inductive KeyError : Type := MissingKey (k : FieldCase).

(** [d[k]] on a dict given by its items. *)
Fixpoint dict_getitem (d : list (FieldCase * string)) (k : FieldCase)
    : pyresult KeyError string :=
  match d with
  | [] => Raise (MissingKey k)
  | (k', v) :: d' => if decide (k' = k) then Ok v else dict_getitem d' k
  end.

Definition field_case_to_type_wrapper_pattern (field_case : FieldCase)
    : pyresult KeyError string :=
  dict_getitem FIELD_CASE_TO_TYPE_WRAPPER_PATTERN field_case.

Definition get_field_case (field : GraphQLField) : FieldCase :=
  let t := type field in
  match t with
  | GraphQLNonNull t =>
      match t with
      | GraphQLList of_type =>
          if is_non_null_type of_type then NON_NULL_LIST_NON_NULL
          else NON_NULL_LIST
      | _ => NON_NULL
      end
  | GraphQLList of_type =>
      if is_non_null_type of_type then LIST_NON_NULL else LIST
  | _ => DEFAULT
  end.

(** [ValueError("Wrong output type and/or modifiers specified for the
    field: {field}. Please, correct the GraphQL schema.")]. *)
Inductive ValueError : Type := WrongModifiers (field : GraphQLField).

Definition get_field_case_extended (field : GraphQLField)
    : pyresult ValueError FieldCase :=
  let base_case := get_field_case field in
  if directive.has_given_directive field "noDuplicates" then
    if decide (base_case = LIST) then Ok SET
    else if decide (base_case = LIST_NON_NULL) then Ok SET_NON_NULL
    else Raise (WrongModifiers field)
  else Ok base_case.

(** *** The nesting of a type expression, in the words of the design

    The outer non-null wrapper is stripped first; then the list wrapper is
    tested; then the non-null wrapper of the list's element. *)
Record NestingPattern : Type := mkNesting {
  outer_non_null : bool;
  list_element : option bool }.

Global Instance NestingPattern_eq_dec : EqDecision NestingPattern.
Proof. solve_decision. Defined.

Definition strip_non_null (t : GraphQLType) : GraphQLType :=
  match t with GraphQLNonNull t' => t' | _ => t end.

Definition nesting_pattern (t : GraphQLType) : NestingPattern :=
  mkNesting (is_non_null_type t)
    match strip_non_null t with
    | GraphQLList e => Some (is_non_null_type e)
    | _ => None
    end.

(** The base shape that the design assigns to each nesting pattern. *)
Definition shape_of_nesting (p : NestingPattern) : FieldCase :=
  match p with
  | mkNesting false None => DEFAULT
  | mkNesting true None => NON_NULL
  | mkNesting false (Some false) => LIST
  | mkNesting true (Some false) => NON_NULL_LIST
  | mkNesting false (Some true) => LIST_NON_NULL
  | mkNesting true (Some true) => NON_NULL_LIST_NON_NULL
  end.

Definition base_shapes : list FieldCase :=
  [DEFAULT; NON_NULL; LIST; NON_NULL_LIST; LIST_NON_NULL; NON_NULL_LIST_NON_NULL].

Definition nesting_patterns : list NestingPattern :=
  [ mkNesting false None; mkNesting true None;
    mkNesting false (Some false); mkNesting true (Some false);
    mkNesting false (Some true); mkNesting true (Some true) ].

End field.

(** ** rdflib's N-Triples serializer

    A graph is represented by the N-Triples row of each of its triples, in
    the order in which the store iterates over them; [serialize(format="nt")]
    writes every row followed by a newline. *)
Module rdflib.

Record Graph : Type := mkGraph { nt_rows : list string }.

Definition serialize_nt (g : Graph) : string :=
  foldr (fun row acc => row +:+ String pystr.nl acc) EmptyString (nt_rows g).

End rdflib.

(** ** [s2dm/exporters/rdf_materializer.py] *)
Module rdf_materializer.
Import graphql.

Record RdfFieldInfo : Type := mkFieldInfo {
  field_fqn : string;
  output_type_name : string;
  type_wrapper_pattern : string }.

Record RdfFieldContainerType : Type := mkContainer {
  container_name : string;
  container_description : string;
  container_fields : list RdfFieldInfo }.

Record RdfEnumType : Type := mkEnum {
  enum_name : string;
  enum_description : string;
  enum_values : list string }.

Record RdfUnionType : Type := mkUnion {
  union_name : string;
  union_description : string;
  member_type_names : list string }.

Record RdfSchemaExtract : Type := mkExtract {
  object_types : list RdfFieldContainerType;
  interface_types : list RdfFieldContainerType;
  input_object_types : list RdfFieldContainerType;
  union_types : list RdfUnionType;
  enum_types : list RdfEnumType }.

(** [getattr(obj, "description", None) or ""]. *)
Definition _get_description (d : option string) : string :=
  match d with Some s => s | None => EmptyString end.

(** The body of the loop of [_extract_fields_from_container]. *)
Definition extract_field (type_name : string) (item : string * GraphQLField)
    : pyresult field.KeyError RdfFieldInfo :=
  let '(field_name, graphql_field) := item in
  let output_type_name := get_named_type (type graphql_field) in
  let field_case := field.get_field_case graphql_field in
  match field.field_case_to_type_wrapper_pattern field_case with
  | Ok type_wrapper_pattern =>
      Ok (mkFieldInfo (type_name +:+ "." +:+ field_name)
            output_type_name type_wrapper_pattern)
  | Raise e => Raise e
  end.

Fixpoint _extract_fields_from_container
    (fields_dict : list (string * GraphQLField)) (type_name : string)
    : pyresult field.KeyError (list RdfFieldInfo) :=
  match fields_dict with
  | [] => Ok []
  | item :: rest =>
      match extract_field type_name item with
      | Ok info =>
          match _extract_fields_from_container rest type_name with
          | Ok infos => Ok (info :: infos)
          | Raise e => Raise e
          end
      | Raise e => Raise e
      end
  end.

Section extraction.
(** [s2dm.exporters.utils.extraction.get_all_named_types] and
    [s2dm.exporters.utils.graphql_type.is_introspection_or_root_type] are
    helpers of other modules, taken as parameters. *)
Variable get_all_named_types : GraphQLSchema -> list GraphQLNamedType.
Variable is_introspection_or_root_type : string -> bool.

(** One iteration of the loop of [extract_schema_for_rdf]. *)
Definition extract_named_type (result : RdfSchemaExtract)
    (named_type : GraphQLNamedType)
    : pyresult field.KeyError RdfSchemaExtract :=
  if is_introspection_or_root_type (type_name named_type) then Ok result
  else
    let container fields_dict :=
      match _extract_fields_from_container fields_dict (type_name named_type) with
      | Ok fields_info =>
          Ok (mkContainer (type_name named_type)
                (_get_description (type_description named_type)) fields_info)
      | Raise e => Raise e
      end in
    match named_type with
    | GraphQLObjectType _ _ fields_dict _ =>
        match container fields_dict with
        | Ok c =>
            Ok (mkExtract (object_types result ++ [c]) (interface_types result)
                  (input_object_types result) (union_types result) (enum_types result))
        | Raise e => Raise e
        end
    | GraphQLInterfaceType _ _ fields_dict _ =>
        match container fields_dict with
        | Ok c =>
            Ok (mkExtract (object_types result) (interface_types result ++ [c])
                  (input_object_types result) (union_types result) (enum_types result))
        | Raise e => Raise e
        end
    | GraphQLInputObjectType _ _ fields_dict _ =>
        match container fields_dict with
        | Ok c =>
            Ok (mkExtract (object_types result) (interface_types result)
                  (input_object_types result ++ [c]) (union_types result) (enum_types result))
        | Raise e => Raise e
        end
    | GraphQLUnionType name description types _ =>
        Ok (mkExtract (object_types result) (interface_types result)
              (input_object_types result)
              (union_types result ++ [mkUnion name (_get_description description) types])
              (enum_types result))
    | GraphQLEnumType name description values _ =>
        Ok (mkExtract (object_types result) (interface_types result)
              (input_object_types result) (union_types result)
              (enum_types result
                 ++ [mkEnum name (_get_description description) (List.map fst values)]))
    | GraphQLScalarType _ _ _ => Ok result
    end.

Fixpoint extract_loop (result : RdfSchemaExtract)
    (named_types : list GraphQLNamedType)
    : pyresult field.KeyError RdfSchemaExtract :=
  match named_types with
  | [] => Ok result
  | named_type :: rest =>
      match extract_named_type result named_type with
      | Ok result' => extract_loop result' rest
      | Raise e => Raise e
      end
  end.

Definition extract_schema_for_rdf (schema : GraphQLSchema)
    : pyresult field.KeyError RdfSchemaExtract :=
  extract_loop (mkExtract [] [] [] [] []) (get_all_named_types schema).

End extraction.

(** The names under which an extract presents concepts: its types, and
    the members [Type.field] and [Enum.VALUE] that the materializer derives
    from them. *)
Definition extracted_type_names (e : RdfSchemaExtract) : list string :=
  List.map container_name (object_types e)
  ++ List.map container_name (interface_types e)
  ++ List.map container_name (input_object_types e)
  ++ List.map union_name (union_types e)
  ++ List.map enum_name (enum_types e).

Definition containers (e : RdfSchemaExtract) : list RdfFieldContainerType :=
  object_types e ++ interface_types e ++ input_object_types e.

(** [_sort_ntriples_lines]; [sorted] is the merge sort of the library on
    the code-point order of strings. *)
Definition sorted (lines : list string) : list string :=
  merge_sort String.le lines.

Definition _sort_ntriples_lines (nt_str : string) : string :=
  let lines :=
    List.filter (fun line => pystr.truthy (pystr.strip line))
      (pystr.split pystr.nl (pystr.strip nt_str)) in
  match lines with
  | [] => EmptyString
  | _ :: _ =>
      pystr.join (String pystr.nl EmptyString) (sorted lines)
        +:+ String pystr.nl EmptyString
  end.

Definition serialize_sorted_ntriples (graph : rdflib.Graph) : string :=
  let nt := rdflib.serialize_nt graph in
  _sort_ntriples_lines nt.

End rdf_materializer.

(** ** [s2dm/cli.py] *)
Module cli.
Import pathlib.

Definition apply_version_tag_suffix (output : Path) (version_tag : string)
    : pyresult ValueError Path :=
  if negb (pystr.endswith (stem output) ("_" +:+ version_tag))
  then with_name output (stem output +:+ "_" +:+ version_tag +:+ suffix output)
  else Ok output.

(** Applying the suffix to the path returned by a first application. *)
Definition apply_version_tag_suffix_twice (output : Path) (version_tag : string)
    : pyresult ValueError Path :=
  match apply_version_tag_suffix output version_tag with
  | Ok output' => apply_version_tag_suffix output' version_tag
  | Raise e => Raise e
  end.

(** *** The command [registry id]

    The command runs against a world that records what it logs, which
    files were written and which variant computations ([IDExporter.run])
    took place.  The collaborators that live in other modules are the
    parameters of the section. *)
Section export_id.

(** Parsed JSON: a list of items, or any other value. *)
Variable JsonValue : Type.
Inductive Json : Type :=
| JsonList (items : list JsonValue)
| JsonOther (v : JsonValue).

Variable DiffChange : Type.
Variable VariantIDFile : Type.
(** Exceptions raised inside the collaborators. *)
Variable Exn : Type.

Record IDExporter : Type := mkIDExporter {
  schema : graphql.GraphQLSchema;
  version_tag : string;
  output : option Path;
  previous_ids_path : option Path;
  diff_output : option (list DiffChange) }.

(** [load_schema]: composes the sources, or raises; it reads only. *)
Variable load_schema : list Path -> pyresult Exn graphql.GraphQLSchema.
(** [open] followed by [json.load]: the parsed document, or the message of
    the [OSError] or [JSONDecodeError]. *)
Variable json_load : Path -> pyresult string Json.
(** [DiffChange.model_validate]: the record, or the message of the
    validation error (a [ValueError]). *)
Variable model_validate : JsonValue -> pyresult string DiffChange.
(** [IDExporter.run]: the files it writes and what it returns or raises. *)
Variable IDExporter_run : IDExporter -> list Path * pyresult Exn VariantIDFile.
(** [str(path)]. *)
Variable path_str : Path -> string.

Inductive LogRecord : Type :=
| LogError (msg : string)
| LogRule (title : string)
| LogPrintDict (d : VariantIDFile).

Record World : Type := mkWorld {
  log : list LogRecord;
  files_written : list Path;
  exporter_runs : list IDExporter }.

Inductive Exception : Type :=
| PathValueError (e : ValueError)
| CollaboratorError (e : Exn).

(** How a command ends: it returns, calls [sys.exit], or lets an exception
    escape. *)
Inductive Outcome (A : Type) : Type :=
| Returned (a : A)
| SystemExit (code : Z)
| Uncaught (e : Exception).
Arguments Returned {A} a.
Arguments SystemExit {A} code.
Arguments Uncaught {A} e.

(** The exit status of the process: an escaping exception ends it with
    status 1. *)
Definition exit_code {A} (o : Outcome A) : Z :=
  match o with
  | Returned _ => 0
  | SystemExit code => code
  | Uncaught _ => 1
  end.

Definition M (A : Type) : Type := World -> Outcome A * World.

Definition ret {A} (a : A) : M A := fun w => (Returned a, w).

Definition bind {A B} (m : M A) (k : A -> M B) : M B :=
  fun w =>
    match m w with
    | (Returned a, w') => k a w'
    | (SystemExit code, w') => (SystemExit code, w')
    | (Uncaught e, w') => (Uncaught e, w')
    end.

Notation "x <- m ;; k" := (bind m (fun x => k))
  (at level 100, m at next level, right associativity).
Notation "m ;;; k" := (bind m (fun _ => k))
  (at level 100, right associativity).

Definition sys_exit {A} (code : Z) : M A := fun w => (SystemExit code, w).

Definition raise {A} (e : Exception) : M A := fun w => (Uncaught e, w).

Definition log_record (r : LogRecord) : M unit :=
  fun w => (Returned tt, mkWorld (log w ++ [r]) (files_written w) (exporter_runs w)).

Definition call_load_schema (schemas : list Path) : M graphql.GraphQLSchema :=
  match load_schema schemas with
  | Ok s => ret s
  | Raise e => raise (CollaboratorError e)
  end.

Definition call_exporter_run (exporter : IDExporter) : M VariantIDFile :=
  fun w =>
    let '(written, r) := IDExporter_run exporter in
    let w' := mkWorld (log w) (files_written w ++ written)
                (exporter_runs w ++ [exporter]) in
    match r with
    | Ok result => (Returned result, w')
    | Raise e => (Uncaught (CollaboratorError e), w')
    end.

(** [[DiffChange.model_validate(change) for change in json_data]]. *)
Fixpoint validate_all (json_data : list JsonValue) : pyresult string (list DiffChange) :=
  match json_data with
  | [] => Ok []
  | change :: rest =>
      match model_validate change with
      | Ok d =>
          match validate_all rest with
          | Ok ds => Ok (d :: ds)
          | Raise e => Raise e
          end
      | Raise e => Raise e
      end
  end.

(** The body of the [try] statement of [export_id]. *)
Definition read_diff (diff_file : Path) : pyresult string (list DiffChange) :=
  match json_load diff_file with
  | Ok (JsonList json_data) => validate_all json_data
  | Ok (JsonOther _) => Raise "Invalid diff file: expected a JSON array"
  | Raise e => Raise e
  end.

Definition DIFF_REQUIRED : string :=
  "When --previous-ids is provided, --diff-file is required. "
  +:+ "The diff file is needed to determine which concepts changed and should have their variants incremented.".

Definition export_id (schemas : list Path) (output previous_ids diff_file : option Path)
    (version_tag : string) : M unit :=
  composed_schema <- call_load_schema schemas ;;
  (if bool_decide (is_Some previous_ids) && negb (bool_decide (is_Some diff_file))
   then log_record (LogError DIFF_REQUIRED) ;;; sys_exit 1
   else ret tt) ;;;
  output <- match output with
            | Some o =>
                match apply_version_tag_suffix o version_tag with
                | Ok o' => ret (Some o')
                | Raise e => raise (PathValueError e)
                end
            | None => ret None
            end ;;
  diff_output <- match diff_file with
                 | Some f =>
                     match read_diff f with
                     | Ok ds => ret (Some ds)
                     | Raise e =>
                         log_record
                           (LogError ("Failed to load diff file from " +:+ path_str f
                                      +:+ ": " +:+ e)) ;;;
                         sys_exit 1
                     end
                 | None => ret None
                 end ;;
  let exporter := mkIDExporter composed_schema version_tag output previous_ids diff_output in
  result <- call_exporter_run exporter ;;
  log_record (LogRule "Variant IDs") ;;;
  log_record (LogPrintDict result).

End export_id.

Arguments JsonList {JsonValue} items.
Arguments JsonOther {JsonValue} v.
Arguments mkIDExporter {DiffChange} _ _ _ _ _.
Arguments schema {DiffChange} _.
Arguments version_tag {DiffChange} _.
Arguments output {DiffChange} _.
Arguments previous_ids_path {DiffChange} _.
Arguments diff_output {DiffChange} _.
Arguments LogError {VariantIDFile} msg.
Arguments LogRule {VariantIDFile} title.
Arguments LogPrintDict {VariantIDFile} d.
Arguments mkWorld {DiffChange VariantIDFile} _ _ _.
Arguments log {DiffChange VariantIDFile} _.
Arguments files_written {DiffChange VariantIDFile} _.
Arguments exporter_runs {DiffChange VariantIDFile} _.
Arguments PathValueError {Exn} e.
Arguments CollaboratorError {Exn} e.
Arguments Returned {Exn A} a.
Arguments SystemExit {Exn A} code.
Arguments Uncaught {Exn A} e.
Arguments exit_code {Exn A} o.
Arguments export_id {JsonValue DiffChange VariantIDFile Exn} _ _ _ _ _ _ _ _ _ _ _.

End cli.

(** ** Vocabulary of the statements *)
Module spec.
Import graphql.

(** The six wrapper-pattern tags of the s2dm ontology, as the docstring of
    [field_case_to_type_wrapper_pattern] lists them. *)
Definition wrapper_patterns : list string :=
  ["bare"; "nonNull"; "list"; "listOfNonNull"; "nonNullList"; "nonNullListOfNonNull"].

(** A list-cardinality range that is 0/1 or 1/1. *)
Definition is_01_or_11 (c : field.Cardinality) : bool :=
  bool_decide (c = field.mkCardinality (Some 0) (Some 1))
  || bool_decide (c = field.mkCardinality (Some 1) (Some 1)).

(** A value-cardinality range: a lower bound of 0 or 1 and an upper bound
    that is absent (unbounded) or not below the lower bound. *)
Definition is_value_range (c : field.Cardinality) : bool :=
  match field.min c, field.max c with
  | Some lo, Some hi => (0 <=? lo) && (lo <=? hi)
  | Some lo, None => 0 <=? lo
  | None, _ => false
  end.

(** Shapes whose type expression has a list wrapper. *)
Definition is_list_shape (c : field.FieldCase) : bool :=
  match c with
  | field.DEFAULT | field.NON_NULL => false
  | _ => true
  end.

(** Sample inputs: a named type and the AST node of a field annotated with
    [@noDuplicates]. *)
Definition T : GraphQLType := GraphQLNamed "T".

Definition no_duplicates : option DefinitionNode :=
  Some (mkNode [mkDirective "noDuplicates" []]).

Definition set_field : GraphQLField :=
  mkField (GraphQLList T) no_duplicates.

Definition set_non_null_field : GraphQLField :=
  mkField (GraphQLList (GraphQLNonNull T)) no_duplicates.

Definition wrong_field : GraphQLField :=
  mkField (GraphQLNonNull T) no_duplicates.

Definition list_field : GraphQLField :=
  mkField (GraphQLList T) None.

(** A field of type [[T]] annotated with [@deprecated] only. *)
Definition deprecated_list_field : GraphQLField :=
  mkField (GraphQLList T) (Some (mkNode [mkDirective "deprecated" []])).

(** The field carries the annotation: a directive of that name is written
    on the definition of the field in the schema. *)
Definition carries (f : GraphQLField) (directive_name : string) : Prop :=
  exists node d,
    ast_node f = Some node /\ In d (directives node)
    /\ name_value d = directive_name.

End spec.

(** ** Vocabulary of the statements about directives *)
Module spec_directive.
Import graphql.

(** A directive other than the two built-in ones that the formatter drops. *)
Definition custom (d : DirectiveNode) : Prop :=
  name_value d <> "deprecated" /\ name_value d <> "specifiedBy".

(** The built-in directives [deprecated] and [specifiedBy]. *)
Definition builtin (d : DirectiveNode) : bool :=
  bool_decide (name_value d = "deprecated")
  || bool_decide (name_value d = "specifiedBy").

(** The AST node of the element of the schema that a key of the directive
    map names: a type of the type map, or a field or an enum value of such a
    type. *)
Definition element_node (schema : GraphQLSchema) (k : directive.Key)
    (n : DefinitionNode) : Prop :=
  match k with
  | inl tn => exists t, In (tn, t) (type_map schema) /\ type_ast_node t = Some n
  | inr (tn, member) =>
      exists t, In (tn, t) (type_map schema)
        /\ ((exists fs f, type_fields t = Some fs /\ In (member, f) fs
                          /\ ast_node f = Some n)
            \/ (exists nm ds vs a v, t = GraphQLEnumType nm ds vs a
                                    /\ In (member, v) vs
                                    /\ value_ast_node v = Some n))
  end.

(** The directives of an element other than the built-in ones, in the
    order in which they are written. *)
Definition other_directives (n : DefinitionNode) : list DirectiveNode :=
  List.filter (fun d => negb (builtin d)) (directives n).

(** The schema with the built-in directives erased from every type, field
    and enum value. *)
Definition without_builtin_node (n : option DefinitionNode) : option DefinitionNode :=
  option_map (fun n => mkNode (other_directives n)) n.

Definition without_builtin_field (f : string * GraphQLField) : string * GraphQLField :=
  (f.1, mkField (type f.2) (without_builtin_node (ast_node f.2))).

Definition without_builtin_value (v : string * GraphQLEnumValue)
    : string * GraphQLEnumValue :=
  (v.1, mkEnumValue (without_builtin_node (value_ast_node v.2))).

Definition without_builtin_type (t : GraphQLNamedType) : GraphQLNamedType :=
  match t with
  | GraphQLObjectType n d fs a =>
      GraphQLObjectType n d (List.map without_builtin_field fs) (without_builtin_node a)
  | GraphQLInterfaceType n d fs a =>
      GraphQLInterfaceType n d (List.map without_builtin_field fs)
        (without_builtin_node a)
  | GraphQLInputObjectType n d fs a =>
      GraphQLInputObjectType n d (List.map without_builtin_field fs)
        (without_builtin_node a)
  | GraphQLUnionType n d ts a => GraphQLUnionType n d ts (without_builtin_node a)
  | GraphQLEnumType n d vs a =>
      GraphQLEnumType n d (List.map without_builtin_value vs) (without_builtin_node a)
  | GraphQLScalarType n d a => GraphQLScalarType n d (without_builtin_node a)
  end.

Definition without_builtin (schema : GraphQLSchema) : GraphQLSchema :=
  mkSchema (List.map (fun item => (item.1, without_builtin_type item.2))
              (type_map schema)).

(** The type that a key of the directive map belongs to. *)
Definition key_type (k : directive.Key) : string :=
  match k with inl t => t | inr (t, _) => t end.

(** Strings that each render a custom directive. *)
Definition rendered_custom (print_string : string -> bool -> string)
    (strs : list string) : Prop :=
  Forall (fun s => exists d, custom d
                             /\ s = directive.format_directive_from_ast print_string d)
         strs.

(** *** Sample schemas and their printed form

    [print_schema] of graphql-core prints an enum value as its name followed
    by [@deprecated] when it is deprecated, a field as [name: Type] followed
    by [@deprecated] likewise, and the arguments of a field on lines of
    their own as soon as one of them has a description.  The built-in
    scalars and the introspection types of a type map carry no directives
    and are left out of the samples. *)
Definition lines (l : list string) : string :=
  pystr.join (String pystr.nl EmptyString) l.

Definition triple_quote : string :=
  String pystr.dquote (String pystr.dquote (String pystr.dquote EmptyString)).

Definition deprecated : DirectiveNode := mkDirective "deprecated" [].

Definition custom_directive : DirectiveNode := mkDirective "custom" [].

(** [enum E { A @deprecated @custom }]. *)
Definition schema_enum : GraphQLSchema :=
  mkSchema
    [("E", GraphQLEnumType "E" None
             [("A", mkEnumValue (Some (mkNode [deprecated; custom_directive])))]
             (Some (mkNode [])))].

Definition printed_enum : string :=
  lines ["enum E {"; "  A @deprecated"; "}"].

(** [type T { f: Int @deprecated @custom }]. *)
Definition schema_field_deprecated : GraphQLSchema :=
  mkSchema
    [("T", GraphQLObjectType "T" None
             [("f", mkField (GraphQLNamed "Int")
                      (Some (mkNode [deprecated; custom_directive])))]
             (Some (mkNode [])))].

Definition printed_field_deprecated : string :=
  lines ["type T {"; "  f: Int @deprecated"; "}"].

(** [type T { f(a: Int): Int @custom }], the argument [a] being described
    by the string [d]. *)
Definition schema_field_arguments : GraphQLSchema :=
  mkSchema
    [("T", GraphQLObjectType "T" None
             [("f", mkField (GraphQLNamed "Int") (Some (mkNode [custom_directive])))]
             (Some (mkNode [])))].

Definition printed_field_arguments : string :=
  lines ["type T {";
         "  f(";
         "    " +:+ triple_quote +:+ "d" +:+ triple_quote;
         "    a: Int";
         "  ): Int";
         "}"].

(** The directive of the test
    [test_compose_preserves_directive_with_list_arguments]:
    [@vspec(element: "UNIT", metadata: [{key: "unit", value: "mm"}])]. *)
Definition vspec : DirectiveNode :=
  mkDirective "vspec"
    [ mkArgument "element" (StringValueNode "UNIT" false);
      mkArgument "metadata"
        (ListValueNode
           [ObjectValueNode [("key", StringValueNode "unit" false);
                             ("value", StringValueNode "mm" false)]]) ].

Definition quoted (s : string) : string :=
  String pystr.dquote (s +:+ String pystr.dquote EmptyString).

End spec_directive.

(** ** Vocabulary of the statements about the RDF extraction *)
Module spec_rdf.
Import graphql rdf_materializer.

(** The wrapper-pattern tag of a field, as a string. *)
Definition pattern_of (f : GraphQLField) : string :=
  match field.field_case_to_type_wrapper_pattern (field.get_field_case f) with
  | Ok s => s
  | Raise _ => EmptyString
  end.

(** The metadata of field [item] of the type named [type_name]: its name
    is [Type.field]. *)
Definition field_info (type_name : string) (item : string * GraphQLField)
    : RdfFieldInfo :=
  mkFieldInfo (type_name +:+ "." +:+ item.1) (get_named_type (type item.2))
    (pattern_of item.2).

Definition container_of (name : string) (description : option string)
    (fields : list (string * GraphQLField)) : RdfFieldContainerType :=
  mkContainer name (_get_description description)
    (List.map (field_info name) fields).

Section kinds.
Variable excluded : string -> bool.

(** What a named type contributes to each list of the extract. *)
Definition object_of (nt : GraphQLNamedType) : option RdfFieldContainerType :=
  match nt with
  | GraphQLObjectType n d fs _ =>
      if excluded n then None else Some (container_of n d fs)
  | _ => None
  end.

Definition interface_of (nt : GraphQLNamedType) : option RdfFieldContainerType :=
  match nt with
  | GraphQLInterfaceType n d fs _ =>
      if excluded n then None else Some (container_of n d fs)
  | _ => None
  end.

Definition input_object_of (nt : GraphQLNamedType) : option RdfFieldContainerType :=
  match nt with
  | GraphQLInputObjectType n d fs _ =>
      if excluded n then None else Some (container_of n d fs)
  | _ => None
  end.

Definition union_of (nt : GraphQLNamedType) : option RdfUnionType :=
  match nt with
  | GraphQLUnionType n d ts _ =>
      if excluded n then None else Some (mkUnion n (_get_description d) ts)
  | _ => None
  end.

Definition enum_of (nt : GraphQLNamedType) : option RdfEnumType :=
  match nt with
  | GraphQLEnumType n d vs _ =>
      if excluded n then None
      else Some (mkEnum n (_get_description d) (List.map fst vs))
  | _ => None
  end.

Definition extract_of (nts : list GraphQLNamedType) : RdfSchemaExtract :=
  mkExtract (omap object_of nts) (omap interface_of nts)
    (omap input_object_of nts) (omap union_of nts) (omap enum_of nts).

End kinds.

Definition is_scalar (nt : GraphQLNamedType) : bool :=
  match nt with GraphQLScalarType _ _ _ => true | _ => false end.

(** Modelled from the spec: [is_introspection_or_root_type] of
    [s2dm/exporters/utils/graphql_type.py] is not among the sources.  The
    design excludes the introspection/meta types, whose names start with two
    underscores, and the root operation types query, mutation and
    subscription. *)
Definition is_introspection_or_root_type (type_name : string) : bool :=
  pystr.startswith type_name "__"
  || bool_decide (type_name = "Query")
  || bool_decide (type_name = "Mutation")
  || bool_decide (type_name = "Subscription").

(** Modelled from the spec: [get_all_named_types] of
    [s2dm/exporters/utils/extraction.py] is not among the sources.  The
    design takes the types in composed-schema order. *)
Definition get_all_named_types (schema : GraphQLSchema) : list GraphQLNamedType :=
  List.map snd (type_map schema).

(** [type Query { t: T }  scalar DateTime  type T { at: DateTime }], the
    schema of the test [test_custom_scalar_uses_concept_namespace]. *)
Definition schema_with_scalar : GraphQLSchema :=
  mkSchema
    [ ("Query", GraphQLObjectType "Query" None
                  [("t", mkField (GraphQLNamed "T") None)] None);
      ("DateTime", GraphQLScalarType "DateTime" None None);
      ("T", GraphQLObjectType "T" None
              [("at", mkField (GraphQLNamed "DateTime") None)] None) ].

End spec_rdf.

(** ** Vocabulary of the statements about the N-Triples output *)
Module spec_nt.

Definition newline : string := String pystr.nl EmptyString.

(** A row of rdflib's N-Triples serializer: [subject predicate object .],
    not empty, on one line, with no white space before the subject or after
    the full stop. *)
Definition is_nt_row (row : string) : bool :=
  pystr.truthy row
  && negb (pystr.contains row newline)
  && bool_decide (pystr.lstrip row = row)
  && bool_decide (pystr.rstrip row = row).

(** Two triples in the two orders in which a store may yield them. *)
Definition row_a : string := "<http://ex/a> <http://ex/p> <http://ex/o> .".

Definition row_b : string := "<http://ex/b> <http://ex/p> <http://ex/o> .".

Definition graph_ab : rdflib.Graph := rdflib.mkGraph [row_a; row_b].

Definition graph_ba : rdflib.Graph := rdflib.mkGraph [row_b; row_a].

End spec_nt.

(** ** Sample collaborators of the command [registry id] *)
Module spec_cli.
Import pathlib.

Definition load_ok (schemas : list Path) : pyresult string graphql.GraphQLSchema :=
  Ok (graphql.mkSchema []).

Definition json_ok (p : Path) : pyresult string (cli.Json unit) :=
  Ok (cli.JsonList [tt]).

Definition validate_ok (v : unit) : pyresult string unit := Ok tt.

(** An exporter that writes its output file when it has one. *)
Definition run_writes_output (e : cli.IDExporter unit)
    : list Path * pyresult string string :=
  (match cli.output e with Some o => [o] | None => [] end, Ok "ids").

Definition path_str (p : Path) : string := pystr.join "/" (parent p ++ [name p]).

Definition empty_world : cli.World unit string := cli.mkWorld [] [] [].

Definition ids_json : Path := mkPath ["out"] "ids.json".
Definition previous_json : Path := mkPath ["out"] "variant_ids_v0.json".
Definition diff_json : Path := mkPath ["out"] "diff.json".

End spec_cli.

(** ** Sample inputs for the further properties *)
Module sample.
Import pathlib.

Definition ids_json : Path := mkPath ["out"] "ids.json".

(** A diff file that holds a JSON object instead of an array. *)
Definition json_object (p : Path) : pyresult string (cli.Json unit) :=
  Ok (cli.JsonOther tt).

End sample.

(** ** Printed type blocks

    The shape in which [print_schema] prints an object, interface, input or
    enum type: a header line [kind Name ... {], one indented line per member
    and a closing brace.  Blocks are separated by an empty line. *)
Module block.

Fixpoint all_chars (p : ascii -> bool) (s : string) : bool :=
  match s with
  | EmptyString => true
  | String c s' => p c && all_chars p s'
  end.

(** A name: one or more word characters. *)
Definition is_name (s : string) : bool :=
  pystr.truthy s && all_chars pystr.isword s.

Definition keywords : list string :=
  ["type"; "interface"; "input"; "enum"; "union"; "scalar"].

(** What may stand between the name and the brace of a header, such as
    [ implements Node]: no brace, quote or newline, no word character right
    after the name and no white space before the brace. *)
Definition is_header_tail (s : string) : bool :=
  all_chars (fun c => negb (bool_decide (c = "{"%char))
                      && negb (bool_decide (c = pystr.dquote))
                      && negb (bool_decide (c = pystr.nl))) s
  && bool_decide (pystr.rstrip s = s)
  && match s with
     | EmptyString => true
     | String c _ => negb (pystr.isword c)
     end.

Inductive Member : Type :=
| EnumValueLine (name : string)
| FieldLine (name type_text : string).

Definition member_name (m : Member) : string :=
  match m with EnumValueLine n | FieldLine n _ => n end.

Definition member_line (m : Member) : string :=
  match m with
  | EnumValueLine n => "  " +:+ n
  | FieldLine n t => "  " +:+ n +:+ ": " +:+ t
  end.

Definition is_member (m : Member) : bool :=
  match m with
  | EnumValueLine n => is_name n
  | FieldLine n t =>
      is_name n && all_chars (fun c => negb (bool_decide (c = pystr.nl))) t
  end.

Record Block : Type := mkBlock {
  kind : string;
  name : string;
  tail : string;
  members : list Member }.

Definition is_block (b : Block) : bool :=
  bool_decide (kind b ∈ keywords) && is_name (name b)
  && is_header_tail (tail b) && forallb is_member (members b).

Definition header (b : Block) : string :=
  kind b +:+ " " +:+ name b +:+ tail b +:+ " {".

Definition block_lines (b : Block) : list string :=
  header b :: List.map member_line (members b) ++ ["}"].

(** The blocks of a document, an empty line between two of them. *)
Fixpoint document (bs : list Block) : list string :=
  match bs with
  | [] => []
  | [b] => block_lines b
  | b :: bs' => block_lines b ++ EmptyString :: document bs'
  end.

Section annotated.
Variable directive_map : gmap directive.Key (list string).

Definition directives_at (k : directive.Key) : string :=
  match directive_map !! k with
  | Some ds => directive.directives_str ds
  | None => EmptyString
  end.

Definition annotated_header (b : Block) : string :=
  kind b +:+ " " +:+ name b +:+ tail b +:+ directives_at (inl (name b)) +:+ " {".

Definition annotated_member (type_name : string) (m : Member) : string :=
  match directive_map !! inr (type_name, member_name m) with
  | Some ds => pystr.rstrip (member_line m) +:+ directive.directives_str ds
  | None => member_line m
  end.

Definition annotated_block (b : Block) : list string :=
  annotated_header b :: List.map (annotated_member (name b)) (members b) ++ ["}"].

Fixpoint annotated_document (bs : list Block) : list string :=
  match bs with
  | [] => []
  | [b] => annotated_block b
  | b :: bs' => annotated_block b ++ EmptyString :: annotated_document bs'
  end.

End annotated.

(** The enum of the test [test_compose_preserves_directive_with_list_arguments],
    with placeholder directive strings. *)
Definition length_unit : Block :=
  mkBlock "enum" "LengthUnit" EmptyString
    [EnumValueLine "MILLIMETER"; EnumValueLine "METER"].

Definition cabin : Block :=
  mkBlock "type" "Cabin" " implements Node"
    [FieldLine "kind" "CabinKindEnum"; FieldLine "doors" "[Door]"].

Definition sample_map : gmap directive.Key (list string) :=
  <[inl "LengthUnit" := ["@vspec(element: QUANTITY_KIND)"]]>
  (<[inr ("LengthUnit", "METER") := ["@vspec(element: UNIT)"; "@si"]]>
  (<[inr ("Cabin", "doors") := ["@noDuplicates"]]> ∅)).

End block.

(** ** Indexing of strings *)
Module pyindex.

(** [s[n]] for [0 <= n], when in range. *)
Fixpoint get (n : nat) (s : string) : option ascii :=
  match s, n with
  | EmptyString, _ => None
  | String c _, O => Some c
  | String _ s', S n' => get n' s'
  end.

End pyindex.

(** ** Directive arguments: [get_directive_arguments] and
    [get_argument_content] of [s2dm/exporters/utils/directive.py],
    [get_cardinality] of [s2dm/exporters/utils/field.py]

    Python's conversions [int(str)], [float(str)] and [int(float)] are the
    parameters of the section; [Float] is the type of Python floats and
    [Exn] the type of the exceptions the conversions raise. *)
Module arguments.
Import graphql.

(** The value node of the last argument named [k]. *)
Fixpoint last_argument (k : string) (arguments : list ArgumentNode)
    : option ValueNode :=
  match arguments with
  | [] => None
  | arg :: rest =>
      match last_argument k rest with
      | Some v => Some v
      | None => if decide (arg_name arg = k) then Some (arg_value arg) else None
      end
  end.

(** The first directive named [directive_name] of a field. *)
Definition first_directive (directive_name : string) (f : GraphQLField)
    : option DirectiveNode :=
  match ast_node f with
  | Some node =>
      List.find (fun d => bool_decide (name_value d = directive_name))
        (directives node)
  | None => None
  end.

Section builtins.
Variable Float : Type.
Variable Exn : Type.
Variable int_of_str : string -> pyresult Exn Z.
Variable float_of_str : string -> pyresult Exn Float.
Variable int_of_float : Float -> pyresult Exn Z.

(** The values a directive argument is stored as: a Python number, string
    or bool, or the AST node itself. *)
Inductive PyValue : Type :=
| PyInt (z : Z)
| PyFloat (x : Float)
| PyStr (s : string)
| PyBool (b : bool)
| PyNode (n : ValueNode).

Inductive Error : Type :=
| StopIteration
| TypeError
| BuiltinError (e : Exn).

(** An insertion-ordered dict with string keys: [d[k] = v] keeps the place
    of a key that is present. *)
Definition Dict : Type := list (string * PyValue).

Fixpoint dict_set (k : string) (v : PyValue) (d : Dict) : Dict :=
  match d with
  | [] => [(k, v)]
  | (k', v') :: d' =>
      if decide (k' = k) then (k, v) :: d' else (k', v') :: dict_set k v d'
  end.

Fixpoint dict_get (k : string) (d : Dict) : option PyValue :=
  match d with
  | [] => None
  | (k', v') :: d' => if decide (k' = k) then Some v' else dict_get k d'
  end.

(** [k in d]. *)
Definition dict_contains (k : string) (d : Dict) : bool :=
  match dict_get k d with Some _ => true | None => false end.

(** The value stored for an argument: the branches on
    [hasattr(arg.value, "value")] and on the node class. *)
Definition stored_value (v : ValueNode) : pyresult Error PyValue :=
  match v with
  | IntValueNode s =>
      match int_of_str s with
      | Ok z => Ok (PyInt z)
      | Raise e => Raise (BuiltinError e)
      end
  | FloatValueNode s =>
      match float_of_str s with
      | Ok x => Ok (PyFloat x)
      | Raise e => Raise (BuiltinError e)
      end
  | StringValueNode s _ => Ok (PyStr s)
  | BooleanValueNode b => Ok (PyBool b)
  | EnumValueNode s => Ok (PyStr s)
  | VariableNode _ | NullValueNode | ListValueNode _ | ObjectValueNode _ =>
      Ok (PyNode v)
  end.

(** The loop over [directive.arguments]. *)
Fixpoint store_arguments (args : Dict) (arguments : list ArgumentNode)
    : pyresult Error Dict :=
  match arguments with
  | [] => Ok args
  | arg :: rest =>
      match stored_value (arg_value arg) with
      | Ok v => store_arguments (dict_set (arg_name arg) v args) rest
      | Raise e => Raise e
      end
  end.

(** [next(d for d in directives if d.name.value == directive_name)]. *)
Fixpoint next_directive (directive_name : string) (ds : list DirectiveNode)
    : pyresult Error DirectiveNode :=
  match ds with
  | [] => Raise StopIteration
  | d :: ds' =>
      if bool_decide (name_value d = directive_name) then Ok d
      else next_directive directive_name ds'
  end.

(** The guard returns the empty dict when the directive is absent or the
    element has no AST node; past it the node is there. *)
Definition get_directive_arguments (element : GraphQLField)
    (directive_name : string) : pyresult Error Dict :=
  match ast_node element with
  | Some node =>
      if negb (directive.has_given_directive element directive_name) then Ok []
      else
        match next_directive directive_name (directives node) with
        | Ok directive => store_arguments [] (arguments directive)
        | Raise e => Raise e
        end
  | None => Ok []
  end.

(** [args.get(argument_name) if args and argument_name in args else None]. *)
Definition get_argument_content (element : GraphQLField)
    (directive_name argument_name : string) : pyresult Error (option PyValue) :=
  match get_directive_arguments element directive_name with
  | Ok args =>
      match args with
      | [] => Ok None
      | _ :: _ =>
          if dict_contains argument_name args then Ok (dict_get argument_name args)
          else Ok None
      end
  | Raise e => Raise e
  end.

(** [int(x)] on a stored value. *)
Definition py_int (x : PyValue) : pyresult Error Z :=
  match x with
  | PyInt z => Ok z
  | PyFloat f =>
      match int_of_float f with Ok z => Ok z | Raise e => Raise (BuiltinError e) end
  | PyStr s =>
      match int_of_str s with Ok z => Ok z | Raise e => Raise (BuiltinError e) end
  | PyBool b => Ok (if b then 1 else 0)
  | PyNode _ => Raise TypeError
  end.

(** [int(args[k]) if k in args and args[k] is not None else None]: no
    stored value is [None]. *)
Definition bound (k : string) (args : Dict) : pyresult Error (option Z) :=
  match dict_get k args with
  | Some x =>
      match py_int x with Ok z => Ok (Some z) | Raise e => Raise e end
  | None => Ok None
  end.

Definition get_cardinality (f : GraphQLField)
    : pyresult Error (option field.Cardinality) :=
  if directive.has_given_directive f "cardinality" then
    match get_directive_arguments f "cardinality" with
    | Ok args =>
        match args with
        | [] => Ok (Some (field.mkCardinality None None))
        | _ :: _ =>
            match bound "min" args with
            | Ok min_val =>
                match bound "max" args with
                | Ok max_val => Ok (Some (field.mkCardinality min_val max_val))
                | Raise e => Raise e
                end
            | Raise e => Raise e
            end
        end
    | Raise e => Raise e
    end
  else Ok None.

(** The bound [k] of a directive whose argument [k] is an integer literal. *)
Definition literal_bound (k : string) (arguments : list ArgumentNode) : option Z :=
  match last_argument k arguments with
  | Some (IntValueNode s) =>
      match int_of_str s with Ok z => Some z | Raise _ => None end
  | _ => None
  end.

(** Argument [k] is absent or an integer literal. *)
Definition literal_or_absent (k : string) (arguments : list ArgumentNode) : bool :=
  match last_argument k arguments with
  | None | Some (IntValueNode _) => true
  | Some _ => false
  end.

(** The value node is stored as it is: no class with a [value] attribute. *)
Definition kept_as_node (v : ValueNode) : bool :=
  match v with
  | VariableNode _ | NullValueNode | ListValueNode _ | ObjectValueNode _ => true
  | _ => false
  end.

End builtins.

Arguments PyInt {Float} z.
Arguments PyFloat {Float} x.
Arguments PyStr {Float} s.
Arguments PyBool {Float} b.
Arguments PyNode {Float} n.
Arguments StopIteration {Exn}.
Arguments TypeError {Exn}.
Arguments BuiltinError {Exn} e.
Arguments dict_set {Float} k v d.
Arguments dict_get {Float} k d.
Arguments dict_contains {Float} k d.
Arguments stored_value {Float Exn} int_of_str float_of_str v.
Arguments store_arguments {Float Exn} int_of_str float_of_str args arguments.
Arguments next_directive {Exn} directive_name ds.
Arguments get_directive_arguments {Float Exn} int_of_str float_of_str
  element directive_name.
Arguments get_argument_content {Float Exn} int_of_str float_of_str
  element directive_name argument_name.
Arguments py_int {Float Exn} int_of_str int_of_float x.
Arguments bound {Float Exn} int_of_str int_of_float k args.
Arguments get_cardinality {Float Exn} int_of_str float_of_str int_of_float f.
Arguments literal_bound {Exn} int_of_str k arguments.

(** A conversion of decimal digit strings, standing for [int] in the
    examples. *)
Definition digit (c : ascii) : option Z :=
  let n := Z.of_nat (nat_of_ascii c) in
  if (48 <=? n) && (n <=? 57) then Some (n - 48) else None.

Fixpoint digits (acc : Z) (s : string) : pyresult unit Z :=
  match s with
  | EmptyString => Ok acc
  | String c s' =>
      match digit c with
      | Some d => digits (10 * acc + d) s'
      | None => Raise tt
      end
  end.

Definition int_of_digits (s : string) : pyresult unit Z :=
  match s with
  | EmptyString => Raise tt
  | String _ _ => digits 0 s
  end.

(** [doors: [Door] @cardinality(min: 2, max: 4)] and
    [doors: [Door] @cardinality(min: null)]. *)
Definition doors_2_4 : GraphQLField :=
  mkField (GraphQLList (GraphQLNamed "Door"))
    (Some (mkNode [mkDirective "cardinality"
                     [mkArgument "min" (IntValueNode "2");
                      mkArgument "max" (IntValueNode "4")]])).

Definition doors_null : GraphQLField :=
  mkField (GraphQLList (GraphQLNamed "Door"))
    (Some (mkNode [mkDirective "cardinality" [mkArgument "min" NullValueNode]])).

End arguments.

(** ** [pretty_print_dict_json] of [s2dm/cli.py] *)
Module pretty.

(** The line boundaries of [str.splitlines] among the code points below
    256: LF, VT, FF, CR, FS, GS, RS and NEL. *)
Definition is_linebreak (c : ascii) : bool :=
  let n := nat_of_ascii c in
  bool_decide (n = 10%nat) || bool_decide (n = 11%nat) || bool_decide (n = 12%nat)
  || bool_decide (n = 13%nat) || bool_decide (n = 28%nat) || bool_decide (n = 29%nat)
  || bool_decide (n = 30%nat) || bool_decide (n = 133%nat).

Definition cr : ascii := ascii_of_nat 13.

(** [s.splitlines()]: the lines without their boundaries; CR LF is one
    boundary, and a boundary at the end opens no further line.  [after_cr]
    holds right after a CR. *)
Fixpoint splitlines_from (after_cr : bool) (s : string) : list string :=
  match s with
  | EmptyString => []
  | String c s' =>
      if after_cr && bool_decide (c = pystr.nl) then splitlines_from false s'
      else if is_linebreak c then
        EmptyString :: splitlines_from (bool_decide (c = cr)) s'
      else
        match splitlines_from false s' with
        | [] => [String c EmptyString]
        | l :: rest => String c l :: rest
        end
  end.

Definition splitlines (s : string) : list string := splitlines_from false s.

Section objects.
(** Objects that are neither [str], [dict] nor [list]. *)
Variable Other : Type.

Inductive PyObj : Type :=
| PyString (s : string)
| PyDict (items : list (string * PyObj))
| PyList (items : list PyObj)
| PyOther (o : Other).

Fixpoint multiline_str_representer (obj : PyObj) : PyObj :=
  match obj with
  | PyString s =>
      if pystr.contains s (String pystr.nl EmptyString)
      then PyList (List.map PyString (splitlines s))
      else obj
  | PyDict items =>
      PyDict (List.map (fun kv => (fst kv, multiline_str_representer (snd kv))) items)
  | PyList items => PyList (List.map multiline_str_representer items)
  | PyOther _ => obj
  end.

Definition pretty_print_dict_json (result : list (string * PyObj))
    : list (string * PyObj) :=
  List.map (fun kv => (fst kv, multiline_str_representer (snd kv))) result.

(** No string of the object, dict keys apart, holds a newline. *)
Fixpoint newline_free (obj : PyObj) : bool :=
  match obj with
  | PyString s => negb (pystr.contains s (String pystr.nl EmptyString))
  | PyDict items => forallb (fun kv => newline_free (snd kv)) items
  | PyList items => forallb newline_free items
  | PyOther _ => true
  end.

End objects.

Arguments PyString {Other} s.
Arguments PyDict {Other} items.
Arguments PyList {Other} items.
Arguments PyOther {Other} o.
Arguments multiline_str_representer {Other} obj.
Arguments pretty_print_dict_json {Other} result.
Arguments newline_free {Other} obj.

(** A result whose strings are single lines. *)
Definition single_lines : list (string * PyObj unit) :=
  [("command", PyString "graphql-inspector diff a b");
   ("returncode", PyOther tt);
   ("output", PyList [PyString "first"; PyString "second"])].

End pretty.

(** ** [s2dm/tools/graphql_inspector.py]: [GraphQLInspector._run_command] *)
Module graphql_inspector.

Inductive InspectorCommands : Type := DIFF | VALIDATE | INTROSPECT | SIMILAR.

Global Instance InspectorCommands_eq_dec : EqDecision InspectorCommands.
Proof. solve_decision. Defined.

Definition value (c : InspectorCommands) : string :=
  match c with
  | DIFF => "diff"
  | VALIDATE => "validate"
  | INTROSPECT => "introspect"
  | SIMILAR => "similar"
  end.

Record InspectorOutput : Type := mkOutput {
  command : string;
  returncode : Z;
  output : string }.

(** [subprocess.CompletedProcess]: a stream that was not captured is
    [None]. *)
Record CompletedProcess : Type := mkProcess {
  process_returncode : Z;
  stdout : option string;
  stderr : option string }.

(** The inspector with [str(self.schema_path)] and the resolved
    [self.cli_cmd]. *)
Record GraphQLInspector : Type := mkInspector {
  schema_path : string;
  cli_cmd : string }.

Inductive LogRecord : Type :=
| LogInfo (msg : string)
| LogDebug (msg : string)
| LogWarning (msg : string).

Section run.
(** What [subprocess.run] raises. *)
Variable Exn : Type.
Variable subprocess_run : list string -> pyresult Exn CompletedProcess.
(** [str] of an [int]. *)
Variable str_of_int : Z -> string.

Inductive Error : Type :=
| ValueError (msg : string)
| ProcessError (e : Exn).

(** The command line; [args] are the arguments after [str].  The methods
    of the class pass no keyword arguments on to [subprocess.run]. *)
Definition build_command (self : GraphQLInspector) (command : InspectorCommands)
    (args : list string) : pyresult Error (list string) :=
  if bool_decide (command ∈ [DIFF; INTROSPECT; SIMILAR]) then
    Ok ([cli_cmd self; value command; schema_path self] ++ args)
  else if bool_decide (command = VALIDATE) then
    Ok ([cli_cmd self; value command] ++ args ++ [schema_path self])
  else Raise (ValueError ("Unknown command: " +:+ value command)).

(** [stream.strip() if stream else ""]. *)
Definition stripped (stream : option string) : string :=
  match stream with
  | Some s => if pystr.truthy s then pystr.strip s else EmptyString
  | None => EmptyString
  end.

Definition combine (stdout stderr : string) : string :=
  if pystr.truthy stderr then
    if pystr.truthy stdout then stdout +:+ String pystr.nl EmptyString +:+ stderr
    else stderr
  else stdout.

(** The call with the records logged before it; it returns the result or
    the exception, and the records logged since. *)
Definition _run_command (self : GraphQLInspector) (command : InspectorCommands)
    (args : list string) (log : list LogRecord)
    : pyresult Error InspectorOutput * list LogRecord :=
  match build_command self command args with
  | Raise e => (Raise e, log)
  | Ok cmd =>
      let log := log ++ [LogInfo ("Running command: " +:+ pystr.join " " cmd)] in
      match subprocess_run cmd with
      | Raise e => (Raise (ProcessError e), log)
      | Ok result =>
          let output := combine (stripped (stdout result)) (stripped (stderr result)) in
          let log :=
            if pystr.truthy output
            then log ++ [LogDebug ("OUTPUT:" +:+ String pystr.nl EmptyString +:+ output)]
            else log in
          let log :=
            if negb (process_returncode result =? 0)
            then log ++ [LogWarning ("Command failed with return code "
                                     +:+ str_of_int (process_returncode result))]
            else log in
          let log :=
            log ++ [LogInfo ("Process completed with return code: "
                             +:+ str_of_int (process_returncode result))] in
          (Ok (mkOutput (pystr.join " " cmd) (process_returncode result) output), log)
      end
  end.

End run.

Arguments ValueError {Exn} msg.
Arguments ProcessError {Exn} e.
Arguments build_command {Exn} self command args.
Arguments _run_command {Exn} subprocess_run str_of_int self command args log.

Definition is_warning (r : LogRecord) : bool :=
  match r with LogWarning _ => true | _ => false end.

(** A stream with nothing but white space, or none. *)
Definition blank (stream : option string) : bool :=
  match stream with
  | Some s => negb (pystr.truthy (pystr.strip s))
  | None => true
  end.

End graphql_inspector.

(** ** The command [diff graphql] of [s2dm/cli.py]

    The command runs against a world that records what it logs and prints,
    which temporary files exist and which files were written.  The
    collaborators of other modules are the parameters of the section. *)
Module cli_diff.
Import pathlib.

Section diff_graphql.
Variable DiffChange : Type.
Variable Inspector : Type.
(** Exceptions that are no [RuntimeError]. *)
Variable Exn : Type.

Inductive Exception : Type :=
| RuntimeError (msg : string)
| OtherError (e : Exn).

(** [create_tempfile_to_composed_schema]: the path of the temporary file it
    created, or what it raises (no file is left then). *)
Variable create_tempfile_to_composed_schema : list Path -> pyresult Exception Path.
(** [GraphQLInspector(schema_path, node_modules_path=...)]. *)
Variable new_inspector : Path -> option Path -> pyresult Exception Inspector.
(** [inspector.diff_structured(other_schema)]. *)
Variable diff_structured : Inspector -> Path -> pyresult Exception (list DiffChange).
(** [change.criticality]. *)
Variable criticality : DiffChange -> string.
(** [json.dumps([change.model_dump() for change in changes], indent=2,
    ensure_ascii=False)]. *)
Variable json_dumps : list DiffChange -> string.
(** Creating the parent directory, opening the file, writing, flushing and
    syncing: done, or what one of the steps raises. *)
Variable write_text : Path -> string -> pyresult Exception unit.

Inductive LogRecord : Type :=
| LogComparing (schemas val_schemas : list Path) (output : option Path)
| LogFailedDiff (e : string)
| LogWriting (output : Path)
| LogPrint (text : string).

Record World : Type := mkWorld {
  log : list LogRecord;
  temp_files : list Path;
  files_written : list (Path * string) }.

Inductive Outcome (A : Type) : Type :=
| Returned (a : A)
| SystemExit (code : Z)
| Uncaught (e : Exception).
Arguments Returned {A} a.
Arguments SystemExit {A} code.
Arguments Uncaught {A} e.

Definition M (A : Type) : Type := World -> Outcome A * World.

Definition ret {A} (a : A) : M A := fun w => (Returned a, w).

Definition bind {A B} (m : M A) (k : A -> M B) : M B :=
  fun w =>
    match m w with
    | (Returned a, w') => k a w'
    | (SystemExit code, w') => (SystemExit code, w')
    | (Uncaught e, w') => (Uncaught e, w')
    end.

Notation "x <- m ;; k" := (bind m (fun x => k))
  (at level 100, m at next level, right associativity).
Notation "m ;;; k" := (bind m (fun _ => k))
  (at level 100, right associativity).

Definition sys_exit {A} (code : Z) : M A := fun w => (SystemExit code, w).

(** A call that returns or raises and leaves the world as it is. *)
Definition call {A} (r : pyresult Exception A) : M A :=
  fun w =>
    match r with
    | Ok a => (Returned a, w)
    | Raise e => (Uncaught e, w)
    end.

Definition log_record (r : LogRecord) : M unit :=
  fun w => (Returned tt, mkWorld (log w ++ [r]) (temp_files w) (files_written w)).

Definition create_tempfile (schemas : list Path) : M Path :=
  fun w =>
    match create_tempfile_to_composed_schema schemas with
    | Ok p => (Returned p, mkWorld (log w) (temp_files w ++ [p]) (files_written w))
    | Raise e => (Uncaught e, w)
    end.

Definition write_output (output : Path) (text : string) : M unit :=
  fun w =>
    match write_text output text with
    | Ok _ =>
        (Returned tt, mkWorld (log w) (temp_files w) (files_written w ++ [(output, text)]))
    | Raise e => (Uncaught e, w)
    end.

(** [path.unlink(missing_ok=True)]. *)
Definition unlink (p : Path) (w : World) : World :=
  mkWorld (log w) (List.filter (fun q => negb (bool_decide (q = p))) (temp_files w))
    (files_written w).

(** [try: body finally: cleanup]: the cleanup runs however the body ends,
    and the body's end is the statement's. *)
Definition try_finally {A} (body : M A) (cleanup : World -> World) : M A :=
  fun w => let '(o, w') := body w in (o, cleanup w').

(** [try: inspector.diff_structured(...) except RuntimeError as e: ...]. *)
Definition structured_diff_or_exit (inspector : Inspector) (val_temp_path : Path)
    : M (list DiffChange) :=
  match diff_structured inspector val_temp_path with
  | Ok changes => ret changes
  | Raise (RuntimeError e) => log_record (LogFailedDiff e) ;;; sys_exit 2
  | Raise (OtherError e) => call (Raise (OtherError e))
  end.

(** [any(change.criticality != "NON_BREAKING" for change in changes)]. *)
Definition has_breaking (changes : list DiffChange) : bool :=
  existsb (fun change => negb (bool_decide (criticality change = "NON_BREAKING")))
    changes.

Definition diff_graphql (schemas val_schemas : list Path) (output : option Path)
    (inspector_path : option Path) : M unit :=
  log_record (LogComparing schemas val_schemas output) ;;;
  input_temp_path <- create_tempfile schemas ;;
  val_temp_path <- create_tempfile val_schemas ;;
  try_finally
    (inspector <- call (new_inspector input_temp_path inspector_path) ;;
     structured_diff <- structured_diff_or_exit inspector val_temp_path ;;
     let json_output := json_dumps structured_diff in
     match output with
     | Some output => log_record (LogWriting output) ;;; write_output output json_output
     | None => log_record (LogPrint json_output)
     end ;;;
     sys_exit (if has_breaking structured_diff then 1 else 0))
    (fun w => unlink val_temp_path (unlink input_temp_path w)).

End diff_graphql.

Arguments RuntimeError {Exn} msg.
Arguments OtherError {Exn} e.
Arguments Returned {Exn A} a.
Arguments SystemExit {Exn A} code.
Arguments Uncaught {Exn A} e.
Arguments diff_graphql {DiffChange Inspector Exn}
  create_tempfile_to_composed_schema new_inspector diff_structured criticality
  json_dumps write_text schemas val_schemas output inspector_path.
Arguments has_breaking {DiffChange} criticality changes.

(** Two schema files whose second cannot be composed. *)
Definition schema_a : Path := mkPath ["spec"] "a.graphql".
Definition schema_b : Path := mkPath ["spec"] "b.graphql".
Definition temp_a : Path := mkPath ["tmp"] "a_composed.graphql".
Definition temp_b : Path := mkPath ["tmp"] "b_composed.graphql".

Definition create_a_only (schemas : list Path) : pyresult (@Exception unit) Path :=
  if bool_decide (schemas = [schema_a]) then Ok temp_a else Raise (OtherError tt).

Definition create_both (schemas : list Path) : pyresult (@Exception unit) Path :=
  if bool_decide (schemas = [schema_a]) then Ok temp_a else Ok temp_b.

End cli_diff.

(** ** [materialize_schema_to_rdf] of [s2dm/exporters/rdf_materializer.py]

    The terms are rdflib's and the vocabulary [S2DM] is that of
    [s2dm/exporters/skos.py]; they are the parameters of the section.  A
    graph is given by the triples added to it, in the order of the calls of
    [graph.add]: rdflib keeps them as a set.  The prefix bindings of the
    graph, which name no triple, are left out. *)
Module materializer.
Import rdf_materializer.

Section terms.
Variable Node : Type.
Variable Exn : Type.
(** [Namespace(namespace)[name]]. *)
Variable concept : string -> string -> Node.
(** [getattr(S2DM, name)]. *)
Variable s2dm : string -> Node.
(** [Literal(text)]. *)
Variable plain_literal : string -> Node.
(** [Literal(text, lang=language)], which refuses a language tag that is
    not well-formed. *)
Variable lang_literal : string -> string -> pyresult Exn Node.
Variables RDF_type SKOS_Concept SKOS_prefLabel SKOS_definition : Node.

Definition Triple : Type := Node * Node * Node.
Definition Graph : Type := list Triple.

Definition subject (t : Triple) : Node := fst (fst t).

Definition BUILTIN_SCALARS : list string :=
  ["Int"; "Float"; "String"; "Boolean"; "ID"].

Definition add (graph : Graph) (t : Triple) : Graph := graph ++ [t].

Definition and_then {A B} (r : pyresult Exn A) (k : A -> pyresult Exn B)
    : pyresult Exn B :=
  match r with
  | Ok a => k a
  | Raise e => Raise e
  end.

Definition _add_concept_header (graph : Graph) (uri : Node)
    (pref_label description : string) (s2dm_type : Node) (language : string)
    : pyresult Exn Graph :=
  let graph := add graph (uri, RDF_type, SKOS_Concept) in
  let graph := add graph (uri, RDF_type, s2dm_type) in
  and_then (lang_literal pref_label language) (fun label =>
  let graph := add graph (uri, SKOS_prefLabel, label) in
  if pystr.truthy (pystr.strip description)
  then Ok (add graph (uri, SKOS_definition, plain_literal description))
  else Ok graph).

Section graph.
Variable namespace : string.
Variable language : string.

(** The body of the loop over the fields of a container. *)
Definition materialize_field (type_uri : Node) (graph : Graph)
    (field_info : RdfFieldInfo) : pyresult Exn Graph :=
  let field_uri := concept namespace (field_fqn field_info) in
  let graph := add graph (type_uri, s2dm "hasField", field_uri) in
  and_then
    (_add_concept_header graph field_uri (field_fqn field_info) EmptyString
       (s2dm "Field") language) (fun graph =>
  let output_uri :=
    if bool_decide (output_type_name field_info ∈ BUILTIN_SCALARS)
    then s2dm (output_type_name field_info)
    else concept namespace (output_type_name field_info) in
  let graph := add graph (field_uri, s2dm "hasOutputType", output_uri) in
  let wrapper_pattern := s2dm (type_wrapper_pattern field_info) in
  Ok (add graph (field_uri, s2dm "usesTypeWrapperPattern", wrapper_pattern))).

(** A [for] loop whose body may raise. *)
Fixpoint for_each {A} (body : Graph -> A -> pyresult Exn Graph) (graph : Graph)
    (items : list A) : pyresult Exn Graph :=
  match items with
  | [] => Ok graph
  | x :: rest => and_then (body graph x) (fun graph => for_each body graph rest)
  end.

Definition _materialize_field_container (s2dm_type : Node) (graph : Graph)
    (container_type : RdfFieldContainerType) : pyresult Exn Graph :=
  let type_uri := concept namespace (container_name container_type) in
  and_then
    (_add_concept_header graph type_uri (container_name container_type)
       (container_description container_type) s2dm_type language) (fun graph =>
  for_each (materialize_field type_uri) graph (container_fields container_type)).

Definition materialize_union (graph : Graph) (union_type : RdfUnionType)
    : pyresult Exn Graph :=
  let union_uri := concept namespace (union_name union_type) in
  and_then
    (_add_concept_header graph union_uri (union_name union_type)
       (union_description union_type) (s2dm "UnionType") language) (fun graph =>
  for_each
    (fun graph member_name =>
       Ok (add graph (union_uri, s2dm "hasUnionMember", concept namespace member_name)))
    graph (member_type_names union_type)).

Definition materialize_enum (graph : Graph) (enum_type : RdfEnumType)
    : pyresult Exn Graph :=
  let enum_uri := concept namespace (enum_name enum_type) in
  and_then
    (_add_concept_header graph enum_uri (enum_name enum_type)
       (enum_description enum_type) (s2dm "EnumType") language) (fun graph =>
  for_each
    (fun graph value_name =>
       let value_fqn := enum_name enum_type +:+ "." +:+ value_name in
       let value_uri := concept namespace value_fqn in
       let graph := add graph (enum_uri, s2dm "hasEnumValue", value_uri) in
       _add_concept_header graph value_uri value_fqn EmptyString
         (s2dm "EnumValue") language)
    graph (enum_values enum_type)).

(** The loops of [materialize_schema_to_rdf] over the lists of the
    extract. *)
Definition materialize_extract (extract : RdfSchemaExtract) : pyresult Exn Graph :=
  and_then (for_each (_materialize_field_container (s2dm "ObjectType")) []
              (object_types extract)) (fun graph =>
  and_then (for_each (_materialize_field_container (s2dm "InterfaceType")) graph
              (interface_types extract)) (fun graph =>
  and_then (for_each (_materialize_field_container (s2dm "InputObjectType")) graph
              (input_object_types extract)) (fun graph =>
  and_then (for_each materialize_union graph (union_types extract)) (fun graph =>
  for_each materialize_enum graph (enum_types extract))))).

(** *** The triples of an extract

    [label] gives the literal of a label in the language of the graph. *)
Section triples.
Variable label : string -> Node.

Definition header_triples (uri : Node) (pref_label description : string)
    (s2dm_type : Node) : list Triple :=
  [(uri, RDF_type, SKOS_Concept); (uri, RDF_type, s2dm_type);
   (uri, SKOS_prefLabel, label pref_label)]
  ++ (if pystr.truthy (pystr.strip description)
      then [(uri, SKOS_definition, plain_literal description)] else []).

Definition output_uri (field_info : RdfFieldInfo) : Node :=
  if bool_decide (output_type_name field_info ∈ BUILTIN_SCALARS)
  then s2dm (output_type_name field_info)
  else concept namespace (output_type_name field_info).

Definition field_triples (type_name : string) (field_info : RdfFieldInfo)
    : list Triple :=
  let field_uri := concept namespace (field_fqn field_info) in
  (concept namespace type_name, s2dm "hasField", field_uri)
  :: header_triples field_uri (field_fqn field_info) EmptyString (s2dm "Field")
  ++ [(field_uri, s2dm "hasOutputType", output_uri field_info);
      (field_uri, s2dm "usesTypeWrapperPattern",
       s2dm (type_wrapper_pattern field_info))].

Definition container_triples (s2dm_type : Node) (c : RdfFieldContainerType)
    : list Triple :=
  header_triples (concept namespace (container_name c)) (container_name c)
    (container_description c) s2dm_type
  ++ concat (List.map (field_triples (container_name c)) (container_fields c)).

Definition union_triples (u : RdfUnionType) : list Triple :=
  header_triples (concept namespace (union_name u)) (union_name u)
    (union_description u) (s2dm "UnionType")
  ++ List.map (fun m => (concept namespace (union_name u), s2dm "hasUnionMember",
                         concept namespace m))
       (member_type_names u).

Definition enum_value_triples (enum : string) (value_name : string) : list Triple :=
  let value_fqn := enum +:+ "." +:+ value_name in
  (concept namespace enum, s2dm "hasEnumValue", concept namespace value_fqn)
  :: header_triples (concept namespace value_fqn) value_fqn EmptyString
       (s2dm "EnumValue").

Definition enum_triples (t : RdfEnumType) : list Triple :=
  header_triples (concept namespace (enum_name t)) (enum_name t)
    (enum_description t) (s2dm "EnumType")
  ++ concat (List.map (enum_value_triples (enum_name t)) (enum_values t)).

Definition extract_triples (e : RdfSchemaExtract) : list Triple :=
  concat (List.map (container_triples (s2dm "ObjectType")) (object_types e))
  ++ concat (List.map (container_triples (s2dm "InterfaceType")) (interface_types e))
  ++ concat (List.map (container_triples (s2dm "InputObjectType"))
               (input_object_types e))
  ++ concat (List.map union_triples (union_types e))
  ++ concat (List.map enum_triples (enum_types e)).

End triples.

End graph.

(** Without a [directive_triple_handler]; the prefix is bound and names no
    triple. *)
Definition materialize_schema_to_rdf
    (get_all_named_types : graphql.GraphQLSchema -> list graphql.GraphQLNamedType)
    (is_introspection_or_root_type : string -> bool)
    (schema : graphql.GraphQLSchema) (namespace prefix language : string)
    : pyresult (field.KeyError + Exn) Graph :=
  match extract_schema_for_rdf get_all_named_types is_introspection_or_root_type
          schema with
  | Ok extract =>
      match materialize_extract namespace language extract with
      | Ok graph => Ok graph
      | Raise e => Raise (inr e)
      end
  | Raise e => Raise (inl e)
  end.

End terms.

(** The names of the concepts of an extract: its types, the fields
    [Type.field] of its containers and the values [Enum.VALUE] of its
    enums. *)
Definition concept_names (e : RdfSchemaExtract) : list string :=
  extracted_type_names e
  ++ concat (List.map (fun c => List.map field_fqn (container_fields c)) (containers e))
  ++ concat (List.map (fun t => List.map (fun v => enum_name t +:+ "." +:+ v)
                                  (enum_values t))
               (enum_types e)).

(** Terms as strings, for the examples: an IRI is written out, a literal
    is its text and language tag.  A tag with a space in it is refused, an
    empty one is no tag. *)
Definition iri (namespace name : string) : string := namespace +:+ name.

Definition tagged (text language : string) : pyresult unit string :=
  if pystr.contains language " " then Raise tt
  else if pystr.truthy language then Ok (text +:+ "@" +:+ language)
  else Ok text.

Definition cabin_extract : RdfSchemaExtract :=
  mkExtract
    [mkContainer "Cabin" "The cabin."
       [mkFieldInfo "Cabin.doors" "Door" "list";
        mkFieldInfo "Cabin.seats" "Int" "nonNull"]]
    [] [] []
    [mkEnum "Side" EmptyString ["LEFT"; "RIGHT"]].

End materializer.

(** * Properties *)

(** ** Strings *)

Lemma append_nil_l (r : string) : EmptyString +:+ r = r.
Proof. reflexivity. Qed.

Lemma append_cons (c : ascii) (s r : string) :
  String c s +:+ r = String c (s +:+ r).
Proof. reflexivity. Qed.

Lemma append_assoc (a b c : string) : (a +:+ b) +:+ c = a +:+ (b +:+ c).
Proof.
  induction a as [|x a IH]; [reflexivity|]. by rewrite !append_cons, IH.
Qed.

Lemma startswith_append (s r : string) : pystr.startswith (s +:+ r) s = true.
Proof.
  induction s as [|c s IH]; [rewrite append_nil_l; by destruct r|].
  rewrite append_cons. simpl. by rewrite decide_True.
Qed.

Lemma split_nonempty (sep : ascii) (s : string) : pystr.split sep s <> [].
Proof.
  destruct s as [|c s]; simpl; [discriminate|].
  destruct (decide (c = sep)); [discriminate|].
  destruct (pystr.split sep s); discriminate.
Qed.

Lemma join_cons_cons (sep x y : string) (l : list string) :
  pystr.join sep (x :: y :: l) = x +:+ sep +:+ pystr.join sep (y :: l).
Proof. reflexivity. Qed.

(** Splitting at a character and joining with it again gives the string
    back. *)
Lemma join_split (sep : ascii) (s : string) :
  pystr.join (String sep EmptyString) (pystr.split sep s) = s.
Proof.
  induction s as [|c s IH]; [reflexivity|]. simpl.
  destruct (decide (c = sep)) as [->|Hne].
  - pose proof (split_nonempty sep s) as Hn.
    destruct (pystr.split sep s) as [|h t]; [done|].
    rewrite join_cons_cons, append_nil_l, append_cons, append_nil_l. by rewrite IH.
  - pose proof (split_nonempty sep s) as Hn.
    destruct (pystr.split sep s) as [|h t]; [done|].
    destruct t as [|h' t].
    + simpl in *. by rewrite IH.
    + rewrite join_cons_cons in *. rewrite append_cons. by rewrite IH.
Qed.



(** ** Field shapes *)

Lemma shape_of_nesting_inj p q :
  field.shape_of_nesting p = field.shape_of_nesting q -> p = q.
Proof.
  destruct p as [[] [[]|]], q as [[] [[]|]]; simpl; congruence.
Qed.

Lemma get_field_case_nesting f :
  field.get_field_case f
  = field.shape_of_nesting (field.nesting_pattern (graphql.type f)).
Proof.
  destruct f as [t a]; unfold field.get_field_case, field.nesting_pattern; simpl.
  destruct t as [n|e|[n|e|t']]; simpl; try reflexivity;
    destruct (graphql.is_non_null_type e); reflexivity.
Qed.

Lemma nesting_pattern_listed p : In p field.nesting_patterns.
Proof. destruct p as [[] [[]|]]; simpl; tauto. Qed.

(** C2.  The base classifier is a total function of the type expression
    that looks, in this order, at the outer non-null wrapper, at the list
    wrapper below it and at the non-null wrapper of the list's element:
    it is the composition of [nesting_pattern] with [shape_of_nesting].
    There are exactly six nesting patterns and exactly six base shapes,
    [shape_of_nesting] maps the former one-to-one onto the latter, every
    base shape is the class of a legal type expression, and two fields get
    the same shape exactly when their types have the same nesting. *)
Theorem get_field_case_total_bijective :
  (forall f, field.get_field_case f
             = field.shape_of_nesting (field.nesting_pattern (graphql.type f)))
  /\ (forall p, In p field.nesting_patterns)
  /\ NoDup field.nesting_patterns
  /\ NoDup field.base_shapes
  /\ List.map field.shape_of_nesting field.nesting_patterns = field.base_shapes
  /\ (forall p q, field.shape_of_nesting p = field.shape_of_nesting q -> p = q)
  /\ (forall f, In (field.get_field_case f) field.base_shapes)
  /\ (forall c, In c field.base_shapes ->
        exists t, graphql.legal t = true
                  /\ forall a, field.get_field_case (graphql.mkField t a) = c)
  /\ (forall f g, field.get_field_case f = field.get_field_case g
                  <-> field.nesting_pattern (graphql.type f)
                      = field.nesting_pattern (graphql.type g)).
Proof.
  split; [exact get_field_case_nesting|].
  split; [exact nesting_pattern_listed|].
  split; [compute_done|].
  split; [compute_done|].
  split; [reflexivity|].
  split; [exact shape_of_nesting_inj|].
  split.
  { intros f. rewrite get_field_case_nesting.
    destruct (field.nesting_pattern (graphql.type f)) as [[] [[]|]]; simpl; tauto. }
  split.
  { intros c Hc. simpl in Hc.
    pose (n := graphql.GraphQLNamed "T").
    destruct Hc as [<-|[<-|[<-|[<-|[<-|[<-|[]]]]]]].
    - exists n; split; [reflexivity|intros; reflexivity].
    - exists (graphql.GraphQLNonNull n); split; [reflexivity|intros; reflexivity].
    - exists (graphql.GraphQLList n); split; [reflexivity|intros; reflexivity].
    - exists (graphql.GraphQLNonNull (graphql.GraphQLList n));
        split; [reflexivity|intros; reflexivity].
    - exists (graphql.GraphQLList (graphql.GraphQLNonNull n));
        split; [reflexivity|intros; reflexivity].
    - exists (graphql.GraphQLNonNull (graphql.GraphQLList (graphql.GraphQLNonNull n)));
        split; [reflexivity|intros; reflexivity]. }
  intros f g. rewrite !get_field_case_nesting. split.
  - apply shape_of_nesting_inj.
  - intros ->. reflexivity.
Qed.

(** [has_given_directive] tells whether the element carries the
    directive. *)
Lemma has_given_directive_carries (f : graphql.GraphQLField) (name : string) :
  directive.has_given_directive f name = true <-> spec.carries f name.
Proof.
  unfold directive.has_given_directive, spec.carries.
  destruct (graphql.ast_node f) as [node|].
  - rewrite existsb_exists. split.
    + intros (d & Hd & Hn%bool_decide_eq_true). by exists node, d.
    + intros (node' & d & [= <-] & Hd & Hn). exists d.
      split; [exact Hd|by apply bool_decide_eq_true].
  - split; [discriminate|]. by intros (node & d & [=] & _).
Qed.

(** C3.  For a field on whose definition the directive [@noDuplicates] is
    written, the extended classifier turns the base shape [LIST] into [SET]
    and [LIST_NON_NULL] into [SET_NON_NULL] and raises for each of the four
    other base shapes; for a field without that directive (whatever other
    directives it has, and also without an AST node) it returns the base
    shape. *)
Theorem get_field_case_extended_no_duplicates (f : graphql.GraphQLField) :
  (spec.carries f "noDuplicates" ->
     (field.get_field_case f = field.LIST ->
        field.get_field_case_extended f = Ok field.SET)
     /\ (field.get_field_case f = field.LIST_NON_NULL ->
        field.get_field_case_extended f = Ok field.SET_NON_NULL)
     /\ (field.get_field_case f <> field.LIST ->
         field.get_field_case f <> field.LIST_NON_NULL ->
        field.get_field_case_extended f = Raise (field.WrongModifiers f)))
  /\ (~ spec.carries f "noDuplicates" ->
        field.get_field_case_extended f = Ok (field.get_field_case f)).
Proof.
  unfold field.get_field_case_extended. split.
  - intros Hc%has_given_directive_carries. rewrite Hc. repeat split.
    + intros ->. reflexivity.
    + intros ->. reflexivity.
    + intros H1 H2. repeat case_decide; congruence.
  - intros Hn.
    destruct (directive.has_given_directive f "noDuplicates") eqn:E;
      [|reflexivity].
    by apply has_given_directive_carries in E.
Qed.

(** A field of type [[T]], one of type [[T!]] and one of type [T!], each
    annotated with [@noDuplicates]; a field of type [[T]] without an AST
    node, and one annotated with [@deprecated] only. *)
Lemma get_field_case_extended_no_duplicates_witness :
  field.get_field_case_extended spec.set_field = Ok field.SET
  /\ field.get_field_case_extended spec.set_non_null_field = Ok field.SET_NON_NULL
  /\ field.get_field_case_extended spec.wrong_field
     = Raise (field.WrongModifiers spec.wrong_field)
  /\ field.get_field_case_extended spec.list_field = Ok field.LIST
  /\ field.get_field_case_extended spec.deprecated_list_field = Ok field.LIST.
Proof.
  assert (forall t, spec.carries (graphql.mkField t spec.no_duplicates) "noDuplicates")
    as Hc.
  { intros t. exists (graphql.mkNode [graphql.mkDirective "noDuplicates" []]),
      (graphql.mkDirective "noDuplicates" []).
    split; [reflexivity|]. split; [by left|reflexivity]. }
  split; [|split; [|split; [|split]]].
  - exact (proj1 (proj1 (get_field_case_extended_no_duplicates spec.set_field)
                    (Hc _)) eq_refl).
  - exact (proj1 (proj2 (proj1 (get_field_case_extended_no_duplicates
                                  spec.set_non_null_field) (Hc _))) eq_refl).
  - apply (proj2 (proj2 (proj1 (get_field_case_extended_no_duplicates
                                  spec.wrong_field) (Hc _)))); discriminate.
  - apply (proj2 (get_field_case_extended_no_duplicates spec.list_field)).
    intros (node & d & H & _). discriminate H.
  - apply (proj2 (get_field_case_extended_no_duplicates spec.deprecated_list_field)).
    intros (node & d & [= <-] & [<-|[]] & H). discriminate H.
Defined.

(** C5.  The lookup in [FIELD_CASE_TO_TYPE_WRAPPER_PATTERN] succeeds for
    each of the eight shapes, with a result among the six tags; every tag is
    the image of a shape; [SET] goes to [list] and [SET_NON_NULL] to
    [listOfNonNull]; each base shape goes to its own tag, and no two base
    shapes share one. *)
Theorem field_case_to_type_wrapper_pattern_total_onto :
  (forall c, exists s, field.field_case_to_type_wrapper_pattern c = Ok s
                       /\ In s spec.wrapper_patterns)
  /\ (forall s, In s spec.wrapper_patterns ->
        exists c, In c field.base_shapes
                  /\ field.field_case_to_type_wrapper_pattern c = Ok s)
  /\ field.field_case_to_type_wrapper_pattern field.SET = Ok "list"
  /\ field.field_case_to_type_wrapper_pattern field.SET_NON_NULL = Ok "listOfNonNull"
  /\ List.map field.field_case_to_type_wrapper_pattern field.base_shapes
     = List.map Ok ["bare"; "nonNull"; "list"; "nonNullList"; "listOfNonNull";
                    "nonNullListOfNonNull"]
  /\ (forall c d, In c field.base_shapes -> In d field.base_shapes ->
        field.field_case_to_type_wrapper_pattern c
        = field.field_case_to_type_wrapper_pattern d -> c = d).
Proof.
  split.
  { intros c. destruct c; eexists; (split; [reflexivity|simpl; tauto]). }
  split.
  { intros s Hs. simpl in Hs.
    destruct Hs as [<-|[<-|[<-|[<-|[<-|[<-|[]]]]]]].
    - exists field.DEFAULT; simpl; tauto.
    - exists field.NON_NULL; simpl; tauto.
    - exists field.LIST; simpl; tauto.
    - exists field.LIST_NON_NULL; simpl; tauto.
    - exists field.NON_NULL_LIST; simpl; tauto.
    - exists field.NON_NULL_LIST_NON_NULL; simpl; tauto. }
  split; [reflexivity|]. split; [reflexivity|]. split; [reflexivity|].
  intros c d Hc Hd. simpl in Hc, Hd.
  destruct Hc as [<-|[<-|[<-|[<-|[<-|[<-|[]]]]]]];
    destruct Hd as [<-|[<-|[<-|[<-|[<-|[<-|[]]]]]]];
    first [reflexivity | (intros H; vm_compute in H; discriminate H)].
Qed.

(** C6, as stated, fails: the list-cardinality range of the shape
    [DEFAULT] (and of [NON_NULL]) has no bounds at all; it is neither 0/1
    nor 1/1. *)
Lemma default_list_cardinality_unbounded :
  field.list_cardinality (field.value field.DEFAULT) = field.mkCardinality None None
  /\ spec.is_01_or_11 (field.list_cardinality (field.value field.DEFAULT)) = false
  /\ spec.is_01_or_11 (field.list_cardinality (field.value field.NON_NULL)) = false.
Proof. repeat split. Qed.

(** C6, amended.  The eight members of [FieldCase] are pairwise distinct
    values.  Each carries a value-cardinality range; each of the six
    shapes with a list wrapper carries a list-cardinality range that is 0/1
    or 1/1 (1/1 exactly for the two shapes whose list is non-null), and the
    two shapes without a list wrapper carry a list-cardinality range without
    bounds. *)
Theorem field_case_cardinalities :
  NoDup (List.map field.value field.all_field_cases)
  /\ (forall c, In c field.all_field_cases)
  /\ (forall c, spec.is_value_range (field.value_cardinality (field.value c)) = true)
  /\ (forall c, spec.is_list_shape c = true ->
        spec.is_01_or_11 (field.list_cardinality (field.value c)) = true)
  /\ (forall c, field.list_cardinality (field.value c) = field.mkCardinality (Some 1) (Some 1)
                <-> c = field.NON_NULL_LIST \/ c = field.NON_NULL_LIST_NON_NULL)
  /\ (forall c, spec.is_list_shape c = false ->
        field.list_cardinality (field.value c) = field.mkCardinality None None).
Proof.
  split; [compute_done|].
  split; [intros []; simpl; tauto|].
  split; [intros []; reflexivity|].
  split; [intros [] H; try discriminate H; reflexivity|].
  split.
  { intros []; simpl; split; intros H; try discriminate H;
      try (destruct H as [H|H]; discriminate H); tauto. }
  intros [] H; try discriminate H; reflexivity.
Qed.

Lemma field_case_cardinalities_witness :
  spec.is_01_or_11 (field.list_cardinality (field.value field.SET)) = true
  /\ field.list_cardinality (field.value field.NON_NULL) = field.mkCardinality None None.
Proof.
  split.
  - apply (proj1 (proj2 (proj2 (proj2 field_case_cardinalities)))). reflexivity.
  - apply (proj2 (proj2 (proj2 (proj2 (proj2 field_case_cardinalities))))). reflexivity.
Defined.

(** ** The command [registry id] *)

Section export_id_facts.
Context {JsonValue DiffChange VariantIDFile Exn : Type}.
Variable load_schema : list pathlib.Path -> pyresult Exn graphql.GraphQLSchema.
Variable json_load : pathlib.Path -> pyresult string (cli.Json JsonValue).
Variable model_validate : JsonValue -> pyresult string DiffChange.
Variable IDExporter_run :
  cli.IDExporter DiffChange -> list pathlib.Path * pyresult Exn VariantIDFile.
Variable path_str : pathlib.Path -> string.

Local Abbreviation export_id :=
  (cli.export_id load_schema json_load model_validate IDExporter_run path_str).

(** C1.  When a previous-IDs path is given and no diff file is, the command
    ends with a non-zero exit status, has written no file and has run no
    variant computation, whatever the other arguments and the world it
    starts in.  Either the schema was composed, and then the command logged
    the error that the diff file is required (and nothing else) and called
    [sys.exit(1)]; or composing the schema raised, and that exception ended
    the command, with nothing logged. *)
Theorem export_id_requires_diff schemas output previous_ids version_tag
    (w : cli.World DiffChange VariantIDFile) :
  let '(outcome, w') := export_id schemas output (Some previous_ids) None version_tag w in
  cli.exit_code outcome <> 0
  /\ cli.files_written w' = cli.files_written w
  /\ cli.exporter_runs w' = cli.exporter_runs w
  /\ ((exists s, load_schema schemas = Ok s)
      /\ outcome = cli.SystemExit 1
      /\ cli.log w' = cli.log w ++ [cli.LogError cli.DIFF_REQUIRED]
      \/ (exists e, load_schema schemas = Raise e
                    /\ outcome = cli.Uncaught (cli.CollaboratorError e))
         /\ cli.log w' = cli.log w).
Proof.
  unfold export_id, cli.export_id, cli.bind, cli.call_load_schema.
  destruct (load_schema schemas) as [s|e]; simpl.
  - repeat split; try discriminate. left. repeat split. by exists s.
  - repeat split; try discriminate. right. repeat split. by exists e.
Qed.

End export_id_facts.

(** With both files the sample run computes the variants and writes the
    output file under its suffixed name; without the diff file it stops
    before that. *)
Example export_id_sample_runs :
  cli.export_id spec_cli.load_ok spec_cli.json_ok spec_cli.validate_ok
    spec_cli.run_writes_output spec_cli.path_str
    [] (Some spec_cli.ids_json) (Some spec_cli.previous_json)
    (Some spec_cli.diff_json) "v1" spec_cli.empty_world
  = (cli.Returned tt,
     cli.mkWorld
       [cli.LogRule "Variant IDs"; cli.LogPrintDict "ids"]
       [pathlib.mkPath ["out"] "ids_v1.json"]
       [cli.mkIDExporter (graphql.mkSchema []) "v1"
          (Some (pathlib.mkPath ["out"] "ids_v1.json"))
          (Some spec_cli.previous_json) (Some [tt])])
  /\ cli.export_id spec_cli.load_ok spec_cli.json_ok spec_cli.validate_ok
       spec_cli.run_writes_output spec_cli.path_str
       [] (Some spec_cli.ids_json) (Some spec_cli.previous_json)
       None "v1" spec_cli.empty_world
     = (cli.SystemExit 1,
        cli.mkWorld [cli.LogError cli.DIFF_REQUIRED] [] []).
Proof. split; reflexivity. Qed.

(** ** Directives *)

Section directive_facts.
Variable print_string : string -> bool -> string.

Local Abbreviation format := (directive.format_directive_from_ast print_string).

Local Abbreviation custom := spec_directive.custom.
Local Abbreviation rendered_custom := (spec_directive.rendered_custom print_string).

Lemma format_builtin d :
  graphql.name_value d = "deprecated" \/ graphql.name_value d = "specifiedBy" ->
  format d = EmptyString.
Proof.
  unfold format, directive.format_directive_from_ast.
  intros [-> | ->]; reflexivity.
Qed.

Lemma format_custom d :
  custom d ->
  format d
  = String "@" (graphql.name_value d +:+
      match graphql.arguments d with
      | [] => EmptyString
      | args =>
          "(" +:+ pystr.join ", "
                    (List.map (directive.format_argument print_string) args) +:+ ")"
      end).
Proof.
  intros [H1 H2]. unfold format, directive.format_directive_from_ast.
  rewrite !bool_decide_eq_false_2 by assumption. reflexivity.
Qed.

Lemma format_empty_iff d : format d = EmptyString <-> ~ custom d.
Proof.
  split.
  - intros He Hc. rewrite (format_custom _ Hc) in He. discriminate He.
  - intros Hn. apply format_builtin.
    destruct (decide (graphql.name_value d = "deprecated")) as [|H1]; [by left|].
    destruct (decide (graphql.name_value d = "specifiedBy")) as [|H2]; [by right|].
    destruct Hn. by split.
Qed.

Lemma directive_strings_of_filter ds :
  directive.directive_strings_of print_string ds
  = List.map format (List.filter (fun d => pystr.truthy (format d)) ds).
Proof.
  induction ds as [|d ds IH]; simpl; [reflexivity|].
  fold (format d). destruct (pystr.truthy (format d)); simpl; by rewrite IH.
Qed.

Lemma truthy_format d : pystr.truthy (format d) = true <-> custom d.
Proof.
  split.
  - intros Ht.
    destruct (decide (graphql.name_value d = "deprecated")) as [H1|H1];
      [rewrite format_builtin in Ht by (by left); discriminate Ht|].
    destruct (decide (graphql.name_value d = "specifiedBy")) as [H2|H2];
      [rewrite format_builtin in Ht by (by right); discriminate Ht|].
    by split.
  - intros Hc. rewrite (format_custom _ Hc). reflexivity.
Qed.

(** The strings recorded for an element are the renderings of its custom
    directives. *)
Lemma directive_strings_of_In ds s :
  In s (directive.directive_strings_of print_string ds)
  <-> exists d, In d ds /\ custom d /\ s = format d.
Proof.
  rewrite directive_strings_of_filter, in_map_iff. split.
  - intros (d & <- & Hd). apply filter_In in Hd as [Hd Ht].
    exists d. by rewrite <- truthy_format.
  - intros (d & Hd & Hc & ->). exists d. split; [reflexivity|].
    apply filter_In. by rewrite truthy_format.
Qed.

Lemma get_directive_strings_rendered node :
  rendered_custom (directive.get_directive_strings print_string node).
Proof.
  apply List.Forall_forall. intros s Hs. destruct node as [n|]; [|destruct Hs].
  apply directive_strings_of_In in Hs as (d & _ & Hc & ->). eauto.
Qed.

Lemma record_directives_rendered (k : directive.Key)
    (node : option graphql.DefinitionNode) (m : gmap directive.Key (list string)) :
  map_Forall (fun _ v => rendered_custom v) m ->
  map_Forall (fun _ v => rendered_custom v)
    (directive.record_directives print_string k node m).
Proof.
  intros Hm. unfold directive.record_directives.
  destruct (directive.has_directives node); [|assumption].
  pose proof (get_directive_strings_rendered node) as Hr.
  destruct (directive.get_directive_strings print_string node) eqn:E; [assumption|].
  by apply map_Forall_insert_2.
Qed.

Lemma record_fields_rendered (tn : string)
    (fs : list (string * graphql.GraphQLField))
    (m : gmap directive.Key (list string)) :
  map_Forall (fun _ v => rendered_custom v) m ->
  map_Forall (fun _ v => rendered_custom v)
    (directive.record_fields print_string tn fs m).
Proof.
  unfold directive.record_fields. revert m.
  induction fs as [|f fs IH]; intros m Hm; simpl; [assumption|].
  apply IH. by apply record_directives_rendered.
Qed.

Lemma record_enum_values_rendered (tn : string)
    (vs : list (string * graphql.GraphQLEnumValue))
    (m : gmap directive.Key (list string)) :
  map_Forall (fun _ v => rendered_custom v) m ->
  map_Forall (fun _ v => rendered_custom v)
    (directive.record_enum_values print_string tn vs m).
Proof.
  unfold directive.record_enum_values. revert m.
  induction vs as [|v vs IH]; intros m Hm; simpl; [assumption|].
  apply IH. by apply record_directives_rendered.
Qed.

Lemma record_type_rendered (item : string * graphql.GraphQLNamedType)
    (m : gmap directive.Key (list string)) :
  map_Forall (fun _ v => rendered_custom v) m ->
  map_Forall (fun _ v => rendered_custom v)
    (directive.record_type print_string m item).
Proof.
  intros Hm. destruct item as [tn t]. unfold directive.record_type.
  destruct (pystr.startswith tn "__" || negb (directive.is_directive_related t));
    [assumption|].
  assert (map_Forall (fun _ v => rendered_custom v)
            (directive.record_directives print_string (inl tn)
               (graphql.type_ast_node t) m)) as H1
    by by apply record_directives_rendered.
  destruct t; simpl;
    auto using record_fields_rendered, record_enum_values_rendered.
Qed.

Lemma build_directive_map_rendered schema :
  map_Forall (fun _ v => rendered_custom v)
    (directive.build_directive_map print_string schema).
Proof.
  unfold directive.build_directive_map.
  assert (forall l (m : gmap directive.Key (list string)),
            map_Forall (fun _ v => rendered_custom v) m ->
            map_Forall (fun _ v => rendered_custom v)
              (fold_left (directive.record_type print_string) l m)) as H.
  { induction l as [|x l IH]; intros m Hm; simpl; [assumption|].
    apply IH. by apply record_type_rendered. }
  apply H. apply map_Forall_empty.
Qed.

(** An element with a custom directive gets an entry that holds the
    rendering of the directive. *)
Lemma record_directives_records (k : directive.Key) (n : graphql.DefinitionNode)
    (d : graphql.DirectiveNode) (m : gmap directive.Key (list string)) :
  In d (graphql.directives n) -> custom d ->
  exists strs, directive.record_directives print_string k (Some n) m !! k = Some strs
               /\ In (format d) strs.
Proof.
  intros Hd Hc. unfold directive.record_directives, directive.has_directives.
  destruct (graphql.directives n) as [|d0 ds] eqn:E; [destruct Hd|].
  assert (In (format d) (directive.get_directive_strings print_string (Some n))) as Hin.
  { simpl. rewrite E. apply directive_strings_of_In. eauto. }
  destruct (directive.get_directive_strings print_string (Some n)) as [|s strs];
    [destruct Hin|].
  exists (s :: strs). by rewrite lookup_insert_eq.
Qed.

Lemma record_directives_other (k k' : directive.Key)
    (node : option graphql.DefinitionNode) (m : gmap directive.Key (list string)) :
  k <> k' -> directive.record_directives print_string k' node m !! k = m !! k.
Proof.
  intros Hne. unfold directive.record_directives.
  destruct (directive.has_directives node); [|reflexivity].
  destruct (directive.get_directive_strings print_string node); [reflexivity|].
  by rewrite lookup_insert_ne.
Qed.

(** The loops over the fields and over the enum values of a type have one
    shape: a fold that records the directives of every member. *)
Section members.
Context {A : Type}.
Variable node_of : A -> option graphql.DefinitionNode.
Variable tn : string.

Local Abbreviation record_members :=
  (fold_left
     (fun (m : gmap directive.Key (list string)) (x : string * A) =>
        directive.record_directives print_string (inr (tn, x.1)) (node_of x.2) m)).

Lemma record_members_other (k : directive.Key) (l : list (string * A))
    (m : gmap directive.Key (list string)) :
  (forall x, In x l -> k <> inr (tn, x.1)) ->
  record_members l m !! k = m !! k.
Proof.
  revert m. induction l as [|x l IH]; intros m Hk; [reflexivity|]. simpl.
  rewrite IH by (intros y Hy; apply Hk; by right).
  apply record_directives_other, Hk. by left.
Qed.

Lemma record_members_records (l : list (string * A)) (name : string) (x : A)
    (n : graphql.DefinitionNode) (d : graphql.DirectiveNode)
    (m : gmap directive.Key (list string)) :
  List.NoDup (List.map fst l) -> In (name, x) l -> node_of x = Some n ->
  In d (graphql.directives n) -> spec_directive.custom d ->
  exists strs, record_members l m !! inr (tn, name) = Some strs
               /\ In (format d) strs.
Proof.
  revert m. induction l as [|y l IH]; intros m Hnd Hin Hn Hd Hc; [destruct Hin|].
  simpl in Hnd. apply List.NoDup_cons_iff in Hnd as [Hy Hnd].
  destruct Hin as [->|Hin]; simpl.
  - rewrite record_members_other.
    + rewrite Hn. by apply record_directives_records.
    + intros z Hz [= Hzn]. apply Hy. simpl. rewrite Hzn.
      apply (in_map fst l z Hz).
  - by apply IH.
Qed.

End members.

Lemma record_type_other (k : directive.Key) (item : string * graphql.GraphQLNamedType)
    (m : gmap directive.Key (list string)) :
  spec_directive.key_type k <> item.1 ->
  directive.record_type print_string m item !! k = m !! k.
Proof.
  destruct item as [tn t]. simpl. intros Hk. unfold directive.record_type.
  destruct (pystr.startswith tn "__" || negb (directive.is_directive_related t));
    [reflexivity|].
  assert (k <> inl tn) as H1 by (intros ->; by apply Hk).
  assert (forall x : string, k <> inr (tn, x)) as H2 by (intros x ->; by apply Hk).
  destruct t; simpl;
    unfold directive.record_fields, directive.record_enum_values;
    rewrite ?record_members_other by (intros; apply H2);
    by apply record_directives_other.
Qed.

Lemma record_types_other (k : directive.Key)
    (l : list (string * graphql.GraphQLNamedType))
    (m : gmap directive.Key (list string)) :
  ~ In (spec_directive.key_type k) (List.map fst l) ->
  fold_left (directive.record_type print_string) l m !! k = m !! k.
Proof.
  revert m. induction l as [|x l IH]; intros m Hk; [reflexivity|]. simpl.
  rewrite IH by (intros H; apply Hk; by right).
  apply record_type_other. intros H. apply Hk. by left.
Qed.

(** What one iteration records for the type itself, for one of its fields
    and for one of its enum values. *)
Lemma record_type_records (tn : string) (t : graphql.GraphQLNamedType)
    (m : gmap directive.Key (list string)) (d : graphql.DirectiveNode) :
  pystr.startswith tn "__" = false -> spec_directive.custom d ->
  (forall n, graphql.type_ast_node t = Some n -> In d (graphql.directives n) ->
     exists strs, directive.record_type print_string m (tn, t) !! inl tn = Some strs
                  /\ In (format d) strs)
  /\ (forall fs name f n,
        graphql.type_fields t = Some fs -> List.NoDup (List.map fst fs) ->
        In (name, f) fs -> graphql.ast_node f = Some n ->
        In d (graphql.directives n) ->
        exists strs, directive.record_type print_string m (tn, t) !! inr (tn, name)
                     = Some strs
                     /\ In (format d) strs)
  /\ (forall nm ds vs a name v n,
        t = graphql.GraphQLEnumType nm ds vs a -> List.NoDup (List.map fst vs) ->
        In (name, v) vs -> graphql.value_ast_node v = Some n ->
        In d (graphql.directives n) ->
        exists strs, directive.record_type print_string m (tn, t) !! inr (tn, name)
                     = Some strs
                     /\ In (format d) strs).
Proof.
  intros Htn Hc. unfold directive.record_type. rewrite Htn.
  assert (directive.is_directive_related t = true) as -> by by destruct t.
  simpl. split; [|split].
  - intros n Hn Hd.
    destruct (record_directives_records (inl tn) n d m Hd Hc) as (strs & Hs & Hin).
    exists strs. split; [|assumption]. rewrite <- Hn in Hs.
    destruct t; simpl in *;
      unfold directive.record_fields, directive.record_enum_values;
      rewrite ?record_members_other by (intros; discriminate); exact Hs.
  - intros fs name f n Hfs Hnd Hin Hn Hd.
    destruct t; simpl in Hfs; try discriminate Hfs; injection Hfs as ->;
      simpl; unfold directive.record_fields;
      by eapply (record_members_records graphql.ast_node).
  - intros nm ds vs a name v n -> Hnd Hin Hn Hd. simpl.
    unfold directive.record_enum_values.
    by eapply (record_members_records graphql.value_ast_node).
Qed.

(** In a schema whose type map, field dicts and enum-value dicts have
    distinct keys (as Python dicts do), the directive map built for the schema
    holds, under the key of each type, field and enum value, the rendering
    of each of its custom directives. *)
Lemma build_directive_map_records (schema : graphql.GraphQLSchema) (tn : string)
    (t : graphql.GraphQLNamedType) (d : graphql.DirectiveNode) :
  List.NoDup (List.map fst (graphql.type_map schema)) ->
  In (tn, t) (graphql.type_map schema) ->
  pystr.startswith tn "__" = false -> spec_directive.custom d ->
  (forall n, graphql.type_ast_node t = Some n -> In d (graphql.directives n) ->
     exists strs, directive.build_directive_map print_string schema !! inl tn
                  = Some strs
                  /\ In (format d) strs)
  /\ (forall fs name f n,
        graphql.type_fields t = Some fs -> List.NoDup (List.map fst fs) ->
        In (name, f) fs -> graphql.ast_node f = Some n ->
        In d (graphql.directives n) ->
        exists strs, directive.build_directive_map print_string schema
                       !! inr (tn, name) = Some strs
                     /\ In (format d) strs)
  /\ (forall nm ds vs a name v n,
        t = graphql.GraphQLEnumType nm ds vs a -> List.NoDup (List.map fst vs) ->
        In (name, v) vs -> graphql.value_ast_node v = Some n ->
        In d (graphql.directives n) ->
        exists strs, directive.build_directive_map print_string schema
                       !! inr (tn, name) = Some strs
                     /\ In (format d) strs).
Proof.
  intros Hnd Hin Htn Hc. unfold directive.build_directive_map.
  apply in_split in Hin as (l1 & l2 & Hl). rewrite Hl in *.
  rewrite map_app in Hnd. simpl in Hnd. apply List.NoDup_remove_2 in Hnd.
  assert (~ In tn (List.map fst l2)) as H2
    by (intros H; apply Hnd, in_or_app; by right).
  rewrite fold_left_app. simpl.
  set (m1 := fold_left (directive.record_type print_string) l1 ∅).
  destruct (record_type_records tn t m1 d Htn Hc) as (R1 & R2 & R3).
  split; [|split].
  - intros n Hn Hd. rewrite record_types_other by exact H2.
    exact (R1 n Hn Hd).
  - intros fs name f n Hfs Hndf Hf Hn Hd.
    rewrite record_types_other by exact H2.
    exact (R2 fs name f n Hfs Hndf Hf Hn Hd).
  - intros nm ds vs a name v n Ht Hndv Hv Hn Hd.
    rewrite record_types_other by exact H2.
    exact (R3 nm ds vs a name v n Ht Hndv Hv Hn Hd).
Qed.

(** List and object values are printed in literal syntax. *)
Lemma print_ast_list_object :
  (forall vs, printer.print_ast print_string (graphql.ListValueNode vs)
              = "[" +:+ pystr.join ", " (List.map (printer.print_ast print_string) vs)
                +:+ "]")
  /\ (forall fs, printer.print_ast print_string (graphql.ObjectValueNode fs)
                 = "{" +:+ pystr.join ", "
                     (List.map (fun f => f.1 +:+ ": " +:+ printer.print_ast print_string f.2)
                        fs) +:+ "}").
Proof.
  split; [reflexivity|]. intros fs. simpl. do 3 f_equal.
  apply map_ext. by intros [n v].
Qed.

Lemma annotate_line_empty ct line :
  (directive.annotate_line ∅ ct line).2 = line.
Proof.
  unfold directive.annotate_line.
  destruct (directive.match_type_definition line) as [[kind tn]|].
  - unfold directive.annotate_type_line. rewrite lookup_empty.
    by destruct (bool_decide (pystr.strip line = "}")).
  - destruct ct as [ct|]; [|by destruct (bool_decide (pystr.strip line = "}"))].
    destruct (pystr.truthy ct); [|by destruct (bool_decide (pystr.strip line = "}"))].
    assert (forall m l, directive.annotate_member ∅ ct m l = l) as H.
    { intros [mn|] l; unfold directive.annotate_member; [|reflexivity].
      by rewrite lookup_empty. }
    rewrite !H. by destruct (bool_decide (pystr.strip line = "}")).
Qed.

Lemma annotate_lines_empty ct lines :
  directive.annotate_lines ∅ ct lines = lines.
Proof.
  revert ct. induction lines as [|line lines IH]; intros ct; [reflexivity|].
  simpl. pose proof (annotate_line_empty ct line) as H.
  destruct (directive.annotate_line ∅ ct line) as [ct' line']. simpl in H.
  by rewrite H, IH.
Qed.

Lemma truthy_format_builtin d :
  pystr.truthy (format d) = negb (spec_directive.builtin d).
Proof.
  unfold format, directive.format_directive_from_ast, spec_directive.builtin.
  destruct (bool_decide (graphql.name_value d = "deprecated")
            || bool_decide (graphql.name_value d = "specifiedBy"));
    reflexivity.
Qed.

(** The strings of an element are the renderings of its directives other
    than the built-in ones, in order. *)
Lemma directive_strings_of_other (n : graphql.DefinitionNode) :
  directive.directive_strings_of print_string (graphql.directives n)
  = List.map format (spec_directive.other_directives n).
Proof.
  rewrite directive_strings_of_filter. unfold spec_directive.other_directives.
  f_equal. apply filter_ext. intros d. apply truthy_format_builtin.
Qed.

Local Abbreviation recorded :=
  (fun (schema : graphql.GraphQLSchema) (k : directive.Key) (strs : list string) =>
     exists n, spec_directive.element_node schema k n
               /\ strs = List.map format (spec_directive.other_directives n)
               /\ strs <> []).

Lemma record_directives_recorded (schema : graphql.GraphQLSchema)
    (k : directive.Key) (node : option graphql.DefinitionNode)
    (m : gmap directive.Key (list string)) :
  (forall n, node = Some n -> spec_directive.element_node schema k n) ->
  map_Forall (recorded schema) m ->
  map_Forall (recorded schema) (directive.record_directives print_string k node m).
Proof.
  intros Hn Hm. unfold directive.record_directives.
  destruct (directive.has_directives node); [|assumption].
  destruct node as [n|]; [|assumption]. simpl.
  destruct (directive.directive_strings_of print_string (graphql.directives n))
    as [|s strs] eqn:E; [assumption|].
  apply map_Forall_insert_2; [|assumption].
  exists n. split; [by apply Hn|]. by rewrite <- directive_strings_of_other, E.
Qed.

Lemma record_fields_recorded (schema : graphql.GraphQLSchema) (tn : string)
    (t : graphql.GraphQLNamedType) (all fs : list (string * graphql.GraphQLField))
    (m : gmap directive.Key (list string)) :
  In (tn, t) (graphql.type_map schema) -> graphql.type_fields t = Some all ->
  (forall f, In f fs -> In f all) ->
  map_Forall (recorded schema) m ->
  map_Forall (recorded schema) (directive.record_fields print_string tn fs m).
Proof.
  intros Ht Hall. unfold directive.record_fields. revert m.
  induction fs as [|[name f] fs IH]; intros m Hfs Hm; simpl; [assumption|].
  apply IH; [intros g Hg; apply Hfs; by right|].
  apply record_directives_recorded; [|assumption].
  intros n Hn. exists t. split; [exact Ht|]. left. exists all, f.
  split; [exact Hall|]. split; [apply Hfs; by left|exact Hn].
Qed.

Lemma record_enum_values_recorded (schema : graphql.GraphQLSchema) (tn nm : string)
    (ds : option string) (all vs : list (string * graphql.GraphQLEnumValue))
    (a : option graphql.DefinitionNode) (m : gmap directive.Key (list string)) :
  In (tn, graphql.GraphQLEnumType nm ds all a) (graphql.type_map schema) ->
  (forall v, In v vs -> In v all) ->
  map_Forall (recorded schema) m ->
  map_Forall (recorded schema) (directive.record_enum_values print_string tn vs m).
Proof.
  intros Ht. unfold directive.record_enum_values. revert m.
  induction vs as [|[name v] vs IH]; intros m Hvs Hm; simpl; [assumption|].
  apply IH; [intros g Hg; apply Hvs; by right|].
  apply record_directives_recorded; [|assumption].
  intros n Hn. eexists. split; [exact Ht|]. right. exists nm, ds, all, a, v.
  split; [reflexivity|]. split; [apply Hvs; by left|exact Hn].
Qed.

Lemma record_type_recorded (schema : graphql.GraphQLSchema)
    (item : string * graphql.GraphQLNamedType)
    (m : gmap directive.Key (list string)) :
  In item (graphql.type_map schema) ->
  map_Forall (recorded schema) m ->
  map_Forall (recorded schema) (directive.record_type print_string m item).
Proof.
  intros Hi Hm. destruct item as [tn t]. unfold directive.record_type.
  destruct (pystr.startswith tn "__" || negb (directive.is_directive_related t));
    [assumption|].
  assert (map_Forall (recorded schema)
            (directive.record_directives print_string (inl tn)
               (graphql.type_ast_node t) m)) as H1.
  { apply record_directives_recorded; [|assumption].
    intros n Hn. by exists t. }
  destruct t as [n d fs a|n d fs a|n d fs a|n d ts a|n d vs a|n d a]; simpl;
    try assumption;
    try (by eapply (record_fields_recorded schema tn _ fs fs); eauto).
  by eapply (record_enum_values_recorded schema tn n d vs vs a); eauto.
Qed.

Lemma build_directive_map_recorded (schema : graphql.GraphQLSchema) :
  map_Forall (recorded schema) (directive.build_directive_map print_string schema).
Proof.
  unfold directive.build_directive_map.
  assert (forall l (m : gmap directive.Key (list string)),
            (forall item, In item l -> In item (graphql.type_map schema)) ->
            map_Forall (recorded schema) m ->
            map_Forall (recorded schema)
              (fold_left (directive.record_type print_string) l m)) as H.
  { induction l as [|x l IH]; intros m Hl Hm; simpl; [assumption|].
    apply IH; [intros item Hitem; apply Hl; by right|].
    apply record_type_recorded; [apply Hl; by left|assumption]. }
  apply H; [auto|apply map_Forall_empty].
Qed.

(** Erasing the built-in directives of an element changes nothing in what
    is recorded for it. *)
Lemma record_directives_without_builtin (k : directive.Key)
    (node : option graphql.DefinitionNode) (m : gmap directive.Key (list string)) :
  directive.record_directives print_string k
    (spec_directive.without_builtin_node node) m
  = directive.record_directives print_string k node m.
Proof.
  unfold directive.record_directives. destruct node as [n|]; [|reflexivity].
  simpl. rewrite (directive_strings_of_other n).
  rewrite directive_strings_of_filter. simpl.
  assert (List.filter (fun d => pystr.truthy (format d))
            (spec_directive.other_directives n)
          = spec_directive.other_directives n) as ->.
  { unfold spec_directive.other_directives.
    induction (graphql.directives n) as [|d ds IH]; [reflexivity|]. simpl.
    destruct (spec_directive.builtin d) eqn:E; simpl; [exact IH|].
    by rewrite truthy_format_builtin, E, IH. }
  unfold spec_directive.other_directives.
  destruct (graphql.directives n) as [|d ds]; [reflexivity|].
  destruct (List.filter (fun d0 => negb (spec_directive.builtin d0)) (d :: ds));
    reflexivity.
Qed.

Lemma record_fields_without_builtin (tn : string)
    (fs : list (string * graphql.GraphQLField)) (m : gmap directive.Key (list string)) :
  directive.record_fields print_string tn
    (List.map spec_directive.without_builtin_field fs) m
  = directive.record_fields print_string tn fs m.
Proof.
  unfold directive.record_fields. revert m.
  induction fs as [|f fs IH]; intros m; simpl; [reflexivity|].
  by rewrite record_directives_without_builtin, IH.
Qed.

Lemma record_enum_values_without_builtin (tn : string)
    (vs : list (string * graphql.GraphQLEnumValue))
    (m : gmap directive.Key (list string)) :
  directive.record_enum_values print_string tn
    (List.map spec_directive.without_builtin_value vs) m
  = directive.record_enum_values print_string tn vs m.
Proof.
  unfold directive.record_enum_values. revert m.
  induction vs as [|v vs IH]; intros m; simpl; [reflexivity|].
  by rewrite record_directives_without_builtin, IH.
Qed.

Lemma record_type_without_builtin (item : string * graphql.GraphQLNamedType)
    (m : gmap directive.Key (list string)) :
  directive.record_type print_string m
    (item.1, spec_directive.without_builtin_type item.2)
  = directive.record_type print_string m item.
Proof.
  destruct item as [tn t]. unfold directive.record_type.
  destruct t as [n d fs a|n d fs a|n d fs a|n d ts a|n d vs a|n d a]; simpl;
    destruct (pystr.startswith tn "__"); simpl; try reflexivity;
    rewrite ?record_directives_without_builtin, ?record_fields_without_builtin,
      ?record_enum_values_without_builtin; reflexivity.
Qed.

Lemma build_directive_map_without_builtin (schema : graphql.GraphQLSchema) :
  directive.build_directive_map print_string (spec_directive.without_builtin schema)
  = directive.build_directive_map print_string schema.
Proof.
  unfold directive.build_directive_map, spec_directive.without_builtin.
  cbn [graphql.type_map].
  generalize (∅ : gmap directive.Key (list string)).
  induction (graphql.type_map schema) as [|item l IH]; intros m;
    cbn [List.map fold_left]; [reflexivity|].
  by rewrite (record_type_without_builtin item m), IH.
Qed.

(** C10.  The formatter returns the empty string for a directive named
    [deprecated] or [specifiedBy], whatever its arguments.  Hence the list
    that [build_directive_map] stores under a key, for any schema, belongs to
    an element of the schema that the key names (a type, a field or an enum
    value) and holds the renderings of the directives of that element other
    than the built-in ones, in order, and nothing more: each string is the
    non-empty rendering [@name...] of a directive of the element whose name
    is neither [deprecated] nor [specifiedBy].  Erasing the built-in
    directives from the schema, whatever their arguments, changes neither
    the directive map nor the text that the markup pass returns; and with a
    map that has no entries the markup pass returns the printed schema as it
    is. *)
Theorem builtin_directives_never_recorded :
  (forall d, graphql.name_value d = "deprecated" \/ graphql.name_value d = "specifiedBy" ->
             directive.format_directive_from_ast print_string d = EmptyString)
  /\ (forall schema k strs,
        directive.build_directive_map print_string schema !! k = Some strs ->
        exists n,
          spec_directive.element_node schema k n
          /\ strs = List.map (directive.format_directive_from_ast print_string)
                      (spec_directive.other_directives n)
          /\ strs <> []
          /\ forall s, In s strs ->
               s <> EmptyString
               /\ exists d, In d (graphql.directives n)
                            /\ graphql.name_value d <> "deprecated"
                            /\ graphql.name_value d <> "specifiedBy"
                            /\ s = directive.format_directive_from_ast print_string d
                            /\ pystr.startswith s ("@" +:+ graphql.name_value d) = true)
  /\ (forall schema,
        directive.build_directive_map print_string
          (spec_directive.without_builtin schema)
        = directive.build_directive_map print_string schema)
  /\ (forall schema schema_str,
        directive.add_directives_to_schema schema_str
          (directive.build_directive_map print_string
             (spec_directive.without_builtin schema))
        = directive.add_directives_to_schema schema_str
            (directive.build_directive_map print_string schema))
  /\ (forall schema_str, directive.add_directives_to_schema schema_str ∅ = schema_str).
Proof.
  split; [exact format_builtin|].
  split; [|split; [exact build_directive_map_without_builtin|
           split; [intros; by rewrite build_directive_map_without_builtin|
                   intros schema_str; unfold directive.add_directives_to_schema;
                   rewrite annotate_lines_empty; apply join_split]]].
  intros schema k strs Hk.
  destruct (build_directive_map_recorded schema k strs Hk) as (n & Hn & Hs & Hne).
  exists n. split; [exact Hn|]. split; [exact Hs|]. split; [exact Hne|].
  intros s Hin. rewrite Hs in Hin. apply in_map_iff in Hin as (d & <- & Hd).
  unfold spec_directive.other_directives in Hd.
  apply filter_In in Hd as [Hd Hb]. apply negb_true_iff in Hb.
  unfold spec_directive.builtin in Hb. apply orb_false_iff in Hb as [H1 H2].
  apply bool_decide_eq_false in H1, H2.
  split.
  { intros He. apply format_empty_iff in He. apply He. by split. }
  exists d. repeat split; try assumption.
  fold (format d). rewrite (format_custom d (conj H1 H2)).
  apply (startswith_append (String "@" (graphql.name_value d))).
Qed.

End directive_facts.

(** The rendering that the test
    [test_compose_preserves_directive_with_list_arguments] expects. *)
Example format_directive_list_argument :
  directive.format_directive_from_ast printer.print_plain_string spec_directive.vspec
  = "@vspec(element: " +:+ spec_directive.quoted "UNIT"
    +:+ ", metadata: [{key: " +:+ spec_directive.quoted "unit"
    +:+ ", value: " +:+ spec_directive.quoted "mm" +:+ "}])".
Proof. reflexivity. Qed.

(** C4 fails on the code.  The directive map holds the rendering [@custom]
    of the custom directive of each sample, under the key of its element.
    The markup of the printed schema nevertheless returns the text
    unchanged (without [@custom]) for the deprecated enum value and for the
    field whose arguments are printed on lines of their own, while the same
    directive on a deprecated field is appended to the line of the field. *)
Theorem custom_directive_lost_in_markup :
  directive.build_directive_map printer.print_plain_string spec_directive.schema_enum
    = {[ inr ("E", "A") := ["@custom"] ]}
  /\ directive.add_directives_to_schema spec_directive.printed_enum
       (directive.build_directive_map printer.print_plain_string
          spec_directive.schema_enum)
     = spec_directive.printed_enum
  /\ pystr.contains spec_directive.printed_enum "@custom" = false
  /\ directive.build_directive_map printer.print_plain_string
       spec_directive.schema_field_arguments
     = {[ inr ("T", "f") := ["@custom"] ]}
  /\ directive.add_directives_to_schema spec_directive.printed_field_arguments
       (directive.build_directive_map printer.print_plain_string
          spec_directive.schema_field_arguments)
     = spec_directive.printed_field_arguments
  /\ pystr.contains spec_directive.printed_field_arguments "@custom" = false
  /\ directive.add_directives_to_schema spec_directive.printed_field_deprecated
       (directive.build_directive_map printer.print_plain_string
          spec_directive.schema_field_deprecated)
     = spec_directive.lines ["type T {"; "  f: Int @deprecated @custom"; "}"].
Proof. repeat split; vm_compute; reflexivity. Qed.

(** ** RDF extraction *)

Lemma field_case_to_type_wrapper_pattern_pattern_of f :
  field.field_case_to_type_wrapper_pattern (field.get_field_case f)
  = Ok (spec_rdf.pattern_of f).
Proof.
  unfold spec_rdf.pattern_of. by destruct (field.get_field_case f).
Qed.

Lemma extract_fields_total fs tn :
  rdf_materializer._extract_fields_from_container fs tn
  = Ok (List.map (spec_rdf.field_info tn) fs).
Proof.
  induction fs as [|[fname f] fs IH]; [reflexivity|]. simpl.
  unfold rdf_materializer.extract_field.
  rewrite field_case_to_type_wrapper_pattern_pattern_of, IH. reflexivity.
Qed.

Section extraction_facts.
Variable get_all_named_types : graphql.GraphQLSchema -> list graphql.GraphQLNamedType.
Variable excluded : string -> bool.

Lemma extract_named_type_spec acc nt :
  rdf_materializer.extract_named_type excluded acc nt
  = Ok (rdf_materializer.mkExtract
          (rdf_materializer.object_types acc
             ++ option_list (spec_rdf.object_of excluded nt))
          (rdf_materializer.interface_types acc
             ++ option_list (spec_rdf.interface_of excluded nt))
          (rdf_materializer.input_object_types acc
             ++ option_list (spec_rdf.input_object_of excluded nt))
          (rdf_materializer.union_types acc
             ++ option_list (spec_rdf.union_of excluded nt))
          (rdf_materializer.enum_types acc
             ++ option_list (spec_rdf.enum_of excluded nt))).
Proof.
  unfold rdf_materializer.extract_named_type.
  destruct acc as [o i io u en].
  destruct nt as [n d fs a|n d fs a|n d fs a|n d ts a|n d vs a|n d a]; simpl;
    destruct (excluded n); simpl; rewrite ?extract_fields_total, ?app_nil_r;
    reflexivity.
Qed.

Lemma omap_cons_app {A B} (f : A -> option B) (x : A) (l : list A) :
  omap f (x :: l) = option_list (f x) ++ omap f l.
Proof. simpl. by destruct (f x). Qed.

Lemma extract_loop_spec nts acc :
  rdf_materializer.extract_loop excluded acc nts
  = Ok (rdf_materializer.mkExtract
          (rdf_materializer.object_types acc ++ omap (spec_rdf.object_of excluded) nts)
          (rdf_materializer.interface_types acc
             ++ omap (spec_rdf.interface_of excluded) nts)
          (rdf_materializer.input_object_types acc
             ++ omap (spec_rdf.input_object_of excluded) nts)
          (rdf_materializer.union_types acc ++ omap (spec_rdf.union_of excluded) nts)
          (rdf_materializer.enum_types acc ++ omap (spec_rdf.enum_of excluded) nts)).
Proof.
  revert acc. induction nts as [|nt nts IH]; intros acc.
  - simpl. rewrite !app_nil_r. by destruct acc.
  - cbn [rdf_materializer.extract_loop]. rewrite extract_named_type_spec, IH.
    cbn [rdf_materializer.object_types rdf_materializer.interface_types
         rdf_materializer.input_object_types rdf_materializer.union_types
         rdf_materializer.enum_types].
    rewrite !omap_cons_app, <- !app_assoc. reflexivity.
Qed.

(** C7, amended.  The extraction returns (it does not raise).  Its five
    lists hold, in schema order, one entry for each object, interface,
    input-object, union and enum type that is not excluded as an
    introspection or root type: a container with one [Type.field] entry per
    field, a union with its members, an enum with its values.  A type is
    named in the extract exactly when it is such a type; excluded types and
    scalar types are not named, and every field of the extract belongs to a
    type that is not excluded. *)
Theorem extract_schema_for_rdf_concepts (schema : graphql.GraphQLSchema) :
  rdf_materializer.extract_schema_for_rdf get_all_named_types excluded schema
    = Ok (spec_rdf.extract_of excluded (get_all_named_types schema))
  /\ (forall n,
        In n (rdf_materializer.extracted_type_names
                (spec_rdf.extract_of excluded (get_all_named_types schema)))
        <-> exists nt, In nt (get_all_named_types schema)
                       /\ graphql.type_name nt = n
                       /\ excluded n = false
                       /\ spec_rdf.is_scalar nt = false)
  /\ (forall c,
        In c (rdf_materializer.containers
                (spec_rdf.extract_of excluded (get_all_named_types schema)))
        <-> exists nt fs, In nt (get_all_named_types schema)
                          /\ excluded (graphql.type_name nt) = false
                          /\ graphql.type_fields nt = Some fs
                          /\ c = spec_rdf.container_of (graphql.type_name nt)
                                   (graphql.type_description nt) fs).
Proof.
  split.
  { unfold rdf_materializer.extract_schema_for_rdf. by rewrite extract_loop_spec. }
  set (nts := get_all_named_types schema). split.
  - intros n. unfold rdf_materializer.extracted_type_names, spec_rdf.extract_of.
    cbn [rdf_materializer.object_types rdf_materializer.interface_types
         rdf_materializer.input_object_types rdf_materializer.union_types
         rdf_materializer.enum_types].
    rewrite !in_app_iff, !in_map_iff. split.
    + intros [H|[H|[H|[H|H]]]]; destruct H as (x & <- & Hx);
        apply list_elem_of_In, list_elem_of_omap in Hx as (nt & Hnt & Hx);
        apply list_elem_of_In in Hnt; exists nt;
        destruct nt as [m d fs a|m d fs a|m d fs a|m d ts a|m d vs a|m d a];
        simpl in Hx; try discriminate Hx;
        destruct (excluded m) eqn:E; try discriminate Hx;
        injection Hx as <-; simpl; auto.
    + intros (nt & Hnt & <- & He & Hs). apply list_elem_of_In in Hnt.
      destruct nt as [m d fs a|m d fs a|m d fs a|m d ts a|m d vs a|m d a];
        simpl in *; try discriminate Hs.
      * left. exists (spec_rdf.container_of m d fs). split; [reflexivity|].
        apply list_elem_of_In, list_elem_of_omap. eexists; split; [exact Hnt|].
        simpl. by rewrite He.
      * right; left. exists (spec_rdf.container_of m d fs). split; [reflexivity|].
        apply list_elem_of_In, list_elem_of_omap. eexists; split; [exact Hnt|].
        simpl. by rewrite He.
      * right; right; left. exists (spec_rdf.container_of m d fs).
        split; [reflexivity|].
        apply list_elem_of_In, list_elem_of_omap. eexists; split; [exact Hnt|].
        simpl. by rewrite He.
      * right; right; right; left.
        exists (rdf_materializer.mkUnion m (rdf_materializer._get_description d) ts).
        split; [reflexivity|].
        apply list_elem_of_In, list_elem_of_omap. eexists; split; [exact Hnt|].
        simpl. by rewrite He.
      * right; right; right; right.
        exists (rdf_materializer.mkEnum m (rdf_materializer._get_description d)
                  (List.map fst vs)).
        split; [reflexivity|].
        apply list_elem_of_In, list_elem_of_omap. eexists; split; [exact Hnt|].
        simpl. by rewrite He.
  - intros c. unfold rdf_materializer.containers, spec_rdf.extract_of.
    cbn [rdf_materializer.object_types rdf_materializer.interface_types
         rdf_materializer.input_object_types].
    rewrite !in_app_iff. split.
    + intros [H|[H|H]];
        apply list_elem_of_In, list_elem_of_omap in H as (nt & Hnt & Hx);
        apply list_elem_of_In in Hnt; exists nt;
        destruct nt as [m d fs a|m d fs a|m d fs a|m d ts a|m d vs a|m d a];
        simpl in Hx; try discriminate Hx;
        destruct (excluded m) eqn:E; try discriminate Hx;
        injection Hx as <-; exists fs; simpl; auto.
    + intros (nt & fs & Hnt & He & Hf & ->). apply list_elem_of_In in Hnt.
      destruct nt as [m d fs' a|m d fs' a|m d fs' a|m d ts a|m d vs a|m d a];
        simpl in *; try discriminate Hf; injection Hf as ->;
        [left | right; left | right; right];
        apply list_elem_of_In, list_elem_of_omap; (eexists; split; [exact Hnt|]);
        simpl; by rewrite He.
Qed.

End extraction_facts.

(** C7, as stated, fails: the custom scalar [DateTime] is a named type of
    the schema and neither an introspection type nor a root type, yet the
    extract names the type [T] only. *)
Lemma scalar_type_not_extracted :
  rdf_materializer.extract_schema_for_rdf spec_rdf.get_all_named_types
    spec_rdf.is_introspection_or_root_type spec_rdf.schema_with_scalar
  = Ok (rdf_materializer.mkExtract
          [rdf_materializer.mkContainer "T" EmptyString
             [rdf_materializer.mkFieldInfo "T.at" "DateTime" "bare"]]
          [] [] [] [])
  /\ rdf_materializer.extracted_type_names
       (spec_rdf.extract_of spec_rdf.is_introspection_or_root_type
          (spec_rdf.get_all_named_types spec_rdf.schema_with_scalar))
     = ["T"]
  /\ spec_rdf.is_introspection_or_root_type "DateTime" = false
  /\ In (graphql.GraphQLScalarType "DateTime" None None)
        (spec_rdf.get_all_named_types spec_rdf.schema_with_scalar).
Proof. repeat split. simpl. tauto. Qed.


Lemma truthy_append_r (a b : string) :
  pystr.truthy b = true -> pystr.truthy (a +:+ b) = true.
Proof. destruct a; [by rewrite append_nil_l|reflexivity]. Qed.

Lemma lstrip_fixed_append (r x : string) :
  pystr.truthy r = true -> pystr.lstrip r = r -> pystr.lstrip (r +:+ x) = r +:+ x.
Proof.
  destruct r as [|c r]; [discriminate|]. intros _ H. rewrite append_cons.
  simpl in *. destruct (pystr.isspace c) eqn:E; [|reflexivity].
  exfalso. assert (String.length (pystr.lstrip r) <= String.length r)%nat as Hl.
  { clear. induction r as [|c r IH]; simpl; [lia|].
    destruct (pystr.isspace c); simpl; lia. }
  rewrite H in Hl. simpl in Hl. lia.
Qed.

Lemma rstrip_append_fixed (a b : string) :
  pystr.truthy b = true -> pystr.rstrip b = b -> pystr.rstrip (a +:+ b) = a +:+ b.
Proof.
  intros Hb Hr. induction a as [|c a IH]; [by rewrite append_nil_l|].
  rewrite append_cons. simpl. rewrite IH, (truthy_append_r a b Hb).
  by rewrite andb_false_r.
Qed.

Lemma rstrip_append_newline (s : string) :
  pystr.rstrip (s +:+ spec_nt.newline) = pystr.rstrip s.
Proof.
  induction s as [|c s IH]; [reflexivity|].
  rewrite append_cons. simpl. by rewrite IH.
Qed.

Lemma contains_newline_cons (c : ascii) (x : string) :
  pystr.contains (String c x) spec_nt.newline
  = bool_decide (c = pystr.nl) || pystr.contains x spec_nt.newline.
Proof.
  change (pystr.contains (String c x) spec_nt.newline)
    with ((if decide (pystr.nl = c) then pystr.startswith x EmptyString else false)
          || pystr.contains x spec_nt.newline).
  f_equal. destruct (decide (pystr.nl = c)) as [<-|Hne].
  - rewrite bool_decide_eq_true_2 by reflexivity. by destruct x.
  - by rewrite bool_decide_eq_false_2 by congruence.
Qed.

Lemma split_cons (c : ascii) (s : string) :
  pystr.split pystr.nl (String c s)
  = if decide (c = pystr.nl) then EmptyString :: pystr.split pystr.nl s
    else match pystr.split pystr.nl s with
         | h :: t => String c h :: t
         | [] => [String c EmptyString]
         end.
Proof. reflexivity. Qed.

(** A string without a newline is a single line. *)
Lemma split_no_newline (x : string) :
  pystr.contains x spec_nt.newline = false -> pystr.split pystr.nl x = [x].
Proof.
  induction x as [|c x IH]; [reflexivity|].
  rewrite contains_newline_cons, orb_false_iff, bool_decide_eq_false.
  intros [Hc Hx]. rewrite split_cons, decide_False by assumption.
  by rewrite (IH Hx).
Qed.

Lemma split_append_newline (x rest : string) :
  pystr.contains x spec_nt.newline = false ->
  pystr.split pystr.nl (x +:+ String pystr.nl rest) = x :: pystr.split pystr.nl rest.
Proof.
  induction x as [|c x IH].
  { intros _. rewrite append_nil_l, split_cons. by rewrite decide_True. }
  rewrite contains_newline_cons, orb_false_iff, bool_decide_eq_false.
  intros [Hc Hx]. rewrite append_cons, split_cons, decide_False by assumption.
  by rewrite (IH Hx).
Qed.

Lemma is_nt_row_unfold (r : string) :
  spec_nt.is_nt_row r = true ->
  pystr.truthy r = true /\ pystr.contains r spec_nt.newline = false
  /\ pystr.lstrip r = r /\ pystr.rstrip r = r.
Proof.
  unfold spec_nt.is_nt_row. rewrite !andb_true_iff, negb_true_iff.
  intros [[[? ?] ?%bool_decide_eq_true] ?%bool_decide_eq_true]. auto.
Qed.

Lemma serialize_nt_join (rows : list string) :
  rows <> [] ->
  rdflib.serialize_nt (rdflib.mkGraph rows)
  = pystr.join spec_nt.newline rows +:+ spec_nt.newline.
Proof.
  unfold rdflib.serialize_nt. simpl.
  induction rows as [|x [|y l] IH]; intros Hne; [done|reflexivity|].
  change (foldr _ _ (x :: y :: l))
    with (x +:+ String pystr.nl
            (foldr (fun row acc => row +:+ String pystr.nl acc) EmptyString (y :: l))).
  rewrite IH by discriminate. rewrite join_cons_cons, !append_assoc. reflexivity.
Qed.

Section rows.
Variable rows : list string.
Hypothesis rows_ok : Forall (fun r => spec_nt.is_nt_row r = true) rows.
Hypothesis rows_nonempty : rows <> [].

Lemma rstrip_join_rows :
  pystr.rstrip (pystr.join spec_nt.newline rows) = pystr.join spec_nt.newline rows
  /\ pystr.truthy (pystr.join spec_nt.newline rows) = true.
Proof.
  induction rows as [|x [|y l] IH]; [done| |].
  - apply Forall_inv in rows_ok. apply is_nt_row_unfold in rows_ok. simpl. tauto.
  - rewrite join_cons_cons. destruct IH as [IH1 IH2];
      [by eapply Forall_inv_tail|discriminate|].
    apply Forall_inv in rows_ok. apply is_nt_row_unfold in rows_ok as (Ht & _).
    split.
    + rewrite <- append_assoc. by apply rstrip_append_fixed.
    + destruct x; [discriminate|reflexivity].
Qed.

Lemma lstrip_join_rows (tail : string) :
  pystr.lstrip (pystr.join spec_nt.newline rows +:+ tail)
  = pystr.join spec_nt.newline rows +:+ tail.
Proof.
  destruct rows as [|x [|y l]]; [done| |];
    apply Forall_inv in rows_ok; apply is_nt_row_unfold in rows_ok as (Ht & _ & Hl & _).
  - by apply lstrip_fixed_append.
  - rewrite join_cons_cons, !append_assoc. by apply lstrip_fixed_append.
Qed.

Lemma strip_serialized :
  pystr.strip (pystr.join spec_nt.newline rows +:+ spec_nt.newline)
  = pystr.join spec_nt.newline rows.
Proof.
  unfold pystr.strip. rewrite lstrip_join_rows, rstrip_append_newline.
  apply rstrip_join_rows.
Qed.

Lemma split_join_rows :
  pystr.split pystr.nl (pystr.join spec_nt.newline rows) = rows.
Proof.
  induction rows as [|x [|y l] IH]; [done| |].
  - apply Forall_inv in rows_ok. apply is_nt_row_unfold in rows_ok as (_ & Hn & _).
    by apply split_no_newline.
  - rewrite join_cons_cons.
    change (x +:+ spec_nt.newline +:+ pystr.join spec_nt.newline (y :: l))
      with (x +:+ String pystr.nl (pystr.join spec_nt.newline (y :: l))).
    pose proof (Forall_inv rows_ok) as Hx.
    apply is_nt_row_unfold in Hx as (_ & Hn & _).
    rewrite split_append_newline by assumption.
    rewrite IH; [reflexivity|by eapply Forall_inv_tail|discriminate].
Qed.

(** The output split at newlines: the rows, and one empty string after the
    newline that ends the last row. *)
Lemma split_join_rows_newline :
  pystr.split pystr.nl (pystr.join spec_nt.newline rows +:+ spec_nt.newline)
  = rows ++ [EmptyString].
Proof.
  induction rows as [|x [|y l] IH]; [done| |].
  - apply Forall_inv in rows_ok. apply is_nt_row_unfold in rows_ok as (_ & Hn & _).
    change (pystr.join spec_nt.newline [x] +:+ spec_nt.newline)
      with (x +:+ String pystr.nl EmptyString).
    by rewrite split_append_newline.
  - rewrite join_cons_cons, !append_assoc.
    change (x +:+ spec_nt.newline +:+ pystr.join spec_nt.newline (y :: l)
              +:+ spec_nt.newline)
      with (x +:+ String pystr.nl
              (pystr.join spec_nt.newline (y :: l) +:+ spec_nt.newline)).
    pose proof (Forall_inv rows_ok) as Hx.
    apply is_nt_row_unfold in Hx as (_ & Hn & _).
    rewrite split_append_newline by assumption.
    rewrite IH; [reflexivity|by eapply Forall_inv_tail|discriminate].
Qed.

End rows.

Lemma filter_rows (rows : list string) :
  Forall (fun r => spec_nt.is_nt_row r = true) rows ->
  List.filter (fun line => pystr.truthy (pystr.strip line)) rows = rows.
Proof.
  induction 1 as [|r l Hr _ IH]; [reflexivity|]. cbn [List.filter].
  apply is_nt_row_unfold in Hr as (Ht & _ & Hl & Hr).
  assert (pystr.truthy (pystr.strip r) = true) as ->
    by (unfold pystr.strip; by rewrite Hl, Hr).
  by rewrite IH.
Qed.

(** The lines that [_sort_ntriples_lines] sorts are the rows of the graph. *)
Lemma sort_ntriples_lines_rows (rows : list string) :
  Forall (fun r => spec_nt.is_nt_row r = true) rows ->
  rdf_materializer.serialize_sorted_ntriples (rdflib.mkGraph rows)
  = match rows with
    | [] => EmptyString
    | _ :: _ =>
        pystr.join spec_nt.newline (rdf_materializer.sorted rows) +:+ spec_nt.newline
    end.
Proof.
  intros Hok. unfold rdf_materializer.serialize_sorted_ntriples,
    rdf_materializer._sort_ntriples_lines.
  destruct rows as [|x l] eqn:E; [reflexivity|]. rewrite <- E in *.
  assert (rows <> []) as Hne by (subst; discriminate).
  rewrite serialize_nt_join, strip_serialized, split_join_rows, filter_rows
    by assumption.
  subst. reflexivity.
Qed.

Lemma sorted_permutation (rows : list string) :
  rdf_materializer.sorted rows ≡ₚ rows.
Proof. apply merge_sort_Permutation. Qed.

Lemma sorted_sorted (rows : list string) :
  Sorted String.le (rdf_materializer.sorted rows).
Proof. apply (Sorted_merge_sort String.le). Qed.

Lemma sorted_of_permutation (rows rows' : list string) :
  rows ≡ₚ rows' -> rdf_materializer.sorted rows = rdf_materializer.sorted rows'.
Proof.
  intros Hp. apply (Sorted_unique String.le); try apply sorted_sorted.
  by rewrite !sorted_permutation.
Qed.

(** C8.  Let the rows of a graph be N-Triples rows, and let a second graph
    hold the same rows in any order.  Both graphs serialize to the same
    string.  That string is empty when the graph is; otherwise it is the
    rows in ascending code-point order, each followed by one newline, so
    that splitting it at newlines gives the sorted rows and one empty string
    after the final newline. *)
Theorem serialize_sorted_ntriples_deterministic (g g' : rdflib.Graph) :
  Forall (fun r => spec_nt.is_nt_row r = true) (rdflib.nt_rows g) ->
  rdflib.nt_rows g ≡ₚ rdflib.nt_rows g' ->
  rdf_materializer.serialize_sorted_ntriples g
    = rdf_materializer.serialize_sorted_ntriples g'
  /\ Sorted String.le (rdf_materializer.sorted (rdflib.nt_rows g))
  /\ rdf_materializer.sorted (rdflib.nt_rows g) ≡ₚ rdflib.nt_rows g
  /\ (rdflib.nt_rows g = [] ->
        rdf_materializer.serialize_sorted_ntriples g = EmptyString)
  /\ (rdflib.nt_rows g <> [] ->
        rdf_materializer.serialize_sorted_ntriples g
          = pystr.join spec_nt.newline (rdf_materializer.sorted (rdflib.nt_rows g))
              +:+ spec_nt.newline
        /\ pystr.split pystr.nl (rdf_materializer.serialize_sorted_ntriples g)
           = rdf_materializer.sorted (rdflib.nt_rows g) ++ [EmptyString]).
Proof.
  destruct g as [rows], g' as [rows']. simpl. intros Hok Hp.
  assert (Forall (fun r => spec_nt.is_nt_row r = true) rows') as Hok'
    by by rewrite <- Hp.
  assert (Forall (fun r => spec_nt.is_nt_row r = true) (rdf_materializer.sorted rows))
    as Hoks by by rewrite sorted_permutation.
  rewrite !sort_ntriples_lines_rows by assumption.
  split.
  { rewrite (sorted_of_permutation rows rows' Hp).
    destruct rows as [|x l], rows' as [|x' l']; try reflexivity.
    - by apply Permutation_nil_cons in Hp.
    - symmetry in Hp. by apply Permutation_nil_cons in Hp. }
  split; [apply sorted_sorted|]. split; [apply sorted_permutation|].
  split; [by intros ->|].
  intros Hne. destruct rows as [|x l]; [done|]. split; [reflexivity|].
  apply split_join_rows_newline; [assumption|].
  intros He. pose proof (sorted_permutation (x :: l)) as Hs. rewrite He in Hs.
  by apply Permutation_nil_cons in Hs.
Qed.

(** The rows [row_a] and [row_b], stored in either order. *)
Lemma serialize_sorted_ntriples_deterministic_witness :
  rdf_materializer.serialize_sorted_ntriples spec_nt.graph_ab
    = rdf_materializer.serialize_sorted_ntriples spec_nt.graph_ba
  /\ rdf_materializer.serialize_sorted_ntriples spec_nt.graph_ba
     = spec_nt.row_a +:+ spec_nt.newline +:+ spec_nt.row_b +:+ spec_nt.newline.
Proof.
  assert (Forall (fun r => spec_nt.is_nt_row r = true) (rdflib.nt_rows spec_nt.graph_ab))
    as Hok.
  { apply List.Forall_cons; [reflexivity|].
    apply List.Forall_cons; [reflexivity|]. apply List.Forall_nil. }
  assert (rdflib.nt_rows spec_nt.graph_ab ≡ₚ rdflib.nt_rows spec_nt.graph_ba) as Hp
    by apply Permutation_swap.
  split.
  - exact (proj1 (serialize_sorted_ntriples_deterministic
                    spec_nt.graph_ab spec_nt.graph_ba Hok Hp)).
  - vm_compute. reflexivity.
Defined.

(** ** The version-tag suffix of output files *)

Lemma rev_app_append (a b acc : string) :
  String.rev_app (a +:+ b) acc = String.rev_app b (String.rev_app a acc).
Proof.
  revert acc. induction a as [|c a IH]; intros acc; [by rewrite append_nil_l|].
  rewrite append_cons. simpl. apply IH.
Qed.

Lemma rev_app_acc (a acc : string) :
  String.rev_app a acc = String.rev a +:+ acc.
Proof.
  unfold String.rev. revert acc.
  induction a as [|c a IH]; intros acc; [reflexivity|]. simpl.
  rewrite (IH (String c acc)), (IH (String c EmptyString)).
  by rewrite append_assoc.
Qed.

Lemma rev_append (a b : string) :
  String.rev (a +:+ b) = String.rev b +:+ String.rev a.
Proof.
  unfold String.rev at 1. rewrite rev_app_append.
  by rewrite rev_app_acc.
Qed.

Lemma endswith_append (a b : string) : pystr.endswith (a +:+ b) b = true.
Proof. unfold pystr.endswith. rewrite rev_append. apply startswith_append. Qed.

Lemma length_append (a b : string) :
  String.length (a +:+ b) = (String.length a + String.length b)%nat.
Proof.
  induction a as [|c a IH]; [by rewrite append_nil_l|].
  rewrite append_cons. simpl. by rewrite IH.
Qed.

Lemma take_append (a b : string) : pystr.take (String.length a) (a +:+ b) = a.
Proof.
  induction a as [|c a IH]; [by destruct b|].
  rewrite append_cons. simpl. by rewrite IH.
Qed.

Lemma drop_append (a b : string) : pystr.drop (String.length a) (a +:+ b) = b.
Proof.
  induction a as [|c a IH]; [by destruct b|].
  rewrite append_cons. simpl. by rewrite IH.
Qed.

Lemma rfind_lower (c : ascii) (s : string) : -1 <= pystr.rfind c s.
Proof.
  induction s as [|x s IH]; simpl; [lia|].
  destruct (Z.leb_spec 0 (pystr.rfind c s)); [lia|]. destruct (decide (x = c)); lia.
Qed.

(** [rfind] finds the last occurrence: nothing equal to [c] follows it. *)
Lemma rfind_nonneg (c : ascii) (s : string) :
  0 <= pystr.rfind c s ->
  exists a b, s = a +:+ String c b
              /\ pystr.rfind c s = Z.of_nat (String.length a)
              /\ pystr.rfind c b = -1.
Proof.
  induction s as [|x s IH]; simpl; [lia|].
  destruct (Z.leb_spec 0 (pystr.rfind c s)) as [E|E].
  - intros _. destruct IH as (a & b & -> & Hr & Hb); [lia|].
    exists (String x a), b. rewrite append_cons. split; [reflexivity|].
    split; [|assumption]. cbn [String.length]. lia.
  - destruct (decide (x = c)) as [->|]; [|lia]. intros _.
    exists EmptyString, s. split; [reflexivity|]. split; [reflexivity|].
    pose proof (rfind_lower c s). lia.
Qed.

Lemma rfind_append_last (c : ascii) (a b : string) :
  pystr.rfind c b = -1 ->
  pystr.rfind c (a +:+ String c b) = Z.of_nat (String.length a).
Proof.
  intros Hb. induction a as [|x a IH].
  - rewrite append_nil_l. simpl. rewrite Hb. simpl. by rewrite decide_True.
  - rewrite append_cons. simpl. rewrite IH.
    destruct (Z.leb_spec 0 (Z.of_nat (String.length a))); lia.
Qed.

(** A name with a suffix is its stem, a dot and a non-empty extension
    without dots. *)
Lemma suffix_index_Some (nm : string) (i : nat) :
  pathlib.suffix_index nm = Some i ->
  exists st ext, nm = st +:+ String "." ext /\ i = String.length st
                 /\ ext <> EmptyString /\ pystr.rfind "." ext = -1.
Proof.
  unfold pathlib.suffix_index.
  destruct (Z.ltb_spec 0 (pystr.rfind "." nm)) as [E1|E1]; [|discriminate].
  destruct (Z.ltb_spec (pystr.rfind "." nm) (Z.of_nat (String.length nm) - 1))
    as [E2|E2]; [|discriminate].
  simpl. intros [= <-].
  destruct (rfind_nonneg "." nm) as (st & ext & -> & Hr & He); [lia|].
  exists st, ext. repeat split; [lia| |assumption].
  intros ->. rewrite Hr, length_append in E2. simpl in E2. lia.
Qed.

Lemma suffix_index_append (st ext : string) :
  st <> EmptyString -> ext <> EmptyString -> pystr.rfind "." ext = -1 ->
  pathlib.suffix_index (st +:+ String "." ext) = Some (String.length st).
Proof.
  intros Hs He Hr. unfold pathlib.suffix_index.
  rewrite (rfind_append_last _ _ _ Hr), length_append. simpl.
  destruct st as [|x st]; [done|]. destruct ext as [|y ext]; [done|].
  cbn [String.length].
  destruct (Z.ltb_spec 0 (Z.of_nat (S (String.length st)))); [|lia].
  destruct (Z.ltb_spec (Z.of_nat (S (String.length st)))
              (Z.of_nat (S (String.length st) + S (S (String.length ext))) - 1));
    [|lia].
  simpl. f_equal. lia.
Qed.

(** The guard of [apply_version_tag_suffix]: a path whose stem ends with
    the tag is returned as it is. *)
Lemma apply_version_tag_suffix_guard (p : pathlib.Path) (tag : string) :
  pystr.endswith (pathlib.stem p) ("_" +:+ tag) = true ->
  cli.apply_version_tag_suffix p tag = Ok p.
Proof. unfold cli.apply_version_tag_suffix. by intros ->. Qed.

(** For a path with a suffix (a file extension) a second application
    changes nothing. *)
Lemma apply_version_tag_suffix_idempotent_with_suffix
    (p : pathlib.Path) (tag : string) :
  pathlib.suffix p <> EmptyString ->
  cli.apply_version_tag_suffix_twice p tag = cli.apply_version_tag_suffix p tag.
Proof.
  intros Hs. unfold cli.apply_version_tag_suffix_twice.
  destruct (cli.apply_version_tag_suffix p tag) as [p'|e] eqn:E; [|reflexivity].
  unfold cli.apply_version_tag_suffix in E.
  destruct (pystr.endswith (pathlib.stem p) ("_" +:+ tag)) eqn:Hg; simpl in E.
  { injection E as <-. by apply apply_version_tag_suffix_guard. }
  unfold pathlib.with_name in E.
  destruct (pystr.truthy (pathlib.name p)); [|discriminate]. simpl in E.
  destruct (pathlib.valid_name _); [|discriminate]. simpl in E.
  injection E as <-. apply apply_version_tag_suffix_guard.
  unfold pathlib.suffix, pathlib.stem in *. simpl.
  destruct (pathlib.suffix_index (pathlib.name p)) as [i|] eqn:Ei; [|done].
  apply suffix_index_Some in Ei as (st & ext & Hn & -> & He & Hr).
  rewrite Hn, take_append, drop_append.
  replace (st +:+ "_" +:+ tag +:+ String "." ext)
    with ((st +:+ "_" +:+ tag) +:+ String "." ext)
    by by rewrite !append_assoc.
  rewrite suffix_index_append, take_append; [|by destruct st|assumption..].
  apply endswith_append.
Qed.

(** C9 fails on the code.  With the output file [spec_history] and the
    version tag [v1.0.0], a first application names the file
    [spec_history_v1.0.0]; this name ends with the tag, yet its stem is
    [spec_history_v1.0], and a second application names the file
    [spec_history_v1.0_v1.0.0.0]. *)
Theorem apply_version_tag_suffix_twice_differs :
  cli.apply_version_tag_suffix (pathlib.mkPath [] "spec_history") "v1.0.0"
    = Ok (pathlib.mkPath [] "spec_history_v1.0.0")
  /\ pathlib.stem (pathlib.mkPath [] "spec_history_v1.0.0") = "spec_history_v1.0"
  /\ cli.apply_version_tag_suffix (pathlib.mkPath [] "spec_history_v1.0.0") "v1.0.0"
     = Ok (pathlib.mkPath [] "spec_history_v1.0_v1.0.0.0")
  /\ cli.apply_version_tag_suffix_twice (pathlib.mkPath [] "spec_history") "v1.0.0"
     = Ok (pathlib.mkPath [] "spec_history_v1.0_v1.0.0.0").
Proof. repeat split. Qed.

(** ** Further properties of the version-tag suffix *)

Lemma startswith_inv (s p : string) :
  pystr.startswith s p = true -> exists r, s = p +:+ r.
Proof.
  revert s. induction p as [|a p IH]; intros s H.
  - exists s. reflexivity.
  - destruct s as [|b s]; [discriminate H|]. simpl in H.
    destruct (decide (a = b)) as [->|]; [|discriminate H].
    destruct (IH s H) as [r ->]. exists r. reflexivity.
Qed.

Lemma rev_cons (c : ascii) (s : string) :
  String.rev (String c s) = String.rev s +:+ String c EmptyString.
Proof. unfold String.rev at 1. simpl. apply rev_app_acc. Qed.

Lemma rev_involutive (s : string) : String.rev (String.rev s) = s.
Proof.
  induction s as [|c s IH]; [reflexivity|].
  rewrite rev_cons, rev_append, IH. reflexivity.
Qed.

Lemma endswith_inv (s p : string) :
  pystr.endswith s p = true -> exists a, s = a +:+ p.
Proof.
  unfold pystr.endswith. intros H. apply startswith_inv in H as [r Hr].
  exists (String.rev r).
  rewrite <- (rev_involutive s), Hr, rev_append, rev_involutive. reflexivity.
Qed.

Lemma contains_char_cons (c x : ascii) (s : string) :
  pystr.contains (String x s) (String c EmptyString)
  = bool_decide (x = c) || pystr.contains s (String c EmptyString).
Proof.
  change (pystr.contains (String x s) (String c EmptyString))
    with ((if decide (c = x) then pystr.startswith s EmptyString else false)
          || pystr.contains s (String c EmptyString)).
  f_equal. destruct (decide (c = x)) as [<-|Hne].
  - rewrite bool_decide_eq_true_2 by reflexivity. by destruct s.
  - by rewrite bool_decide_eq_false_2 by congruence.
Qed.

Lemma contains_char_append (c : ascii) (a b : string) :
  pystr.contains (a +:+ b) (String c EmptyString)
  = pystr.contains a (String c EmptyString) || pystr.contains b (String c EmptyString).
Proof.
  induction a as [|x a IH]; [by rewrite append_nil_l|].
  rewrite append_cons, !contains_char_cons, IH. by rewrite orb_assoc.
Qed.

Lemma stem_suffix (p : pathlib.Path) :
  pathlib.stem p +:+ pathlib.suffix p = pathlib.name p.
Proof.
  unfold pathlib.stem, pathlib.suffix.
  destruct (pathlib.suffix_index (pathlib.name p)) as [i|]; [|induction (pathlib.name p) as [|c s IH]; [reflexivity|]; by rewrite append_cons, IH].
  generalize (pathlib.name p). clear. intros s. revert s.
  induction i as [|n IH]; intros [|c s]; try reflexivity.
  simpl. rewrite append_cons. by rewrite IH.
Qed.

(** X1.  For an output path with a file extension, a successful
    application keeps the directory and the extension, and the stem of the
    result ends with an underscore and the version tag. *)
Theorem apply_version_tag_suffix_keeps_extension
    (p p' : pathlib.Path) (tag : string) :
  pathlib.suffix p <> EmptyString ->
  cli.apply_version_tag_suffix p tag = Ok p' ->
  pathlib.parent p' = pathlib.parent p
  /\ pathlib.suffix p' = pathlib.suffix p
  /\ pystr.endswith (pathlib.stem p') ("_" +:+ tag) = true.
Proof.
  intros Hs E. unfold cli.apply_version_tag_suffix in E.
  destruct (pystr.endswith (pathlib.stem p) ("_" +:+ tag)) eqn:Hg; simpl in E.
  { injection E as <-. auto. }
  unfold pathlib.with_name in E.
  destruct (pystr.truthy (pathlib.name p)); [|discriminate]. simpl in E.
  destruct (pathlib.valid_name _); [|discriminate]. simpl in E.
  injection E as <-. split; [reflexivity|].
  unfold pathlib.suffix, pathlib.stem in *. simpl.
  destruct (pathlib.suffix_index (pathlib.name p)) as [i|] eqn:Ei; [|done].
  apply suffix_index_Some in Ei as (st & ext & Hn & -> & He & Hr).
  rewrite Hn, take_append, drop_append.
  replace (st +:+ "_" +:+ tag +:+ String "." ext)
    with ((st +:+ "_" +:+ tag) +:+ String "." ext)
    by by rewrite !append_assoc.
  rewrite suffix_index_append; [|by destruct st|assumption..].
  rewrite take_append, drop_append. split; [reflexivity|].
  apply endswith_append.
Qed.

Lemma apply_version_tag_suffix_keeps_extension_witness :
  pathlib.parent (pathlib.mkPath ["out"] "ids_v1.0.0.json") = ["out"]
  /\ pathlib.suffix (pathlib.mkPath ["out"] "ids_v1.0.0.json") = ".json"
  /\ pystr.endswith (pathlib.stem (pathlib.mkPath ["out"] "ids_v1.0.0.json")) "_v1.0.0"
     = true.
Proof.
  apply (apply_version_tag_suffix_keeps_extension sample.ids_json
           (pathlib.mkPath ["out"] "ids_v1.0.0.json") "v1.0.0").
  - discriminate.
  - reflexivity.
Defined.

(** X2.  When neither the final component of the path nor the version tag
    holds a slash, the application raises exactly when that component is
    empty, and then with the error of [with_name] for a path without a name;
    in every other case it returns a path.  (On names without a slash the
    rule of [with_name] is the same in every version of pathlib.) *)
Theorem apply_version_tag_suffix_raises_iff (p : pathlib.Path) (tag : string) :
  pystr.contains (pathlib.name p) "/" = false ->
  pystr.contains tag "/" = false ->
  ((exists e, cli.apply_version_tag_suffix p tag = Raise e)
   <-> pathlib.name p = EmptyString)
  /\ (pathlib.name p = EmptyString ->
      cli.apply_version_tag_suffix p tag = Raise (pathlib.EmptyName p))
  /\ (pathlib.name p <> EmptyString ->
      exists p', cli.apply_version_tag_suffix p tag = Ok p').
Proof.
  intros Hn Ht. pose proof (stem_suffix p) as Hss.
  assert (pystr.contains (pathlib.stem p) "/" = false
          /\ pystr.contains (pathlib.suffix p) "/" = false) as [Hst Hsu].
  { rewrite <- Hss, contains_char_append in Hn. by apply orb_false_iff in Hn. }
  assert (pathlib.name p = EmptyString ->
          cli.apply_version_tag_suffix p tag = Raise (pathlib.EmptyName p)) as H1.
  { intros He. unfold cli.apply_version_tag_suffix, pathlib.with_name.
    assert (pathlib.stem p = EmptyString) as Hs.
    { rewrite <- Hss in He. by destruct (pathlib.stem p). }
    rewrite Hs, He.
    destruct (pystr.endswith EmptyString ("_" +:+ tag)) eqn:Hg; [|reflexivity].
    apply endswith_inv in Hg as [a Ha]. destruct a; discriminate Ha. }
  assert (pathlib.name p <> EmptyString ->
          exists p', cli.apply_version_tag_suffix p tag = Ok p') as H2.
  { intros Hne. unfold cli.apply_version_tag_suffix.
    destruct (pystr.endswith (pathlib.stem p) ("_" +:+ tag)); simpl; [by eexists|].
    unfold pathlib.with_name.
    destruct (pathlib.name p) as [|c nm] eqn:En; [done|]. simpl.
    assert (pathlib.valid_name
              (pathlib.stem p +:+ "_" +:+ tag +:+ pathlib.suffix p) = true) as ->.
    { unfold pathlib.valid_name.
      rewrite !contains_char_append, Hst, Hsu, Ht. simpl.
      assert (pystr.truthy (pathlib.stem p +:+ "_" +:+ tag +:+ pathlib.suffix p) = true)
        as -> by by apply truthy_append_r.
      rewrite bool_decide_eq_false_2; [reflexivity|].
      destruct (pathlib.stem p) as [|x [|y st]]; discriminate. }
    simpl. by eexists. }
  split; [|split; assumption].
  split.
  - intros [e He]. destruct (pathlib.name p) as [|c nm] eqn:En; [reflexivity|].
    destruct H2 as [p' Hp']; [discriminate|]. congruence.
  - intros He. eexists. by apply H1.
Qed.

(** The path without a name, as [Path("")] is. *)
Lemma apply_version_tag_suffix_raises_iff_witness :
  cli.apply_version_tag_suffix (pathlib.mkPath [] EmptyString) "v1.0.0"
  = Raise (pathlib.EmptyName (pathlib.mkPath [] EmptyString)).
Proof.
  apply (apply_version_tag_suffix_raises_iff (pathlib.mkPath [] EmptyString) "v1.0.0");
    reflexivity.
Defined.

Lemma append_nil_r (s : string) : s +:+ EmptyString = s.
Proof. induction s as [|c s IH]; [reflexivity|]. by rewrite append_cons, IH. Qed.

Lemma rfind_append_none (c : ascii) (a b : string) :
  pystr.rfind c b = -1 -> pystr.rfind c (a +:+ b) = pystr.rfind c a.
Proof.
  intros Hb. induction a as [|x a IH]; [by rewrite append_nil_l|].
  rewrite append_cons. simpl. by rewrite IH.
Qed.

(** X3. A second application of [apply_version_tag_suffix] changes nothing
    when the file name has an extension, and also when the tag holds no dot
    and the file name holds none after its first character. *)
Theorem apply_version_tag_suffix_idempotent (p : pathlib.Path) (tag : string) :
  pathlib.suffix p <> EmptyString
  \/ (pystr.rfind "." tag = -1 /\ pystr.rfind "." (pathlib.name p) <= 0) ->
  cli.apply_version_tag_suffix_twice p tag = cli.apply_version_tag_suffix p tag.
Proof.
  intros [Hs|[Ht Hn]];
    [by apply apply_version_tag_suffix_idempotent_with_suffix|].
  unfold cli.apply_version_tag_suffix_twice.
  destruct (cli.apply_version_tag_suffix p tag) as [p'|e] eqn:E; [|reflexivity].
  unfold cli.apply_version_tag_suffix in E.
  destruct (pystr.endswith (pathlib.stem p) ("_" +:+ tag)) eqn:Hg; simpl in E.
  { injection E as <-. by apply apply_version_tag_suffix_guard. }
  unfold pathlib.with_name in E.
  destruct (pystr.truthy (pathlib.name p)); [|discriminate]. simpl in E.
  destruct (pathlib.valid_name _); [|discriminate]. simpl in E.
  injection E as <-. apply apply_version_tag_suffix_guard.
  assert (pathlib.suffix_index (pathlib.name p) = None) as Hi.
  { unfold pathlib.suffix_index.
    destruct (Z.ltb_spec 0 (pystr.rfind "." (pathlib.name p))); [lia|reflexivity]. }
  unfold pathlib.suffix, pathlib.stem. rewrite Hi. simpl.
  rewrite (append_nil_r tag).
  assert (pathlib.suffix_index (pathlib.name p +:+ "_" +:+ tag) = None) as ->.
  { unfold pathlib.suffix_index. rewrite rfind_append_none.
    - destruct (Z.ltb_spec 0 (pystr.rfind "." (pathlib.name p))); [lia|reflexivity].
    - change ("_" +:+ tag) with (String "_" tag). simpl. by rewrite Ht. }
  apply endswith_append.
Qed.

Lemma apply_version_tag_suffix_idempotent_witness :
  cli.apply_version_tag_suffix_twice sample.ids_json "v1.0.0"
  = cli.apply_version_tag_suffix sample.ids_json "v1.0.0".
Proof.
  apply (apply_version_tag_suffix_idempotent sample.ids_json "v1.0.0").
  left. discriminate.
Defined.

(** ** Further properties of the command [registry id] *)

Section export_id_more.
Context {JsonValue DiffChange VariantIDFile Exn : Type}.
Variable load_schema : list pathlib.Path -> pyresult Exn graphql.GraphQLSchema.
Variable json_load : pathlib.Path -> pyresult string (cli.Json JsonValue).
Variable model_validate : JsonValue -> pyresult string DiffChange.
Variable IDExporter_run :
  cli.IDExporter DiffChange -> list pathlib.Path * pyresult Exn VariantIDFile.
Variable path_str : pathlib.Path -> string.

Local Abbreviation export_id :=
  (cli.export_id load_schema json_load model_validate IDExporter_run path_str).
Local Abbreviation read_diff := (cli.read_diff JsonValue DiffChange json_load model_validate).
Local Abbreviation validate_all := (cli.validate_all JsonValue DiffChange model_validate).

Lemma validate_all_Ok (items : list JsonValue) (ds : list DiffChange) :
  validate_all items = Ok ds
  <-> Forall2 (fun item d => model_validate item = Ok d) items ds.
Proof.
  revert ds. induction items as [|x items IH]; intros ds; simpl.
  - split; [intros [= <-]; constructor|]. intros H. by inversion H.
  - destruct (model_validate x) as [d|e] eqn:Ex.
    + destruct (validate_all items) as [ds'|e'] eqn:Er.
      * split.
        -- intros [= <-]. constructor; [assumption|]. by apply IH.
        -- intros H. inversion H as [|? d0 ? ds0 Hd Hr]; subst.
           rewrite Ex in Hd. injection Hd as <-.
           apply IH in Hr. by injection Hr as <-.
      * split; [discriminate|]. intros H.
        inversion H as [|? d0 ? ds0 Hd Hr]; subst. apply IH in Hr. discriminate Hr.
    + split; [discriminate|]. intros H.
      inversion H as [|? d0 ? ds0 Hd Hr]; subst. rewrite Ex in Hd. discriminate Hd.
Qed.

Lemma validate_all_Raise (items : list JsonValue) (msg : string) :
  validate_all items = Raise msg
  <-> exists good ds bad rest,
        items = good ++ bad :: rest
        /\ Forall2 (fun item d => model_validate item = Ok d) good ds
        /\ model_validate bad = Raise msg.
Proof.
  induction items as [|x items IH]; simpl.
  - split; [discriminate|]. intros (good & ? & ? & ? & H & _). by destruct good.
  - destruct (model_validate x) as [d|e] eqn:Ex.
    + destruct (validate_all items) as [ds'|e'] eqn:Er.
      * split; [discriminate|].
        intros (good & ds & bad & rest & Hi & Hg & Hb).
        destruct good as [|g good]; simpl in Hi; injection Hi as -> ->.
        { rewrite Ex in Hb. discriminate Hb. }
        inversion Hg; subst.
        assert (@Ok string _ ds' = Raise msg) as Hc; [|discriminate Hc].
        apply IH. eauto 8.
      * split.
        -- intros [= ->]. destruct (proj1 IH eq_refl)
             as (good & ds & bad & rest & -> & Hg & Hb).
           exists (x :: good), (d :: ds), bad, rest.
           split; [reflexivity|]. split; [by constructor|assumption].
        -- intros (good & ds & bad & rest & Hi & Hg & Hb).
           destruct good as [|g good]; simpl in Hi; injection Hi as -> ->.
           { rewrite Ex in Hb. discriminate Hb. }
           inversion Hg; subst. apply IH. eauto 8.
    + split.
      * intros [= ->]. exists [], [], x, items. split; [reflexivity|].
        split; [constructor|assumption].
      * intros (good & ds & bad & rest & Hi & Hg & Hb).
        destruct good as [|g good]; simpl in Hi; injection Hi as -> ->.
        { rewrite Ex in Hb. by injection Hb as ->. }
        inversion Hg; subst. congruence.
Qed.

(** X4.  Reading the diff file succeeds exactly when the file holds a JSON
    array all of whose items validate, and then returns the validated
    changes in order.  A document that is not an array is refused with the
    message of the source, and an array with an invalid item is refused with
    the message of its first invalid item. *)
Theorem read_diff_result (f : pathlib.Path) :
  (forall ds, read_diff f = Ok ds
     <-> exists items, json_load f = Ok (cli.JsonList items)
                       /\ Forall2 (fun item d => model_validate item = Ok d) items ds)
  /\ (forall v, json_load f = Ok (cli.JsonOther v) ->
        read_diff f = Raise "Invalid diff file: expected a JSON array")
  /\ (forall msg, json_load f = Raise msg -> read_diff f = Raise msg)
  /\ (forall items msg, json_load f = Ok (cli.JsonList items) ->
        (read_diff f = Raise msg
         <-> exists good ds bad rest,
               items = good ++ bad :: rest
               /\ Forall2 (fun item d => model_validate item = Ok d) good ds
               /\ model_validate bad = Raise msg)).
Proof.
  unfold cli.read_diff. split; [|split; [|split]].
  - intros ds. destruct (json_load f) as [[items|v]|e].
    + rewrite validate_all_Ok. split; [eauto|]. by intros (? & [= <-] & ?).
    + split; [discriminate|]. by intros (? & [=] & _).
    + split; [discriminate|]. by intros (? & [=] & _).
  - by intros v ->.
  - by intros msg ->.
  - intros items msg ->. apply validate_all_Raise.
Qed.

(** X5.  When the diff file cannot be read, parsed or validated, the command
    ends with a non-zero exit status, writes no file and runs no variant
    computation; if the schema was composed and the output path suffixed, it
    has logged the failure with the path and the cause and called
    [sys.exit(1)]. *)
Theorem export_id_diff_failure schemas output previous_ids f version_tag msg
    (w : cli.World DiffChange VariantIDFile) :
  read_diff f = Raise msg ->
  let '(outcome, w') := export_id schemas output previous_ids (Some f) version_tag w in
  cli.exit_code outcome <> 0
  /\ cli.files_written w' = cli.files_written w
  /\ cli.exporter_runs w' = cli.exporter_runs w
  /\ ((exists s, load_schema schemas = Ok s) ->
      match output with
      | Some o => exists o', cli.apply_version_tag_suffix o version_tag = Ok o'
      | None => True
      end ->
      outcome = cli.SystemExit 1
      /\ cli.log w'
         = cli.log w ++ [cli.LogError ("Failed to load diff file from " +:+ path_str f
                                       +:+ ": " +:+ msg)]).
Proof.
  intros Hr. unfold cli.export_id. rewrite Hr.
  unfold cli.bind, cli.call_load_schema.
  destruct (load_schema schemas) as [s|e]; simpl.
  2: { split; [discriminate|]. split; [reflexivity|]. split; [reflexivity|].
       intros [s' Hs']. discriminate Hs'. }
  rewrite andb_false_r. simpl. destruct output as [o|]; simpl.
  - destruct (cli.apply_version_tag_suffix o version_tag) as [o'|e]; simpl.
    + split; [discriminate|]. split; [reflexivity|]. split; [reflexivity|].
      intros _ _. split; reflexivity.
    + split; [discriminate|]. split; [reflexivity|]. split; [reflexivity|].
      intros _ [o' Ho']. discriminate Ho'.
  - split; [discriminate|]. split; [reflexivity|]. split; [reflexivity|].
    intros _ _. split; reflexivity.
Qed.

(** X6.  In every run the variant computation takes place at most once, and
    files are written by that computation only.  When it takes place, it
    receives the version tag and the previous-IDs path as given, an output
    path that is the given one with the version tag applied, and a parsed
    diff exactly when a diff file was given; it is never started with a
    previous-IDs path and no diff. *)
Theorem export_id_exporter_runs schemas output previous_ids diff_file version_tag
    (w : cli.World DiffChange VariantIDFile) :
  let '(outcome, w') := export_id schemas output previous_ids diff_file version_tag w in
  (cli.exporter_runs w' = cli.exporter_runs w
   /\ cli.files_written w' = cli.files_written w
   /\ cli.exit_code outcome <> 0)
  \/ exists e,
       cli.exporter_runs w' = cli.exporter_runs w ++ [e]
       /\ cli.files_written w' = cli.files_written w ++ (IDExporter_run e).1
       /\ load_schema schemas = Ok (cli.schema e)
       /\ cli.version_tag e = version_tag
       /\ cli.previous_ids_path e = previous_ids
       /\ match output with
          | Some o => exists o', cli.output e = Some o'
                                 /\ cli.apply_version_tag_suffix o version_tag = Ok o'
          | None => cli.output e = None
          end
       /\ match diff_file with
          | Some f => exists ds, cli.diff_output e = Some ds /\ read_diff f = Ok ds
          | None => cli.diff_output e = None /\ previous_ids = None
          end
       /\ (outcome = cli.Returned tt <-> exists r, (IDExporter_run e).2 = Ok r).
Proof.
  unfold cli.export_id.
  destruct diff_file as [f|].
  - destruct (read_diff f) as [ds|msg] eqn:Ed;
      unfold cli.bind, cli.call_load_schema;
      (destruct (load_schema schemas) as [s|e0]; simpl;
       [|left; repeat split; discriminate]);
      rewrite andb_false_r; simpl;
      (destruct output as [o|]; simpl;
       [destruct (cli.apply_version_tag_suffix o version_tag) as [o'|e1] eqn:Eo;
        simpl; [|left; repeat split; discriminate]|]);
      try (left; repeat split; discriminate);
      unfold cli.call_exporter_run; simpl;
      match goal with
      | |- context [IDExporter_run ?e] =>
          destruct (IDExporter_run e) as [written [r|e2]] eqn:Er; simpl;
          right; exists e; rewrite Er; simpl
      end;
      repeat split; eauto; try discriminate; try (by intros [? [=]]).
  - unfold cli.bind, cli.call_load_schema.
    destruct (load_schema schemas) as [s|e0]; simpl;
      [|left; repeat split; discriminate].
    destruct previous_ids as [prev|]; simpl; [left; repeat split; discriminate|].
    destruct output as [o|]; simpl;
      [destruct (cli.apply_version_tag_suffix o version_tag) as [o'|e1] eqn:Eo;
       simpl; [|left; repeat split; discriminate]|];
      unfold cli.call_exporter_run; simpl;
      match goal with
      | |- context [IDExporter_run ?e] =>
          destruct (IDExporter_run e) as [written [r|e2]] eqn:Er; simpl;
          right; exists e; rewrite Er; simpl
      end;
      repeat split; eauto; try discriminate; try (by intros [? [=]]).
Qed.

End export_id_more.

(** The diff file holds a JSON object. *)
Lemma export_id_diff_failure_witness :
  cli.export_id spec_cli.load_ok sample.json_object spec_cli.validate_ok
    spec_cli.run_writes_output spec_cli.path_str
    [] (Some spec_cli.ids_json) (Some spec_cli.previous_json)
    (Some spec_cli.diff_json) "v1" spec_cli.empty_world
  = (cli.SystemExit 1,
     cli.mkWorld
       [cli.LogError
          "Failed to load diff file from out/diff.json: Invalid diff file: expected a JSON array"]
       [] []).
Proof.
  pose proof (export_id_diff_failure spec_cli.load_ok sample.json_object
                spec_cli.validate_ok spec_cli.run_writes_output spec_cli.path_str
                [] (Some spec_cli.ids_json) (Some spec_cli.previous_json)
                spec_cli.diff_json "v1" "Invalid diff file: expected a JSON array"
                spec_cli.empty_world eq_refl) as H.
  destruct (cli.export_id _ _ _ _ _ _ _ _ _ _ _) as [o w'].
  destruct H as (_ & Hf & Hr & H).
  destruct H as [-> Hl]; [by eexists|by eexists|].
  destruct w' as [l fw er]. simpl in *. by subst.
Defined.

(** ** The markup of printed type blocks *)

Lemma isword_char (c : ascii) :
  pystr.isword c = true ->
  pystr.isspace c = false
  /\ c <> "{"%char /\ c <> "}"%char /\ c <> ":"%char /\ c <> "("%char
  /\ c <> pystr.dquote /\ c <> pystr.nl.
Proof.
  destruct c as [[] [] [] [] [] [] [] []]; vm_compute; intros H;
    first [discriminate H | repeat split; discriminate].
Qed.

Lemma span_all (p : ascii -> bool) (w rest : string) :
  block.all_chars p w = true ->
  match rest with EmptyString => true | String c _ => negb (p c) end = true ->
  pystr.span p (w +:+ rest) = (w, rest).
Proof.
  intros Hw Hr. induction w as [|c w IH].
  - rewrite append_nil_l. destruct rest as [|c r]; [reflexivity|]. simpl.
    apply negb_true_iff in Hr. by rewrite Hr.
  - simpl in Hw. apply andb_true_iff in Hw as [Hc Hw].
    rewrite append_cons. simpl. by rewrite Hc, (IH Hw).
Qed.

Lemma is_name_unfold (n : string) :
  block.is_name n = true ->
  block.all_chars pystr.isword n = true
  /\ exists c r, n = String c r /\ pystr.isword c = true.
Proof.
  unfold block.is_name. intros [Ht Hw]%andb_true_iff. split; [assumption|].
  destruct n as [|c r]; [discriminate Ht|]. simpl in Hw.
  apply andb_true_iff in Hw as [Hc _]. eauto.
Qed.

Lemma strip_prefix_append (kw r : string) :
  directive.strip_prefix kw (kw +:+ r) = Some r.
Proof.
  unfold directive.strip_prefix. by rewrite startswith_append, drop_append.
Qed.

(** The type-definition pattern on a line that starts with a keyword, one
    space and a name. *)
Lemma match_keyword_name (kw n rest : string) :
  block.is_name n = true ->
  match rest with EmptyString => true | String c _ => negb (pystr.isword c) end = true ->
  directive.match_keyword (kw +:+ " " +:+ n +:+ rest) kw = Some (kw, n).
Proof.
  intros Hn Hr. destruct (is_name_unfold n Hn) as (Hw & c & r & -> & Hc).
  unfold directive.match_keyword. rewrite strip_prefix_append.
  rewrite (span_all pystr.isspace " " (String c r +:+ rest)); [|reflexivity|].
  2: { rewrite append_cons. by rewrite (proj1 (isword_char c Hc)). }
  rewrite (span_all pystr.isword (String c r) rest Hw Hr). reflexivity.
Qed.

Lemma match_type_definition_name (kw n rest : string) :
  kw ∈ block.keywords ->
  block.is_name n = true ->
  match rest with EmptyString => true | String c _ => negb (pystr.isword c) end = true ->
  directive.match_type_definition (kw +:+ " " +:+ n +:+ rest) = Some (kw, n).
Proof.
  intros Hk Hn Hr. pose proof (match_keyword_name kw n rest Hn Hr) as Hm.
  unfold directive.match_type_definition.
  unfold block.keywords in Hk. rewrite !elem_of_cons, elem_of_nil in Hk.
  destruct Hk as [->|[->|[->|[->|[->|[->|[]]]]]]];
    cbn [directive.first_alternative]; rewrite ?Hm; try reflexivity.
  all: repeat match goal with
         | |- context [directive.match_keyword ?l ?k] =>
             let H := fresh in
             assert (directive.match_keyword l k = None) as H
               by (vm_compute; reflexivity);
             rewrite H; clear H
         end.
  all: by rewrite Hm.
Qed.

(** Lines that start with a space match no type definition. *)
Lemma match_type_definition_indented (r : string) :
  directive.match_type_definition (String " " r) = None.
Proof. reflexivity. Qed.

Lemma match_type_definition_member (r : string) :
  directive.match_type_definition ("  " +:+ r) = None.
Proof. reflexivity. Qed.

Lemma find_brace_from_prefix (pre rest : string) (i : Z) (prev : option ascii) :
  block.all_chars (fun c => negb (bool_decide (c = "{"%char))
                            && negb (bool_decide (c = pystr.dquote))) pre = true ->
  directive.find_brace_from i prev false (pre +:+ String "{" rest)
  = i + Z.of_nat (String.length pre).
Proof.
  revert i prev. induction pre as [|c pre IH]; intros i prev H.
  - rewrite append_nil_l. simpl. lia.
  - simpl in H. apply andb_true_iff in H as [Hc H].
    apply andb_true_iff in Hc as [Hb Hq].
    apply negb_true_iff in Hb, Hq.
    rewrite append_cons. cbn [directive.find_brace_from String.length].
    rewrite Hb, Hq. simpl. rewrite IH by assumption. lia.
Qed.

Lemma all_chars_append (p : ascii -> bool) (a b : string) :
  block.all_chars p (a +:+ b) = block.all_chars p a && block.all_chars p b.
Proof.
  induction a as [|c a IH]; [by rewrite append_nil_l|].
  rewrite append_cons. simpl. by rewrite IH, andb_assoc.
Qed.

Lemma all_chars_impl (p q : ascii -> bool) (s : string) :
  (forall c, p c = true -> q c = true) ->
  block.all_chars p s = true -> block.all_chars q s = true.
Proof.
  intros Hpq. induction s as [|c s IH]; [reflexivity|]. simpl.
  intros [Hc Hs]%andb_true_iff. by rewrite (Hpq c Hc), (IH Hs).
Qed.

Lemma rstrip_nonspace (a : string) (c : ascii) (b : string) :
  pystr.isspace c = false ->
  pystr.rstrip (a +:+ String c b) = a +:+ String c (pystr.rstrip b).
Proof.
  intros Hc. induction a as [|x a IH].
  - rewrite !append_nil_l. simpl. by rewrite Hc.
  - rewrite !append_cons. simpl. rewrite IH.
    rewrite (truthy_append_r a (String c (pystr.rstrip b))) by reflexivity.
    by rewrite andb_false_r.
Qed.

Lemma rstrip_append_space (s : string) (c : ascii) :
  pystr.isspace c = true ->
  pystr.rstrip (s +:+ String c EmptyString) = pystr.rstrip s.
Proof.
  intros Hc. induction s as [|x s IH].
  - rewrite append_nil_l. simpl. by rewrite Hc.
  - rewrite append_cons. simpl. by rewrite IH.
Qed.

Lemma rstrip_name (n : string) :
  block.all_chars pystr.isword n = true -> pystr.rstrip n = n.
Proof.
  induction n as [|c n IH]; [reflexivity|]. simpl.
  intros [Hc Hn]%andb_true_iff. rewrite (IH Hn).
  by rewrite (proj1 (isword_char c Hc)).
Qed.

(** A line whose first character after leading white space is not a
    closing brace is not the line that closes a block. *)
Lemma strip_not_brace (ws : string) (c : ascii) (r : string) :
  block.all_chars pystr.isspace ws = true ->
  pystr.isspace c = false -> c <> "}"%char ->
  bool_decide (pystr.strip (ws +:+ String c r) = "}") = false.
Proof.
  intros Hws Hc Hne. apply bool_decide_eq_false_2. unfold pystr.strip.
  assert (pystr.lstrip (ws +:+ String c r) = String c r) as ->.
  { induction ws as [|x ws IH]; [rewrite append_nil_l; simpl; by rewrite Hc|].
    simpl in Hws. apply andb_true_iff in Hws as [Hx Hws].
    rewrite append_cons. simpl. rewrite Hx. by apply IH. }
  simpl. rewrite Hc. simpl. congruence.
Qed.


Lemma keyword_is_name (kw : string) :
  kw ∈ block.keywords -> block.is_name kw = true.
Proof.
  unfold block.keywords. rewrite !elem_of_cons, elem_of_nil.
  intros [->|[->|[->|[->|[->|[->|[]]]]]]]; reflexivity.
Qed.

Lemma no_brace_quote_of_word (s : string) :
  block.all_chars pystr.isword s = true ->
  block.all_chars (fun c => negb (bool_decide (c = "{"%char))
                            && negb (bool_decide (c = pystr.dquote))) s = true.
Proof.
  apply all_chars_impl. intros c Hc.
  destruct (isword_char c Hc) as (_ & H1 & _ & _ & _ & H2 & _).
  by rewrite !bool_decide_eq_false_2.
Qed.

Lemma annotate_type_line_None (dm : gmap directive.Key (list string))
    (k n line : string) :
  dm !! (inl n : directive.Key) = None ->
  directive.annotate_type_line dm k n line = line.
Proof.
  intros E. unfold directive.annotate_type_line.
  match goal with
  | |- context [match ?x with Some _ => _ | None => _ end] =>
      change x with (dm !! (inl n : directive.Key))
  end.
  by rewrite E.
Qed.

Lemma annotate_type_line_Some (dm : gmap directive.Key (list string))
    (k n line : string) (ds : list string) :
  dm !! (inl n : directive.Key) = Some ds ->
  directive.annotate_type_line dm k n line
  = let brace_pos := directive.find_first_unquoted_brace line in
    if negb (brace_pos =? -1) then
      pystr.rstrip (pystr.take (Z.to_nat brace_pos) line)
        +:+ directive.directives_str ds +:+ " "
        +:+ pystr.drop (Z.to_nat brace_pos) line
    else
      pystr.replace (k +:+ " " +:+ n)
        (k +:+ " " +:+ n +:+ directive.directives_str ds) line.
Proof.
  intros E. unfold directive.annotate_type_line.
  match goal with
  | |- context [match ?x with Some _ => _ | None => _ end] =>
      change x with (dm !! (inl n : directive.Key))
  end.
  by rewrite E.
Qed.

Lemma directives_at_None (dm : gmap directive.Key (list string))
    (k : directive.Key) :
  dm !! k = None -> block.directives_at dm k = EmptyString.
Proof. unfold block.directives_at. by intros ->. Qed.

Lemma directives_at_Some (dm : gmap directive.Key (list string))
    (k : directive.Key) (ds : list string) :
  dm !! k = Some ds -> block.directives_at dm k = directive.directives_str ds.
Proof. unfold block.directives_at. by intros ->. Qed.

Section block_markup.
Variable dm : gmap directive.Key (list string).

Lemma is_block_unfold (b : block.Block) :
  block.is_block b = true ->
  block.kind b ∈ block.keywords /\ block.is_name (block.name b) = true
  /\ block.is_header_tail (block.tail b) = true
  /\ forallb block.is_member (block.members b) = true.
Proof.
  unfold block.is_block. rewrite !andb_true_iff, bool_decide_eq_true. tauto.
Qed.

Lemma header_tail_unfold (t : string) :
  block.is_header_tail t = true ->
  block.all_chars (fun c => negb (bool_decide (c = "{"%char))
                            && negb (bool_decide (c = pystr.dquote))) t = true
  /\ pystr.rstrip t = t
  /\ match t +:+ " {" with
     | EmptyString => true
     | String c _ => negb (pystr.isword c)
     end = true.
Proof.
  unfold block.is_header_tail. rewrite !andb_true_iff, bool_decide_eq_true.
  intros [[Ha Hr] Hf]. split; [|split; [assumption|]].
  - revert Ha. apply all_chars_impl. intros c.
    rewrite !andb_true_iff. tauto.
  - destruct t as [|c t]; [reflexivity|]. by rewrite append_cons.
Qed.

Lemma annotate_line_header (ct : option string) (b : block.Block) :
  block.is_block b = true ->
  directive.annotate_line dm ct (block.header b)
  = (Some (block.name b), block.annotated_header dm b).
Proof.
  intros Hb. destruct (is_block_unfold b Hb) as (Hk & Hn & Ht & _).
  destruct (header_tail_unfold _ Ht) as (Hta & Htr & Htf).
  destruct (is_name_unfold _ Hn) as (Hnw & _).
  destruct (is_name_unfold _ (keyword_is_name _ Hk)) as (Hkw & kc & kr & Hke & Hkc).
  unfold directive.annotate_line, block.header.
  rewrite (match_type_definition_name _ _ (block.tail b +:+ " {") Hk Hn Htf).
  set (pre := block.kind b +:+ " " +:+ block.name b +:+ block.tail b).
  assert (pystr.rstrip pre = pre) as Hpre.
  { unfold pre. destruct (block.tail b) as [|tc t] eqn:Et.
    - rewrite append_nil_r.
      rewrite <- append_assoc. apply rstrip_append_fixed; [|by apply rstrip_name].
      by apply andb_true_iff in Hn as [? _].
    - rewrite <- !append_assoc. by apply rstrip_append_fixed. }
  assert (directive.annotate_type_line dm (block.kind b) (block.name b)
            (block.kind b +:+ " " +:+ block.name b +:+ block.tail b +:+ " {")
          = block.annotated_header dm b) as ->.
  { unfold block.annotated_header.
    destruct (dm !! (inl (block.name b) : directive.Key)) as [ds|] eqn:E.
    2: { rewrite (annotate_type_line_None _ _ _ _ E), (directives_at_None _ _ E).
         by rewrite append_nil_l. }
    rewrite (annotate_type_line_Some _ _ _ _ _ E), (directives_at_Some _ _ _ E).
    unfold directive.find_first_unquoted_brace.
    replace (block.kind b +:+ " " +:+ block.name b +:+ block.tail b +:+ " {")
      with ((pre +:+ " ") +:+ String "{" EmptyString)
      by (unfold pre; by rewrite !append_assoc).
    rewrite find_brace_from_prefix.
    2: { unfold pre. rewrite !all_chars_append.
         rewrite (no_brace_quote_of_word _ Hkw), (no_brace_quote_of_word _ Hnw), Hta.
         reflexivity. }
    rewrite Z.add_0_l.
    destruct (Z.eqb_spec (Z.of_nat (String.length (pre +:+ " "))) (-1)) as [E1|_];
      [lia|]. simpl negb. cbv iota.
    rewrite Nat2Z.id, take_append, drop_append.
    rewrite rstrip_append_space by reflexivity. rewrite Hpre.
    unfold pre. by rewrite !append_assoc. }
  assert (bool_decide (pystr.strip (block.annotated_header dm b) = "}") = false)
    as ->; [|reflexivity].
  unfold block.annotated_header. rewrite Hke, append_cons.
  apply (strip_not_brace EmptyString); [reflexivity| |];
    destruct (isword_char kc Hkc) as (? & _ & ? & _); assumption.
Qed.

Lemma annotate_member_eq (tn : string) (m : block.Member) (line : string) :
  line = block.member_line m ->
  directive.annotate_member dm tn (Some (block.member_name m)) line
  = block.annotated_member dm tn m.
Proof. intros ->. reflexivity. Qed.

Lemma match_field_name_only (n : string) :
  block.is_name n = true -> directive.match_field ("  " +:+ n) = None.
Proof.
  intros Hn. destruct (is_name_unfold n Hn) as (Hw & c & r & -> & Hc).
  unfold directive.match_field.
  rewrite (span_all pystr.isspace "  " (String c r)); [|reflexivity|].
  2: { by rewrite (proj1 (isword_char c Hc)). }
  rewrite <- (append_nil_r (String c r)).
  rewrite (span_all pystr.isword (String c r) EmptyString Hw eq_refl).
  reflexivity.
Qed.

Lemma match_enum_value_name_only (n : string) :
  block.is_name n = true -> directive.match_enum_value ("  " +:+ n) = Some n.
Proof.
  intros Hn. destruct (is_name_unfold n Hn) as (Hw & c & r & -> & Hc).
  unfold directive.match_enum_value.
  rewrite (span_all pystr.isspace "  " (String c r)); [|reflexivity|].
  2: { by rewrite (proj1 (isword_char c Hc)). }
  rewrite <- (append_nil_r (String c r)) at 1.
  rewrite (span_all pystr.isword (String c r) EmptyString Hw eq_refl).
  reflexivity.
Qed.

Lemma match_field_colon (n x : string) :
  block.is_name n = true ->
  directive.match_field ("  " +:+ n +:+ String ":" x) = Some n.
Proof.
  intros Hn. destruct (is_name_unfold n Hn) as (Hw & c & r & -> & Hc).
  unfold directive.match_field.
  rewrite (span_all pystr.isspace "  " (String c r +:+ String ":" x)); [|reflexivity|].
  2: { rewrite append_cons. by rewrite (proj1 (isword_char c Hc)). }
  rewrite (span_all pystr.isword (String c r) (String ":" x) Hw eq_refl).
  reflexivity.
Qed.

Lemma match_enum_value_colon (n x : string) :
  block.is_name n = true ->
  directive.match_enum_value ("  " +:+ n +:+ String ":" x) = None.
Proof.
  intros Hn. destruct (is_name_unfold n Hn) as (Hw & c & r & -> & Hc).
  unfold directive.match_enum_value.
  rewrite (span_all pystr.isspace "  " (String c r +:+ String ":" x)); [|reflexivity|].
  2: { rewrite append_cons. by rewrite (proj1 (isword_char c Hc)). }
  rewrite (span_all pystr.isword (String c r) (String ":" x) Hw eq_refl).
  reflexivity.
Qed.

(** A member line of a block, read inside the type [tn]. *)
Lemma annotate_line_member (tn : string) (m : block.Member) :
  block.is_name tn = true -> block.is_member m = true ->
  directive.annotate_line dm (Some tn) (block.member_line m)
  = (Some tn, block.annotated_member dm tn m).
Proof.
  intros Htn Hm. unfold directive.annotate_line.
  assert (pystr.truthy tn = true) as Htt by (by apply andb_true_iff in Htn as [? _]).
  destruct m as [n|n t]; simpl in Hm.
  - destruct (is_name_unfold n Hm) as (Hw & c & r & En & Hc).
    destruct (isword_char c Hc) as (Hs & _ & Hb & _).
    change (block.member_line (block.EnumValueLine n)) with ("  " +:+ n).
    rewrite match_type_definition_member. rewrite Htt.
    rewrite (match_field_name_only n Hm). cbv zeta.
    change (directive.annotate_member dm tn None ("  " +:+ n)) with ("  " +:+ n).
    rewrite (match_enum_value_name_only n Hm).
    rewrite (annotate_member_eq tn (block.EnumValueLine n)) by reflexivity.
    assert (bool_decide (pystr.strip
              (block.annotated_member dm tn (block.EnumValueLine n)) = "}") = false)
      as ->; [|reflexivity].
    unfold block.annotated_member.
    change (block.member_line (block.EnumValueLine n)) with ("  " +:+ n).
    rewrite (rstrip_append_fixed "  " n) by
      (first [by apply andb_true_iff in Hm as [? _] | by apply rstrip_name]).
    rewrite En.
    destruct (dm !! _) as [ds|].
    + rewrite append_assoc, (append_cons c r). by apply (strip_not_brace "  ").
    + by apply (strip_not_brace "  ").
  - apply andb_true_iff in Hm as [Hn Ht].
    destruct (is_name_unfold n Hn) as (Hw & c & r & En & Hc).
    destruct (isword_char c Hc) as (Hs & _ & Hb & _).
    change (block.member_line (block.FieldLine n t))
      with ("  " +:+ n +:+ String ":" (" " +:+ t)).
    rewrite match_type_definition_member. rewrite Htt.
    rewrite (match_field_colon n _ Hn). cbv zeta.
    rewrite (annotate_member_eq tn (block.FieldLine n t)) by reflexivity.
    assert (exists x, block.annotated_member dm tn (block.FieldLine n t)
                      = "  " +:+ n +:+ String ":" x) as [x Ex].
    { unfold block.annotated_member.
      change (block.member_line (block.FieldLine n t))
        with ("  " +:+ n +:+ String ":" (" " +:+ t)).
      destruct (dm !! _) as [ds|]; [|by eexists].
      rewrite <- (append_assoc "  " n), rstrip_nonspace by reflexivity.
      rewrite !append_assoc, (append_cons ":"). by eexists. }
    rewrite Ex, (match_enum_value_colon n x Hn).
    change (directive.annotate_member dm tn None ("  " +:+ n +:+ String ":" x))
      with ("  " +:+ n +:+ String ":" x).
    rewrite En, (append_cons c r).
    by rewrite (strip_not_brace "  ").
Qed.

Lemma annotate_line_close (ct : option string) :
  directive.annotate_line dm ct "}" = (None, "}").
Proof.
  unfold directive.annotate_line.
  change (directive.match_type_definition "}") with (@None (string * string)).
  destruct ct as [tn|]; [|reflexivity].
  destruct (pystr.truthy tn); reflexivity.
Qed.

Lemma annotate_lines_members (tn : string) (ms : list block.Member) (rest : list string) :
  block.is_name tn = true -> forallb block.is_member ms = true ->
  directive.annotate_lines dm (Some tn) (List.map block.member_line ms ++ "}" :: rest)
  = List.map (block.annotated_member dm tn) ms
    ++ "}" :: directive.annotate_lines dm None rest.
Proof.
  intros Htn. induction ms as [|m ms IH]; intros Hms.
  - cbn [List.map app directive.annotate_lines]. by rewrite annotate_line_close.
  - cbn [forallb] in Hms. apply andb_true_iff in Hms as [Hm Hms].
    cbn [List.map app directive.annotate_lines].
    rewrite (annotate_line_member tn m Htn Hm). by rewrite (IH Hms).
Qed.

(** The lines of one block: the header and the members receive their
    directives, and the closing brace ends the type. *)
Lemma annotate_lines_block (ct : option string) (b : block.Block) (rest : list string) :
  block.is_block b = true ->
  directive.annotate_lines dm ct (block.block_lines b ++ rest)
  = block.annotated_block dm b ++ directive.annotate_lines dm None rest.
Proof.
  intros Hb. destruct (is_block_unfold b Hb) as (_ & Hn & _ & Hms).
  unfold block.block_lines, block.annotated_block.
  cbn [app directive.annotate_lines].
  rewrite (annotate_line_header ct b Hb). rewrite <- !app_assoc.
  cbn [app]. by rewrite (annotate_lines_members _ _ rest Hn Hms).
Qed.

Lemma annotate_lines_document (bs : list block.Block) :
  Forall (fun b => block.is_block b = true) bs ->
  directive.annotate_lines dm None (block.document bs)
  = block.annotated_document dm bs.
Proof.
  induction bs as [|b [|b' bs] IH]; intros Hbs; [reflexivity| |].
  - apply Forall_inv in Hbs.
    cbn [block.document block.annotated_document].
    rewrite <- (app_nil_r (block.block_lines b)).
    rewrite (annotate_lines_block None b [] Hbs). apply app_nil_r.
  - change (block.document (b :: b' :: bs))
      with (block.block_lines b ++ EmptyString :: block.document (b' :: bs)).
    change (block.annotated_document dm (b :: b' :: bs))
      with (block.annotated_block dm b
            ++ EmptyString :: block.annotated_document dm (b' :: bs)).
    rewrite (annotate_lines_block None b _ (Forall_inv Hbs)).
    rewrite <- (IH (Forall_inv_tail Hbs)). reflexivity.
Qed.

End block_markup.

Lemma no_newline_contains (x : string) :
  block.all_chars (fun c => negb (bool_decide (c = pystr.nl))) x = true ->
  pystr.contains x spec_nt.newline = false.
Proof.
  induction x as [|c x IH]; [reflexivity|]. simpl block.all_chars.
  intros [Hc Hx]%andb_true_iff. rewrite contains_newline_cons, (IH Hx).
  apply negb_true_iff in Hc. by rewrite Hc.
Qed.

Lemma contains_newline_append (a b : string) :
  pystr.contains a spec_nt.newline = false ->
  pystr.contains b spec_nt.newline = false ->
  pystr.contains (a +:+ b) spec_nt.newline = false.
Proof.
  intros Ha Hb. induction a as [|c a IH]; [by rewrite append_nil_l|].
  rewrite contains_newline_cons in Ha. apply orb_false_iff in Ha as [Hc Ha].
  by rewrite append_cons, contains_newline_cons, Hc, (IH Ha).
Qed.

(** Joining newline-free lines and splitting again gives the lines back. *)
Lemma split_join_lines (ls : list string) :
  ls <> [] ->
  Forall (fun l => pystr.contains l spec_nt.newline = false) ls ->
  pystr.split pystr.nl (pystr.join spec_nt.newline ls) = ls.
Proof.
  induction ls as [|x [|y l] IH]; intros Hne Hls; [done| |].
  - by apply split_no_newline, (Forall_inv Hls).
  - rewrite join_cons_cons.
    change (x +:+ spec_nt.newline +:+ pystr.join spec_nt.newline (y :: l))
      with (x +:+ String pystr.nl (pystr.join spec_nt.newline (y :: l))).
    rewrite split_append_newline by apply (Forall_inv Hls).
    by rewrite IH; [|discriminate|apply (Forall_inv_tail Hls)].
Qed.

Lemma block_lines_no_newline (b : block.Block) :
  block.is_block b = true ->
  Forall (fun l => pystr.contains l spec_nt.newline = false) (block.block_lines b).
Proof.
  intros Hb. destruct (is_block_unfold b Hb) as (Hk & Hn & Ht & Hms).
  assert (forall n, block.is_name n = true ->
                    pystr.contains n spec_nt.newline = false) as Hname.
  { intros n [_ Hw]%andb_true_iff. apply no_newline_contains. revert Hw.
    apply all_chars_impl. intros c Hc.
    destruct (isword_char c Hc) as (_ & _ & _ & _ & _ & _ & Hnl).
    by rewrite bool_decide_eq_false_2. }
  unfold block.block_lines. apply Forall_cons. split.
  - unfold block.header. repeat apply contains_newline_append;
      [by apply Hname, keyword_is_name|reflexivity|by apply Hname| |reflexivity].
    apply no_newline_contains. unfold block.is_header_tail in Ht.
    apply andb_true_iff in Ht as [[Ha _]%andb_true_iff _]. revert Ha.
    apply all_chars_impl. intros c. rewrite !andb_true_iff. tauto.
  - apply Forall_app. split; [|by repeat constructor].
    apply Forall_forall. intros l [m [-> Hm]]%list_elem_of_fmap.
    assert (block.is_member m = true) as Him.
    { rewrite forallb_forall in Hms. apply Hms. by apply list_elem_of_In. }
    destruct m as [n|n t]; simpl in Him; unfold block.member_line.
    + apply contains_newline_append; [reflexivity|by apply Hname].
    + apply andb_true_iff in Him as [Hn' Ht'].
      repeat apply contains_newline_append;
        [reflexivity|by apply Hname|reflexivity|by apply no_newline_contains].
Qed.

Lemma document_no_newline (bs : list block.Block) :
  Forall (fun b => block.is_block b = true) bs ->
  Forall (fun l => pystr.contains l spec_nt.newline = false) (block.document bs).
Proof.
  induction bs as [|b [|b' bs] IH]; intros Hbs; [constructor| |].
  - by apply block_lines_no_newline, (Forall_inv Hbs).
  - change (block.document (b :: b' :: bs))
      with (block.block_lines b ++ EmptyString :: block.document (b' :: bs)).
    apply Forall_app. split; [by apply block_lines_no_newline, (Forall_inv Hbs)|].
    apply Forall_cons. split; [reflexivity|]. apply IH, (Forall_inv_tail Hbs).
Qed.

Lemma document_nonempty (b : block.Block) (bs : list block.Block) :
  block.document (b :: bs) <> [].
Proof. destruct bs; discriminate. Qed.

(** X7. On a document of printed type blocks (header line, one line per
    member, closing brace, an empty line between blocks)
    [add_directives_to_schema] puts the directives of a type before the brace
    of its header and those of a member at the end of the member's line, and
    changes nothing else. *)
Theorem add_directives_to_schema_blocks
    (dm : gmap directive.Key (list string)) (bs : list block.Block) :
  Forall (fun b => block.is_block b = true) bs ->
  directive.add_directives_to_schema
    (pystr.join spec_nt.newline (block.document bs)) dm
  = pystr.join spec_nt.newline (block.annotated_document dm bs).
Proof.
  intros Hbs. unfold directive.add_directives_to_schema.
  destruct bs as [|b bs]; [reflexivity|].
  rewrite split_join_lines;
    [|apply document_nonempty|by apply document_no_newline].
  by rewrite annotate_lines_document.
Qed.

Lemma add_directives_to_schema_blocks_witness :
  directive.add_directives_to_schema
    (pystr.join spec_nt.newline (block.document [block.length_unit; block.cabin]))
    block.sample_map
  = pystr.join spec_nt.newline
      (block.annotated_document block.sample_map [block.length_unit; block.cabin]).
Proof.
  apply (add_directives_to_schema_blocks block.sample_map
           [block.length_unit; block.cabin]).
  repeat constructor.
Defined.

(** ** The position of the first brace outside quotes *)

Lemma find_brace_from_range (i : Z) (prev : option ascii) (in_comment : bool)
    (line : string) :
  directive.find_brace_from i prev in_comment line = -1
  \/ (i <= directive.find_brace_from i prev in_comment line
           < i + Z.of_nat (String.length line)
      /\ pyindex.get
           (Z.to_nat (directive.find_brace_from i prev in_comment line - i)) line
         = Some "{"%char).
Proof.
  revert i prev in_comment. induction line as [|c rest IH]; intros i prev inc.
  { by left. }
  cbn [directive.find_brace_from String.length].
  destruct (bool_decide (c = pystr.dquote)
            && negb (bool_decide (prev = Some pystr.backslash))).
  - destruct (IH (i + 1) (Some c) (negb inc)) as [->|[Hr Hg]]; [by left|right].
    split; [lia|].
    replace (Z.to_nat (directive.find_brace_from (i + 1) (Some c) (negb inc) rest - i))
      with (S (Z.to_nat (directive.find_brace_from (i + 1) (Some c) (negb inc) rest
                         - (i + 1)))) by lia.
    exact Hg.
  - destruct (bool_decide (c = "{"%char) && negb inc) eqn:Eb.
    + right. apply andb_true_iff in Eb as [->%bool_decide_eq_true _].
      split; [lia|]. by rewrite Z.sub_diag.
    + destruct (IH (i + 1) (Some c) inc) as [->|[Hr Hg]]; [by left|right].
      split; [lia|].
      replace (Z.to_nat (directive.find_brace_from (i + 1) (Some c) inc rest - i))
        with (S (Z.to_nat (directive.find_brace_from (i + 1) (Some c) inc rest
                           - (i + 1)))) by lia.
      exact Hg.
Qed.

Lemma find_brace_from_unquoted (i : Z) (prev : option ascii) (line : string) :
  block.all_chars (fun c => negb (bool_decide (c = pystr.dquote))) line = true ->
  (directive.find_brace_from i prev false line = -1 /\
   block.all_chars (fun c => negb (bool_decide (c = "{"%char))) line = true)
  \/ (exists pre rest,
        line = pre +:+ String "{" rest
        /\ block.all_chars (fun c => negb (bool_decide (c = "{"%char))) pre = true
        /\ directive.find_brace_from i prev false line
           = i + Z.of_nat (String.length pre)).
Proof.
  revert i prev. induction line as [|c rest IH]; intros i prev Hq.
  { left. by split. }
  cbn [block.all_chars] in Hq. apply andb_true_iff in Hq as [Hc Hq].
  apply negb_true_iff in Hc. cbn [directive.find_brace_from]. rewrite Hc.
  cbn [andb negb]. rewrite andb_true_r.
  destruct (bool_decide (c = "{"%char)) eqn:Eb.
  - right. apply bool_decide_eq_true in Eb as ->.
    exists EmptyString, rest. repeat split. simpl. lia.
  - destruct (IH (i + 1) (Some c) Hq) as [[Hr Ha]|(pre & r & -> & Ha & Hr)].
    + left. split; [exact Hr|]. cbn [block.all_chars]. by rewrite Eb, Ha.
    + right. exists (String c pre), r. rewrite append_cons.
      split; [reflexivity|]. split.
      * cbn [block.all_chars]. by rewrite Eb, Ha.
      * rewrite Hr. cbn [String.length]. lia.
Qed.

(** X8. [find_first_unquoted_brace] returns -1 or an index of the line at
    which the line holds an opening brace.  On a line without double quotes
    it returns the index of the first opening brace, and -1 exactly when the
    line has none. *)
Theorem find_first_unquoted_brace_index (line : string) :
  (directive.find_first_unquoted_brace line = -1
   \/ (0 <= directive.find_first_unquoted_brace line
            < Z.of_nat (String.length line)
       /\ pyindex.get (Z.to_nat (directive.find_first_unquoted_brace line)) line
          = Some "{"%char))
  /\ (block.all_chars (fun c => negb (bool_decide (c = pystr.dquote))) line = true ->
      (directive.find_first_unquoted_brace line = -1
       /\ block.all_chars (fun c => negb (bool_decide (c = "{"%char))) line = true)
      \/ (exists pre rest,
            line = pre +:+ String "{" rest
            /\ block.all_chars (fun c => negb (bool_decide (c = "{"%char))) pre = true
            /\ directive.find_first_unquoted_brace line
               = Z.of_nat (String.length pre))).
Proof.
  unfold directive.find_first_unquoted_brace. split.
  - destruct (find_brace_from_range 0 None false line) as [H|[Hr Hg]];
      [by left|right].
    rewrite Z.sub_0_r in Hg. split; [lia|exact Hg].
  - intros Hq.
    destruct (find_brace_from_unquoted 0 None line Hq)
      as [H|(pre & rest & Hl & Ha & Hr)]; [by left|right].
    exists pre, rest. by rewrite Hr.
Qed.

(** ** Directive arguments *)

Section arguments_facts.
Context {Float Exn : Type}.
Variable int_of_str : string -> pyresult Exn Z.
Variable float_of_str : string -> pyresult Exn Float.
Variable int_of_float : Float -> pyresult Exn Z.

Local Abbreviation stored_value := (arguments.stored_value int_of_str float_of_str).
Local Abbreviation store_arguments := (arguments.store_arguments int_of_str float_of_str).
Local Abbreviation get_directive_arguments :=
  (arguments.get_directive_arguments int_of_str float_of_str).
Local Abbreviation get_argument_content :=
  (arguments.get_argument_content int_of_str float_of_str).
Local Abbreviation get_cardinality :=
  (arguments.get_cardinality int_of_str float_of_str int_of_float).
Local Abbreviation bound := (arguments.bound int_of_str int_of_float).
Local Abbreviation storable :=
  (fun arg : graphql.ArgumentNode =>
     exists v, stored_value (graphql.arg_value arg) = Ok v).

Lemma dict_get_set (k k' : string) (v : arguments.PyValue Float)
    (d : arguments.Dict Float) :
  arguments.dict_get k (arguments.dict_set k' v d)
  = if decide (k' = k) then Some v else arguments.dict_get k d.
Proof.
  induction d as [|[k0 v0] d IH]; simpl.
  - reflexivity.
  - destruct (decide (k0 = k')) as [->|Hne]; simpl.
    + by destruct (decide (k' = k)).
    + destruct (decide (k0 = k)) as [->|Hne'].
      * by rewrite decide_False by congruence.
      * exact IH.
Qed.

Lemma dict_set_nonempty (k : string) (v : arguments.PyValue Float)
    (d : arguments.Dict Float) :
  arguments.dict_set k v d <> [].
Proof. destruct d as [|[k0 v0] d]; simpl; [|destruct (decide (k0 = k))]; discriminate. Qed.

Lemma store_arguments_nonempty (acc d : arguments.Dict Float)
    (args : list graphql.ArgumentNode) :
  store_arguments acc args = Ok d -> acc <> [] \/ args <> [] -> d <> [].
Proof.
  revert acc. induction args as [|arg args IH]; intros acc; simpl.
  - intros [= ->] [H|H]; done.
  - destruct (stored_value (graphql.arg_value arg)) as [v|e]; [|discriminate].
    intros Hs _. apply (IH _ Hs). left. apply dict_set_nonempty.
Qed.

Lemma store_arguments_lookup (acc d : arguments.Dict Float)
    (args : list graphql.ArgumentNode) (k : string) :
  store_arguments acc args = Ok d ->
  match arguments.last_argument k args with
  | Some vn => exists v, stored_value vn = Ok v /\ arguments.dict_get k d = Some v
  | None => arguments.dict_get k d = arguments.dict_get k acc
  end.
Proof.
  revert acc. induction args as [|arg args IH]; intros acc; simpl.
  - by intros [= ->].
  - destruct (stored_value (graphql.arg_value arg)) as [v|e] eqn:Ev; [|discriminate].
    intros Hs. specialize (IH _ Hs).
    destruct (arguments.last_argument k args) as [vn|]; [exact IH|].
    rewrite dict_get_set in IH.
    destruct (decide (graphql.arg_name arg = k)); [|exact IH]. by exists v.
Qed.

Lemma store_arguments_returns (acc : arguments.Dict Float)
    (args : list graphql.ArgumentNode) :
  Forall storable args -> exists d, store_arguments acc args = Ok d.
Proof.
  revert acc. induction args as [|arg args IH]; intros acc Hs; simpl.
  - by exists acc.
  - destruct (Forall_inv Hs) as [v ->]. apply IH, (Forall_inv_tail Hs).
Qed.

Lemma store_arguments_raises (acc : arguments.Dict Float)
    (args : list graphql.ArgumentNode) :
  (exists e, store_arguments acc args = Raise e)
  <-> Exists (fun arg => exists e, stored_value (graphql.arg_value arg) = Raise e) args.
Proof.
  revert acc. induction args as [|arg args IH]; intros acc; simpl.
  - split; [intros [e [=]]|intros H; inversion H].
  - rewrite Exists_cons.
    destruct (stored_value (graphql.arg_value arg)) as [v|e] eqn:Ev.
    + rewrite IH. split; [by right|]. by intros [[e [=]]|H].
    + split; [left|]; by exists e.
Qed.

Lemma stored_value_error (vn : graphql.ValueNode) (e : arguments.Error Exn) :
  stored_value vn = Raise e -> exists e', e = arguments.BuiltinError e'.
Proof.
  destruct vn; simpl; try discriminate.
  - destruct (int_of_str value); [discriminate|]. intros [= <-]. by eexists.
  - destruct (float_of_str value); [discriminate|]. intros [= <-]. by eexists.
Qed.

Lemma store_arguments_error (acc : arguments.Dict Float)
    (args : list graphql.ArgumentNode) (e : arguments.Error Exn) :
  store_arguments acc args = Raise e -> exists e', e = arguments.BuiltinError e'.
Proof.
  revert acc. induction args as [|arg args IH]; intros acc; simpl; [discriminate|].
  destruct (stored_value (graphql.arg_value arg)) as [v|e0] eqn:Ev.
  - apply IH.
  - intros [= <-]. by eapply stored_value_error.
Qed.

(** What the guard establishes: the directive that [next] finds. *)
Lemma next_directive_find (dn : string) (ds : list graphql.DirectiveNode) :
  arguments.next_directive (Exn := Exn) dn ds
  = match List.find (fun d => bool_decide (graphql.name_value d = dn)) ds with
    | Some d => Ok d
    | None => Raise arguments.StopIteration
    end.
Proof.
  induction ds as [|d ds IH]; simpl; [reflexivity|].
  by destruct (bool_decide (graphql.name_value d = dn)).
Qed.

Lemma has_given_directive_find (f : graphql.GraphQLField) (dn : string) :
  directive.has_given_directive f dn
  = match arguments.first_directive dn f with Some _ => true | None => false end.
Proof.
  unfold directive.has_given_directive, arguments.first_directive.
  destruct (graphql.ast_node f) as [node|]; [|reflexivity].
  induction (graphql.directives node) as [|d ds IH]; simpl; [reflexivity|].
  by destruct (bool_decide (graphql.name_value d = dn)).
Qed.

Lemma get_directive_arguments_present (f : graphql.GraphQLField) (dn : string)
    (d : graphql.DirectiveNode) :
  arguments.first_directive dn f = Some d ->
  get_directive_arguments f dn = store_arguments [] (graphql.arguments d).
Proof.
  intros Hd. unfold arguments.get_directive_arguments.
  rewrite has_given_directive_find, Hd. unfold arguments.first_directive in Hd.
  destruct (graphql.ast_node f) as [node|]; [|discriminate]. simpl.
  by rewrite next_directive_find, Hd.
Qed.

Lemma get_directive_arguments_absent (f : graphql.GraphQLField) (dn : string) :
  arguments.first_directive dn f = None ->
  get_directive_arguments f dn = Ok [].
Proof.
  intros Hd. unfold arguments.get_directive_arguments.
  rewrite has_given_directive_find, Hd. by destruct (graphql.ast_node f).
Qed.

(** X9. [get_argument_content] reads the first directive of the given
    name and, of its arguments of the given name, the last one.  It returns
    [None] when the element has no such directive or the directive no such
    argument.  It raises only when Python's conversion of an integer or
    float literal of that directive fails, and never [StopIteration]. *)
Theorem get_argument_content_last (f : graphql.GraphQLField) (dn an : string) :
  match arguments.first_directive dn f with
  | None => get_argument_content f dn an = Ok None
  | Some d =>
      (Forall storable (graphql.arguments d) ->
       match arguments.last_argument an (graphql.arguments d) with
       | Some vn => exists v, stored_value vn = Ok v
                              /\ get_argument_content f dn an = Ok (Some v)
       | None => get_argument_content f dn an = Ok None
       end)
      /\ ((exists e, get_argument_content f dn an = Raise e)
          <-> Exists (fun arg => exists e,
                        stored_value (graphql.arg_value arg) = Raise e)
                (graphql.arguments d))
  end
  /\ get_argument_content f dn an <> Raise arguments.StopIteration.
Proof.
  unfold arguments.get_argument_content.
  destruct (arguments.first_directive dn f) as [d|] eqn:Hd.
  2: { rewrite (get_directive_arguments_absent f dn Hd). by split. }
  rewrite (get_directive_arguments_present f dn d Hd).
  split; [split|].
  - intros Hs. destruct (store_arguments_returns [] _ Hs) as [args Ha].
    rewrite Ha. pose proof (store_arguments_lookup [] args _ an Ha) as Hl.
    destruct (arguments.last_argument an (graphql.arguments d)) as [vn|].
    + destruct Hl as (v & Hv & Hg). exists v. split; [exact Hv|].
      destruct args as [|p args]; [discriminate Hg|].
      unfold arguments.dict_contains. by rewrite Hg.
    + simpl in Hl. destruct args as [|p args]; [reflexivity|].
      unfold arguments.dict_contains. by rewrite Hl.
  - rewrite <- (store_arguments_raises []).
    destruct (store_arguments [] (graphql.arguments d)) as [args|e].
    + split; [|by intros [e [=]]].
      destruct args as [|p args]; [by intros [e [=]]|].
      destruct (arguments.dict_contains an (p :: args)); by intros [e [=]].
    + split; intros _; by exists e.
  - destruct (store_arguments [] (graphql.arguments d)) as [args|e] eqn:Ea.
    + destruct args as [|p args]; [discriminate|].
      destruct (arguments.dict_contains an (p :: args)); discriminate.
    + destruct (store_arguments_error _ _ _ Ea) as [e' ->]. discriminate.
Qed.

(** X10. [get_cardinality] returns [None] exactly when the field has no
    [cardinality] directive.  When the bounds [min] and [max] of the
    directive are integer literals or absent, and the literals of the
    directive can be converted, it returns the cardinality with the numbers
    of the literals, an absent bound being [None]. *)
Theorem get_cardinality_literals (f : graphql.GraphQLField) :
  (get_cardinality f = Ok None
   <-> arguments.first_directive "cardinality" f = None)
  /\ (forall d,
        arguments.first_directive "cardinality" f = Some d ->
        Forall storable (graphql.arguments d) ->
        arguments.literal_or_absent "min" (graphql.arguments d) = true ->
        arguments.literal_or_absent "max" (graphql.arguments d) = true ->
        get_cardinality f
        = Ok (Some (field.mkCardinality
                      (arguments.literal_bound int_of_str "min" (graphql.arguments d))
                      (arguments.literal_bound int_of_str "max" (graphql.arguments d))))).
Proof.
  unfold arguments.get_cardinality. rewrite has_given_directive_find.
  split.
  - destruct (arguments.first_directive "cardinality" f) as [d|] eqn:Hd;
      [|by split].
    split; [|discriminate].
    destruct (get_directive_arguments f "cardinality") as [[|p args]|e];
      [discriminate| |discriminate].
    destruct (bound "min" (p :: args)); [|discriminate].
    destruct (bound "max" (p :: args)); discriminate.
  - intros d Hd Hs Hmin Hmax. rewrite Hd.
    rewrite (get_directive_arguments_present f _ d Hd).
    destruct (store_arguments_returns [] _ Hs) as [args Ha]. rewrite Ha.
    pose proof (store_arguments_lookup [] args _ "min" Ha) as Lmin.
    pose proof (store_arguments_lookup [] args _ "max" Ha) as Lmax.
    unfold arguments.literal_or_absent in Hmin, Hmax.
    unfold arguments.literal_bound.
    assert (forall k,
              match arguments.last_argument k (graphql.arguments d) with
              | Some vn => exists v, stored_value vn = Ok v
                                     /\ arguments.dict_get k args = Some v
              | None => arguments.dict_get k args = arguments.dict_get k []
              end ->
              match arguments.last_argument k (graphql.arguments d) with
              | None | Some (graphql.IntValueNode _) => true
              | Some _ => false
              end = true ->
              bound k args
              = Ok match arguments.last_argument k (graphql.arguments d) with
                   | Some (graphql.IntValueNode s) =>
                       match int_of_str s with Ok z => Some z | Raise _ => None end
                   | _ => None
                   end) as Hb.
    { intros k Hl Hk. unfold arguments.bound.
      destruct (arguments.last_argument k (graphql.arguments d)) as [vn|].
      - destruct vn; try discriminate Hk. destruct Hl as (v & Hv & ->).
        simpl in Hv. destruct (int_of_str value); [|discriminate Hv].
        by injection Hv as <-.
      - simpl in Hl. by rewrite Hl. }
    rewrite (Hb "min" Lmin Hmin), (Hb "max" Lmax Hmax).
    destruct args as [|p args]; [|reflexivity].
    destruct (arguments.last_argument "min" (graphql.arguments d)) as [vn|];
      [by destruct Lmin as (v & _ & [=])|].
    destruct (arguments.last_argument "max" (graphql.arguments d)) as [vn|];
      [by destruct Lmax as (v & _ & [=])|].
    reflexivity.
Qed.

(** X11. A bound given as [null] (or as a variable, list or object) is not
    treated as absent: the directive's argument is stored as its AST node,
    the test [is not None] lets it pass and [int] raises [TypeError]. *)
Theorem get_cardinality_null_bound (f : graphql.GraphQLField)
    (d : graphql.DirectiveNode) (vn : graphql.ValueNode) :
  arguments.first_directive "cardinality" f = Some d ->
  Forall storable (graphql.arguments d) ->
  arguments.kept_as_node vn = true ->
  (arguments.last_argument "min" (graphql.arguments d) = Some vn ->
   get_cardinality f = Raise arguments.TypeError)
  /\ (arguments.literal_or_absent "min" (graphql.arguments d) = true ->
      arguments.last_argument "max" (graphql.arguments d) = Some vn ->
      get_cardinality f = Raise arguments.TypeError).
Proof.
  intros Hd Hs Hk. unfold arguments.get_cardinality.
  rewrite has_given_directive_find, Hd.
  rewrite (get_directive_arguments_present f _ d Hd).
  destruct (store_arguments_returns [] _ Hs) as [args Ha]. rewrite Ha.
  pose proof (store_arguments_lookup [] args _ "min" Ha) as Lmin.
  pose proof (store_arguments_lookup [] args _ "max" Ha) as Lmax.
  assert (stored_value vn = Ok (arguments.PyNode vn)) as Hv
    by (destruct vn; try discriminate Hk; reflexivity).
  assert (forall k, arguments.dict_get k args = Some (arguments.PyNode vn) ->
                    bound k args = Raise arguments.TypeError /\ args <> []) as Hn.
  { intros k Hg. split; [unfold arguments.bound; by rewrite Hg|].
    intros ->. discriminate Hg. }
  split.
  - intros Hm. rewrite Hm in Lmin. destruct Lmin as (v & Hv' & Hg).
    rewrite Hv in Hv'. injection Hv' as <-.
    destruct (Hn _ Hg) as [Hb Hne]. destruct args as [|p args]; [done|].
    by rewrite Hb.
  - intros Hmin Hm. rewrite Hm in Lmax. destruct Lmax as (v & Hv' & Hg).
    rewrite Hv in Hv'. injection Hv' as <-.
    destruct (Hn _ Hg) as [Hb Hne].
    assert (exists m, bound "min" args = Ok m) as [m Hbm].
    { unfold arguments.literal_or_absent in Hmin. unfold arguments.bound.
      destruct (arguments.last_argument "min" (graphql.arguments d)) as [vm|].
      - destruct vm; try discriminate Hmin. destruct Lmin as (v & Hv' & ->).
        simpl in Hv'. destruct (int_of_str value) as [z|e] eqn:Ez; [|discriminate Hv'].
        injection Hv' as <-. simpl. by eexists.
      - simpl in Lmin. rewrite Lmin. by eexists. }
    destruct args as [|p args]; [done|]. by rewrite Hbm, Hb.
Qed.

End arguments_facts.

Lemma get_cardinality_null_bound_witness :
  arguments.get_cardinality arguments.int_of_digits
    (fun _ : string => Raise tt) (fun x : Empty_set => match x with end)
    arguments.doors_null
  = Raise arguments.TypeError.
Proof.
  refine (proj1 (get_cardinality_null_bound arguments.int_of_digits
                   (fun _ : string => Raise tt)
                   (fun x : Empty_set => match x with end)
                   arguments.doors_null
                   (graphql.mkDirective "cardinality"
                      [graphql.mkArgument "min" graphql.NullValueNode])
                   graphql.NullValueNode eq_refl _ eq_refl) eq_refl).
  repeat constructor. by eexists.
Defined.

(** ** Sorting a sorted N-Triples document *)

(** X12. Sorting is idempotent on what [serialize_sorted_ntriples] returns:
    for a graph of N-Triples rows, [_sort_ntriples_lines] maps the sorted
    serialization to itself. *)
Theorem sort_ntriples_lines_idempotent (g : rdflib.Graph) :
  Forall (fun r => spec_nt.is_nt_row r = true) (rdflib.nt_rows g) ->
  rdf_materializer._sort_ntriples_lines (rdf_materializer.serialize_sorted_ntriples g)
  = rdf_materializer.serialize_sorted_ntriples g.
Proof.
  destruct g as [rows]. simpl. intros Hok.
  rewrite (sort_ntriples_lines_rows rows Hok).
  destruct rows as [|x l] eqn:E; [reflexivity|]. rewrite <- E in *.
  assert (rdf_materializer.sorted rows <> []) as Hne.
  { intros He. pose proof (sorted_permutation rows) as Hp. rewrite He, E in Hp.
    by apply Permutation_nil_cons in Hp. }
  assert (Forall (fun r => spec_nt.is_nt_row r = true) (rdf_materializer.sorted rows))
    as Hoks by by rewrite sorted_permutation.
  rewrite <- (serialize_nt_join _ Hne).
  change (rdf_materializer._sort_ntriples_lines
            (rdflib.serialize_nt (rdflib.mkGraph (rdf_materializer.sorted rows))))
    with (rdf_materializer.serialize_sorted_ntriples
            (rdflib.mkGraph (rdf_materializer.sorted rows))).
  rewrite (sort_ntriples_lines_rows _ Hoks).
  rewrite (sorted_of_permutation _ _ (sorted_permutation rows)).
  rewrite (serialize_nt_join _ Hne).
  destruct (rdf_materializer.sorted rows); [done|reflexivity].
Qed.

Lemma sort_ntriples_lines_idempotent_witness :
  rdf_materializer._sort_ntriples_lines
    (rdf_materializer.serialize_sorted_ntriples spec_nt.graph_ba)
  = rdf_materializer.serialize_sorted_ntriples spec_nt.graph_ba.
Proof.
  apply (sort_ntriples_lines_idempotent spec_nt.graph_ba).
  repeat constructor.
Defined.

(** ** Pretty-printing of result dicts *)

Lemma linebreak_newline : pretty.is_linebreak pystr.nl = true.
Proof. reflexivity. Qed.

Lemma splitlines_from_no_newline (after_cr : bool) (s : string) :
  Forall (fun l => pystr.contains l spec_nt.newline = false)
    (pretty.splitlines_from after_cr s).
Proof.
  revert after_cr. induction s as [|c s IH]; intros after_cr; simpl; [constructor|].
  destruct (after_cr && bool_decide (c = pystr.nl)); [apply IH|].
  destruct (pretty.is_linebreak c) eqn:Eb.
  - constructor; [reflexivity|apply IH].
  - assert (bool_decide (c = pystr.nl) = false) as Hc.
    { apply bool_decide_eq_false_2. intros ->. by rewrite linebreak_newline in Eb. }
    specialize (IH false).
    destruct (pretty.splitlines_from false s) as [|l rest].
    + constructor; [|constructor]. by rewrite contains_newline_cons, Hc.
    + constructor; [|by eapply Forall_inv_tail].
      rewrite contains_newline_cons, Hc. exact (Forall_inv IH).
Qed.

Section pretty_facts.
Context {Other : Type}.

Lemma PyObj_induction (P : pretty.PyObj Other -> Prop) :
  (forall s, P (pretty.PyString s)) ->
  (forall items, Forall (fun kv => P (snd kv)) items -> P (pretty.PyDict items)) ->
  (forall items, Forall P items -> P (pretty.PyList items)) ->
  (forall o, P (pretty.PyOther o)) ->
  forall obj, P obj.
Proof.
  intros Hs Hd Hl Ho. fix IH 1. intros [s|items|items|o].
  - apply Hs.
  - apply Hd. induction items as [|[k v] items IHi]; constructor; [apply IH|exact IHi].
  - apply Hl. induction items as [|v items IHi]; constructor; [apply IH|exact IHi].
  - apply Ho.
Qed.

Lemma representer_newline_free (obj : pretty.PyObj Other) :
  pretty.newline_free (pretty.multiline_str_representer obj) = true.
Proof.
  induction obj as [s|items IH|items IH|o] using PyObj_induction; simpl.
  - destruct (pystr.contains s (String pystr.nl EmptyString)) eqn:E; simpl.
    + pose proof (splitlines_from_no_newline false s) as Hl.
      unfold pretty.splitlines.
      induction Hl as [|l ls Hl _ IHl]; [reflexivity|]. simpl.
      change (String pystr.nl EmptyString) with spec_nt.newline.
      by rewrite Hl, IHl.
    + by rewrite E.
  - induction IH as [|kv items Hkv _ IHi]; [reflexivity|]. simpl.
    by rewrite Hkv, IHi.
  - induction IH as [|v items Hv _ IHi]; [reflexivity|]. simpl.
    by rewrite Hv, IHi.
  - reflexivity.
Qed.

Lemma representer_fixed (obj : pretty.PyObj Other) :
  pretty.newline_free obj = true -> pretty.multiline_str_representer obj = obj.
Proof.
  induction obj as [s|items IH|items IH|o] using PyObj_induction; simpl.
  - intros H%negb_true_iff. by rewrite H.
  - intros H. f_equal. induction IH as [|[k v] items Hkv _ IHi]; [reflexivity|].
    simpl in H, Hkv. apply andb_true_iff in H as [H1 H2]. simpl.
    by rewrite (Hkv H1), (IHi H2).
  - intros H. f_equal. induction IH as [|v items Hv _ IHi]; [reflexivity|].
    simpl in H. apply andb_true_iff in H as [H1 H2]. simpl.
    by rewrite (Hv H1), (IHi H2).
  - reflexivity.
Qed.

(** X13. In the dict that [pretty_print_dict_json] returns no string holds
    a newline (dict keys apart), the keys are those of the argument in the
    same order, and printing the result again changes nothing. *)
Theorem pretty_print_dict_json_idempotent (result : list (string * pretty.PyObj Other)) :
  Forall (fun kv => pretty.newline_free (snd kv) = true)
    (pretty.pretty_print_dict_json result)
  /\ List.map fst (pretty.pretty_print_dict_json result) = List.map fst result
  /\ pretty.pretty_print_dict_json (pretty.pretty_print_dict_json result)
     = pretty.pretty_print_dict_json result.
Proof.
  unfold pretty.pretty_print_dict_json.
  induction result as [|[k v] result (IH1 & IH2 & IH3)]; [by repeat constructor|].
  simpl. split; [|split].
  - constructor; [apply representer_newline_free|exact IH1].
  - by rewrite IH2.
  - by rewrite IH3, (representer_fixed _ (representer_newline_free v)).
Qed.

(** X14. A dict whose strings are single lines is returned as it is. *)
Theorem pretty_print_dict_json_single_lines
    (result : list (string * pretty.PyObj Other)) :
  Forall (fun kv => pretty.newline_free (snd kv) = true) result ->
  pretty.pretty_print_dict_json result = result.
Proof.
  unfold pretty.pretty_print_dict_json.
  induction 1 as [|[k v] result Hv _ IH]; [reflexivity|]. simpl.
  by rewrite (representer_fixed v Hv), IH.
Qed.

End pretty_facts.

Lemma pretty_print_dict_json_single_lines_witness :
  pretty.pretty_print_dict_json pretty.single_lines = pretty.single_lines.
Proof.
  apply (pretty_print_dict_json_single_lines pretty.single_lines).
  repeat constructor.
Defined.

(** ** The output of an inspector command *)

Lemma lstrip_length (s : string) :
  (String.length (pystr.lstrip s) <= String.length s)%nat.
Proof.
  induction s as [|c s IH]; simpl; [lia|].
  destruct (pystr.isspace c); simpl; lia.
Qed.

Lemma lstrip_head (c : ascii) (s : string) :
  pystr.lstrip (String c s) = String c s -> pystr.isspace c = false.
Proof.
  simpl. destruct (pystr.isspace c) eqn:E; [|reflexivity]. intros H.
  pose proof (lstrip_length s) as Hl. rewrite H in Hl. simpl in Hl. lia.
Qed.

Lemma lstrip_idempotent (s : string) : pystr.lstrip (pystr.lstrip s) = pystr.lstrip s.
Proof.
  induction s as [|c s IH]; [reflexivity|]. simpl.
  destruct (pystr.isspace c) eqn:E; [exact IH|]. simpl. by rewrite E.
Qed.

Lemma rstrip_idempotent (s : string) : pystr.rstrip (pystr.rstrip s) = pystr.rstrip s.
Proof.
  induction s as [|c s IH]; [reflexivity|]. simpl.
  destruct (pystr.isspace c && negb (pystr.truthy (pystr.rstrip s))) eqn:E;
    [reflexivity|].
  simpl. by rewrite IH, E.
Qed.

Lemma lstrip_rstrip (t : string) :
  pystr.lstrip t = t -> pystr.lstrip (pystr.rstrip t) = pystr.rstrip t.
Proof.
  destruct t as [|c t]; [reflexivity|]. intros H%lstrip_head.
  simpl. rewrite H. simpl. by rewrite H.
Qed.

Lemma strip_fixed (s : string) :
  pystr.lstrip (pystr.strip s) = pystr.strip s
  /\ pystr.rstrip (pystr.strip s) = pystr.strip s.
Proof.
  unfold pystr.strip. split.
  - apply lstrip_rstrip, lstrip_idempotent.
  - apply rstrip_idempotent.
Qed.

Lemma strip_fixed_inv (s : string) :
  pystr.strip s = s -> pystr.lstrip s = s /\ pystr.rstrip s = s.
Proof. intros H. destruct (strip_fixed s) as [Hl Hr]. by rewrite H in Hl, Hr. Qed.

Lemma strip_idempotent (s : string) : pystr.strip (pystr.strip s) = pystr.strip s.
Proof.
  destruct (strip_fixed s) as [Hl Hr]. unfold pystr.strip at 1. by rewrite Hl, Hr.
Qed.

Section run_facts.
Context {Exn : Type}.
Variable subprocess_run :
  list string -> pyresult Exn graphql_inspector.CompletedProcess.
Variable str_of_int : Z -> string.

Local Abbreviation _run_command :=
  (graphql_inspector._run_command subprocess_run str_of_int).

Lemma stripped_fixed (stream : option string) :
  pystr.strip (graphql_inspector.stripped stream) = graphql_inspector.stripped stream
  /\ (graphql_inspector.stripped stream = EmptyString
      <-> graphql_inspector.blank stream = true).
Proof.
  destruct stream as [s|]; simpl; [|by split].
  destruct s as [|c s]; [by split|]. cbn [pystr.truthy].
  split; [apply strip_idempotent|].
  rewrite negb_true_iff. by destruct (pystr.strip (String c s)).
Qed.

Lemma combine_stripped (a b : option string) :
  pystr.strip (graphql_inspector.combine (graphql_inspector.stripped a)
                 (graphql_inspector.stripped b))
  = graphql_inspector.combine (graphql_inspector.stripped a)
      (graphql_inspector.stripped b)
  /\ (graphql_inspector.combine (graphql_inspector.stripped a)
        (graphql_inspector.stripped b) = EmptyString
      <-> graphql_inspector.blank a = true /\ graphql_inspector.blank b = true).
Proof.
  destruct (stripped_fixed a) as [Ha Hae], (stripped_fixed b) as [Hb Hbe].
  unfold graphql_inspector.combine.
  destruct (graphql_inspector.stripped b) as [|cb sb] eqn:Eb; cbn [pystr.truthy].
  { split; [exact Ha|]. rewrite Hae. split; [intros H|tauto].
    split; [exact H|]. by apply Hbe. }
  destruct (graphql_inspector.stripped a) as [|ca sa] eqn:Ea; cbn [pystr.truthy].
  { split; [exact Hb|]. split; [discriminate|]. intros [_ H%Hbe]. discriminate. }
  split.
  - destruct (strip_fixed_inv _ Ha) as [Hla _], (strip_fixed_inv _ Hb) as [_ Hrb].
    unfold pystr.strip.
    rewrite (lstrip_fixed_append (String ca sa) _ eq_refl Hla).
    rewrite <- append_assoc. by apply rstrip_append_fixed.
  - split; [discriminate|]. intros [H%Hae _]. discriminate.
Qed.

(** X15. [_run_command] raises no [ValueError]: each of the four commands
    has a command line, in which the schema path is the last word for
    [validate] and the third word otherwise.  When the process runs, the
    result carries its return code and the command line joined by spaces;
    its output has no white space at either end and is empty exactly when
    both streams are blank; the records logged before stay, and a warning
    is logged exactly when the return code is not 0.  When the process
    cannot be started the exception is passed on. *)
Theorem run_command_output (self : graphql_inspector.GraphQLInspector)
    (command : graphql_inspector.InspectorCommands) (args : list string)
    (log : list graphql_inspector.LogRecord) :
  exists cmd,
    graphql_inspector.build_command (Exn := Exn) self command args = Ok cmd
    /\ cmd = (if bool_decide (command = graphql_inspector.VALIDATE)
              then [graphql_inspector.cli_cmd self; graphql_inspector.value command]
                   ++ args ++ [graphql_inspector.schema_path self]
              else [graphql_inspector.cli_cmd self; graphql_inspector.value command;
                    graphql_inspector.schema_path self] ++ args)
    /\ match subprocess_run cmd with
       | Raise e =>
           exists records,
             _run_command self command args log
             = (Raise (graphql_inspector.ProcessError e), log ++ records)
       | Ok process =>
           exists out records,
             _run_command self command args log = (Ok out, log ++ records)
             /\ graphql_inspector.returncode out
                = graphql_inspector.process_returncode process
             /\ graphql_inspector.command out = pystr.join " " cmd
             /\ pystr.strip (graphql_inspector.output out)
                = graphql_inspector.output out
             /\ (graphql_inspector.output out = EmptyString
                 <-> graphql_inspector.blank (graphql_inspector.stdout process) = true
                     /\ graphql_inspector.blank (graphql_inspector.stderr process) = true)
             /\ (existsb graphql_inspector.is_warning records = true
                 <-> graphql_inspector.process_returncode process <> 0)
       end.
Proof.
  assert (exists cmd,
            graphql_inspector.build_command (Exn := Exn) self command args = Ok cmd
            /\ cmd = (if bool_decide (command = graphql_inspector.VALIDATE)
                      then [graphql_inspector.cli_cmd self;
                            graphql_inspector.value command]
                           ++ args ++ [graphql_inspector.schema_path self]
                      else [graphql_inspector.cli_cmd self;
                            graphql_inspector.value command;
                            graphql_inspector.schema_path self] ++ args))
    as (cmd & Hc & Hcmd) by (destruct command; eexists; split; reflexivity).
  exists cmd. split; [exact Hc|]. split; [exact Hcmd|]. clear Hcmd.
  unfold graphql_inspector._run_command. rewrite Hc.
  destruct (subprocess_run cmd) as [process|e]; [|by eexists].
  destruct (combine_stripped (graphql_inspector.stdout process)
              (graphql_inspector.stderr process)) as [Hs He].
  set (output := graphql_inspector.combine _ _) in *.
  eexists. eexists. split.
  { rewrite <- !app_assoc.
    instantiate (1 :=
      [graphql_inspector.LogInfo ("Running command: " +:+ pystr.join " " cmd)]
      ++ (if pystr.truthy output
          then [graphql_inspector.LogDebug
                  ("OUTPUT:" +:+ String pystr.nl EmptyString +:+ output)]
          else [])
      ++ (if negb (graphql_inspector.process_returncode process =? 0)
          then [graphql_inspector.LogWarning
                  ("Command failed with return code "
                   +:+ str_of_int (graphql_inspector.process_returncode process))]
          else [])
      ++ [graphql_inspector.LogInfo
            ("Process completed with return code: "
             +:+ str_of_int (graphql_inspector.process_returncode process))]).
    destruct (pystr.truthy output),
      (negb (graphql_inspector.process_returncode process =? 0));
      simpl; rewrite <- ?app_assoc; reflexivity. }
  simpl. split; [reflexivity|]. split; [reflexivity|].
  split; [exact Hs|]. split; [exact He|].
  destruct (pystr.truthy output);
    destruct (Z.eqb_spec (graphql_inspector.process_returncode process) 0) as [->|Hne];
    simpl; split; try done.
Qed.

End run_facts.

(** ** The command [diff graphql] *)

Section diff_facts.
Context {DiffChange Inspector Exn : Type}.
Variable create_tempfile_to_composed_schema :
  list pathlib.Path -> pyresult (@cli_diff.Exception Exn) pathlib.Path.
Variable new_inspector :
  pathlib.Path -> option pathlib.Path -> pyresult (@cli_diff.Exception Exn) Inspector.
Variable diff_structured :
  Inspector -> pathlib.Path -> pyresult (@cli_diff.Exception Exn) (list DiffChange).
Variable criticality : DiffChange -> string.
Variable json_dumps : list DiffChange -> string.
Variable write_text :
  pathlib.Path -> string -> pyresult (@cli_diff.Exception Exn) unit.

Local Abbreviation diff_graphql :=
  (cli_diff.diff_graphql create_tempfile_to_composed_schema new_inspector
     diff_structured criticality json_dumps write_text).

Local Ltac run_diff :=
  unfold cli_diff.diff_graphql, cli_diff.bind, cli_diff.try_finally,
    cli_diff.create_tempfile, cli_diff.log_record, cli_diff.call,
    cli_diff.structured_diff_or_exit, cli_diff.write_output, cli_diff.sys_exit,
    cli_diff.ret, cli_diff.bind; cbn [fst snd].

Local Ltac same_calls :=
  repeat match goal with
  | H : Ok _ = Ok _ |- _ => injection H as H; subst
  | H : Raise _ = Raise _ |- _ => injection H as H; subst
  | H : cli_diff.RuntimeError _ = cli_diff.RuntimeError _ |- _ =>
      injection H as H; subst
  | H : Ok _ = Raise _ |- _ => discriminate H
  | H : Raise _ = Ok _ |- _ => discriminate H
  | H : cli_diff.RuntimeError _ = cli_diff.OtherError _ |- _ => discriminate H
  | H : cli_diff.OtherError _ = cli_diff.RuntimeError _ |- _ => discriminate H
  | E : ?t = _, H : ?t = _ |- _ => rewrite E in H
  end.

(** X16. [diff graphql] never returns normally.  It exits with status 2
    exactly when both schemas were composed, the inspector was built and the
    structured diff raised a [RuntimeError]; a [RuntimeError] raised while
    the inspector is built is not caught and escapes.  When the diff is
    obtained and put out it exits with 1 if a change is not [NON_BREAKING]
    and with 0 otherwise, having written the JSON text to the output file or,
    without one, printed it. *)
Theorem diff_graphql_exit_status (schemas val_schemas : list pathlib.Path)
    (output inspector_path : option pathlib.Path) (w : cli_diff.World) :
  (forall a, fst (diff_graphql schemas val_schemas output inspector_path w)
             <> cli_diff.Returned a)
  /\ (fst (diff_graphql schemas val_schemas output inspector_path w)
      = cli_diff.SystemExit 2
      <-> exists inp val inspector msg,
            create_tempfile_to_composed_schema schemas = Ok inp
            /\ create_tempfile_to_composed_schema val_schemas = Ok val
            /\ new_inspector inp inspector_path = Ok inspector
            /\ diff_structured inspector val = Raise (cli_diff.RuntimeError msg))
  /\ (forall inp val msg,
        create_tempfile_to_composed_schema schemas = Ok inp ->
        create_tempfile_to_composed_schema val_schemas = Ok val ->
        new_inspector inp inspector_path = Raise (cli_diff.RuntimeError msg) ->
        fst (diff_graphql schemas val_schemas output inspector_path w)
        = cli_diff.Uncaught (cli_diff.RuntimeError msg))
  /\ (forall inp val inspector changes,
        create_tempfile_to_composed_schema schemas = Ok inp ->
        create_tempfile_to_composed_schema val_schemas = Ok val ->
        new_inspector inp inspector_path = Ok inspector ->
        diff_structured inspector val = Ok changes ->
        match output with
        | Some out =>
            match write_text out (json_dumps changes) with
            | Ok _ =>
                fst (diff_graphql schemas val_schemas output inspector_path w)
                = cli_diff.SystemExit
                    (if cli_diff.has_breaking criticality changes then 1 else 0)
                /\ cli_diff.files_written
                     (snd (diff_graphql schemas val_schemas output inspector_path w))
                   = cli_diff.files_written w ++ [(out, json_dumps changes)]
                /\ ~ In (cli_diff.LogPrint (json_dumps changes))
                        (drop (length (cli_diff.log w))
                           (cli_diff.log
                              (snd (diff_graphql schemas val_schemas output
                                      inspector_path w))))
            | Raise e =>
                fst (diff_graphql schemas val_schemas output inspector_path w)
                = cli_diff.Uncaught e
            end
        | None =>
            fst (diff_graphql schemas val_schemas output inspector_path w)
            = cli_diff.SystemExit
                (if cli_diff.has_breaking criticality changes then 1 else 0)
            /\ cli_diff.files_written
                 (snd (diff_graphql schemas val_schemas output inspector_path w))
               = cli_diff.files_written w
            /\ In (cli_diff.LogPrint (json_dumps changes))
                 (cli_diff.log
                    (snd (diff_graphql schemas val_schemas output inspector_path w)))
        end).
Proof.
  run_diff.
  destruct (create_tempfile_to_composed_schema schemas) as [inp|e1] eqn:E1.
  2: { repeat split; try discriminate. intros (? & ? & ? & ? & [=] & _). }
  destruct (create_tempfile_to_composed_schema val_schemas) as [val|e2] eqn:E2.
  2: { repeat split; try discriminate. intros (? & ? & ? & ? & _ & [=] & _). }
  cbn [cli_diff.log cli_diff.temp_files cli_diff.files_written].
  destruct (new_inspector inp inspector_path) as [inspector|e3] eqn:E3.
  2: { split; [discriminate|]. split; [|split].
       - split; [discriminate|]. intros (? & ? & ? & ? & ? & ? & ? & ?). same_calls.
       - intros. same_calls. reflexivity.
       - intros. same_calls. }
  destruct (diff_structured inspector val) as [changes|[msg|e4]] eqn:E4.
  - split.
    { destruct output as [out|]; cbn; [destruct (write_text _ _)|]; discriminate. }
    split.
    { split.
      - destruct output as [out|]; cbn; [destruct (write_text _ _); cbn|];
          destruct (cli_diff.has_breaking criticality changes); discriminate.
      - intros (? & ? & ? & ? & ? & ? & ? & ?). same_calls. }
    split; [intros; same_calls|].
    intros inp' val' inspector' changes' H1 H2 H3 H4. same_calls.
    destruct output as [out|]; cbn.
    + destruct (write_text out (json_dumps changes')) as [[]|e]; cbn; [|reflexivity].
      split; [reflexivity|]. split; [reflexivity|].
      rewrite <- !app_assoc, drop_app_length. cbn. intros [[=]|[[=]|[]]].
    + split; [reflexivity|]. split; [reflexivity|].
      rewrite !in_app_iff. right. by left.
  - cbn. split; [discriminate|]. split; [|split].
    + split; [|reflexivity]. intros _. by exists inp, val, inspector, msg.
    + intros. same_calls.
    + intros. same_calls.
  - cbn. split; [discriminate|]. split; [|split].
    + split; [discriminate|]. intros (? & ? & ? & ? & ? & ? & ? & ?). same_calls.
    + intros. same_calls.
    + intros. same_calls.
Qed.

Lemma unlink_both (l : list pathlib.Path) (inp val : pathlib.Path) :
  List.filter (fun q => negb (bool_decide (q = val)))
    (List.filter (fun q => negb (bool_decide (q = inp))) ((l ++ [inp]) ++ [val]))
  = List.filter (fun q => negb (bool_decide (q = inp)) && negb (bool_decide (q = val))) l.
Proof.
  assert (forall k : list pathlib.Path,
            List.filter (fun q => negb (bool_decide (q = val)))
              (List.filter (fun q => negb (bool_decide (q = inp))) k)
            = List.filter (fun q => negb (bool_decide (q = inp))
                                    && negb (bool_decide (q = val))) k) as ->.
  { induction k as [|q k IH]; [reflexivity|]. cbn.
    destruct (bool_decide (q = inp)); cbn; [exact IH|].
    destruct (bool_decide (q = val)); cbn; [exact IH|]. by rewrite IH. }
  rewrite !List.filter_app. cbn [List.filter].
  rewrite (bool_decide_eq_true_2 (inp = inp) eq_refl).
  rewrite (bool_decide_eq_true_2 (val = val) eq_refl).
  cbn. rewrite andb_false_r. by rewrite !app_nil_r.
Qed.

(** X17. Once both temporary files exist, [diff graphql] removes both
    however it ends; the other temporary files stay. *)
Theorem diff_graphql_removes_temp_files (schemas val_schemas : list pathlib.Path)
    (output inspector_path : option pathlib.Path) (w : cli_diff.World)
    (inp val : pathlib.Path) :
  create_tempfile_to_composed_schema schemas = Ok inp ->
  create_tempfile_to_composed_schema val_schemas = Ok val ->
  cli_diff.temp_files (snd (diff_graphql schemas val_schemas output inspector_path w))
  = List.filter (fun q => negb (bool_decide (q = inp)) && negb (bool_decide (q = val)))
      (cli_diff.temp_files w).
Proof.
  intros E1 E2. run_diff. rewrite E1, E2.
  cbn [cli_diff.log cli_diff.temp_files cli_diff.files_written].
  destruct (new_inspector inp inspector_path) as [inspector|e3];
    [|apply unlink_both].
  destruct (diff_structured inspector val) as [changes|[msg|e4]]; cbn;
    [|apply unlink_both..].
  destruct output as [out|]; cbn; [destruct (write_text _ _); cbn|];
    apply unlink_both.
Qed.

(** X18. When the second schema cannot be composed, the exception escapes
    and the temporary file of the first schema is left behind: the cleanup
    covers only what follows both compositions. *)
Theorem diff_graphql_leaves_first_temp_file (schemas val_schemas : list pathlib.Path)
    (output inspector_path : option pathlib.Path) (w : cli_diff.World)
    (inp : pathlib.Path) (e : @cli_diff.Exception Exn) :
  create_tempfile_to_composed_schema schemas = Ok inp ->
  create_tempfile_to_composed_schema val_schemas = Raise e ->
  fst (diff_graphql schemas val_schemas output inspector_path w) = cli_diff.Uncaught e
  /\ cli_diff.temp_files
       (snd (diff_graphql schemas val_schemas output inspector_path w))
     = cli_diff.temp_files w ++ [inp].
Proof. intros E1 E2. run_diff. by rewrite E1, E2. Qed.

End diff_facts.

Lemma diff_graphql_removes_temp_files_witness :
  cli_diff.temp_files
    (snd (cli_diff.diff_graphql cli_diff.create_both
            (fun _ _ => Ok tt) (fun _ _ => Ok ([] : list unit))
            (fun _ => "NON_BREAKING") (fun _ => "[]") (fun _ _ => Ok tt)
            [cli_diff.schema_a] [cli_diff.schema_b] None None
            (cli_diff.mkWorld [] [sample.ids_json] [])))
  = [sample.ids_json].
Proof.
  apply (diff_graphql_removes_temp_files cli_diff.create_both
           (fun _ _ => Ok tt) (fun _ _ => Ok ([] : list unit))
           (fun _ => "NON_BREAKING") (fun _ => "[]") (fun _ _ => Ok tt)
           [cli_diff.schema_a] [cli_diff.schema_b] None None
           (cli_diff.mkWorld [] [sample.ids_json] [])
           cli_diff.temp_a cli_diff.temp_b); reflexivity.
Defined.

Lemma diff_graphql_leaves_first_temp_file_witness :
  cli_diff.temp_files
    (snd (cli_diff.diff_graphql cli_diff.create_a_only
            (fun _ _ => Ok tt) (fun _ _ => Ok ([] : list unit))
            (fun _ => "NON_BREAKING") (fun _ => "[]") (fun _ _ => Ok tt)
            [cli_diff.schema_a] [cli_diff.schema_b] None None
            (cli_diff.mkWorld [] [] [])))
  = [cli_diff.temp_a].
Proof.
  apply (diff_graphql_leaves_first_temp_file cli_diff.create_a_only
           (fun _ _ => Ok tt) (fun _ _ => Ok ([] : list unit))
           (fun _ => "NON_BREAKING") (fun _ => "[]") (fun _ _ => Ok tt)
           [cli_diff.schema_a] [cli_diff.schema_b] None None
           (cli_diff.mkWorld [] [] [])
           cli_diff.temp_a (cli_diff.OtherError tt)); reflexivity.
Defined.

(** ** The triples of a materialized schema *)

Section materializer_facts.
Context {Node Exn : Type}.
Variable concept : string -> string -> Node.
Variable s2dm : string -> Node.
Variable plain_literal : string -> Node.
Variable lang_literal : string -> string -> pyresult Exn Node.
Variables RDF_type SKOS_Concept SKOS_prefLabel SKOS_definition : Node.
Variable namespace : string.
Variable prefix : string.
Variable language : string.
Variable get_all_named_types :
  graphql.GraphQLSchema -> list graphql.GraphQLNamedType.
Variable is_introspection_or_root_type : string -> bool.

Local Abbreviation extract_schema_for_rdf :=
  (rdf_materializer.extract_schema_for_rdf get_all_named_types
     is_introspection_or_root_type).
Local Abbreviation materialize_schema_to_rdf :=
  (fun schema =>
     materializer.materialize_schema_to_rdf Node Exn concept s2dm plain_literal
       lang_literal RDF_type SKOS_Concept SKOS_prefLabel SKOS_definition
       get_all_named_types is_introspection_or_root_type schema namespace prefix
       language).

Local Abbreviation Graph := (materializer.Graph Node).
Local Abbreviation _add_concept_header :=
  (materializer._add_concept_header Node Exn plain_literal lang_literal
     RDF_type SKOS_Concept SKOS_prefLabel SKOS_definition).
Local Abbreviation materialize_field :=
  (materializer.materialize_field Node Exn concept s2dm plain_literal lang_literal
     RDF_type SKOS_Concept SKOS_prefLabel SKOS_definition namespace language).
Local Abbreviation for_each := (materializer.for_each Node Exn).
Local Abbreviation _materialize_field_container :=
  (materializer._materialize_field_container Node Exn concept s2dm plain_literal
     lang_literal RDF_type SKOS_Concept SKOS_prefLabel SKOS_definition namespace
     language).
Local Abbreviation materialize_union :=
  (materializer.materialize_union Node Exn concept s2dm plain_literal lang_literal
     RDF_type SKOS_Concept SKOS_prefLabel SKOS_definition namespace language).
Local Abbreviation materialize_enum :=
  (materializer.materialize_enum Node Exn concept s2dm plain_literal lang_literal
     RDF_type SKOS_Concept SKOS_prefLabel SKOS_definition namespace language).
Local Abbreviation materialize_extract :=
  (materializer.materialize_extract Node Exn concept s2dm plain_literal lang_literal
     RDF_type SKOS_Concept SKOS_prefLabel SKOS_definition namespace language).

Section valid_language.
Variable label : string -> Node.
Hypothesis language_ok : forall text, lang_literal text language = Ok (label text).

Local Abbreviation header_triples :=
  (materializer.header_triples Node plain_literal RDF_type SKOS_Concept
     SKOS_prefLabel SKOS_definition label).
Local Abbreviation field_triples :=
  (materializer.field_triples Node concept s2dm plain_literal RDF_type SKOS_Concept
     SKOS_prefLabel SKOS_definition namespace label).
Local Abbreviation container_triples :=
  (materializer.container_triples Node concept s2dm plain_literal RDF_type
     SKOS_Concept SKOS_prefLabel SKOS_definition namespace label).
Local Abbreviation union_triples :=
  (materializer.union_triples Node concept s2dm plain_literal RDF_type
     SKOS_Concept SKOS_prefLabel SKOS_definition namespace label).
Local Abbreviation enum_value_triples :=
  (materializer.enum_value_triples Node concept s2dm plain_literal RDF_type
     SKOS_Concept SKOS_prefLabel SKOS_definition namespace label).
Local Abbreviation enum_triples :=
  (materializer.enum_triples Node concept s2dm plain_literal RDF_type
     SKOS_Concept SKOS_prefLabel SKOS_definition namespace label).
Local Abbreviation extract_triples :=
  (materializer.extract_triples Node concept s2dm plain_literal RDF_type
     SKOS_Concept SKOS_prefLabel SKOS_definition namespace label).

Lemma add_concept_header_triples (graph : Graph) (uri : Node)
    (pref_label description : string) (s2dm_type : Node) :
  _add_concept_header graph uri pref_label description s2dm_type language
  = Ok (graph ++ header_triples uri pref_label description s2dm_type).
Proof.
  unfold materializer._add_concept_header, materializer.header_triples,
    materializer.add, materializer.and_then.
  rewrite language_ok.
  destruct (pystr.truthy (pystr.strip description));
    by rewrite <- ?app_assoc.
Qed.

Lemma for_each_blocks {A} (body : Graph -> A -> pyresult Exn Graph)
    (block : A -> list (materializer.Triple Node)) (graph : Graph) (items : list A) :
  (forall g x, body g x = Ok (g ++ block x)) ->
  for_each body graph items = Ok (graph ++ concat (List.map block items)).
Proof.
  intros Hb. revert graph. induction items as [|x items IH]; intros graph; simpl.
  - by rewrite app_nil_r.
  - rewrite Hb. simpl. by rewrite IH, app_assoc.
Qed.

Lemma concat_map_singleton {A B} (f : A -> B) (l : list A) :
  concat (List.map (fun x => [f x]) l) = List.map f l.
Proof. induction l as [|x l IH]; [reflexivity|]. simpl. by rewrite IH. Qed.

Lemma materialize_field_triples (type_name : string) (graph : Graph)
    (field_info : rdf_materializer.RdfFieldInfo) :
  materialize_field (concept namespace type_name) graph field_info
  = Ok (graph ++ field_triples type_name field_info).
Proof.
  unfold materializer.materialize_field, materializer.field_triples,
    materializer.add, materializer.output_uri.
  rewrite add_concept_header_triples. simpl.
  by rewrite <- !app_assoc.
Qed.

Lemma materialize_container_triples (s2dm_type : Node) (graph : Graph)
    (c : rdf_materializer.RdfFieldContainerType) :
  _materialize_field_container s2dm_type graph c
  = Ok (graph ++ container_triples s2dm_type c).
Proof.
  unfold materializer._materialize_field_container, materializer.container_triples.
  rewrite add_concept_header_triples. simpl.
  rewrite (for_each_blocks _ (field_triples (rdf_materializer.container_name c)))
    by (intros; apply materialize_field_triples).
  by rewrite <- app_assoc.
Qed.

Lemma materialize_union_triples (graph : Graph) (u : rdf_materializer.RdfUnionType) :
  materialize_union graph u = Ok (graph ++ union_triples u).
Proof.
  unfold materializer.materialize_union, materializer.union_triples.
  rewrite add_concept_header_triples. simpl.
  rewrite (for_each_blocks _
             (fun m => [(concept namespace (rdf_materializer.union_name u),
                         s2dm "hasUnionMember", concept namespace m)]))
    by reflexivity.
  by rewrite concat_map_singleton, <- app_assoc.
Qed.

Lemma materialize_enum_triples (graph : Graph) (t : rdf_materializer.RdfEnumType) :
  materialize_enum graph t = Ok (graph ++ enum_triples t).
Proof.
  unfold materializer.materialize_enum, materializer.enum_triples.
  rewrite add_concept_header_triples. simpl.
  rewrite (for_each_blocks _ (enum_value_triples (rdf_materializer.enum_name t))).
  - by rewrite <- app_assoc.
  - intros g v. unfold materializer.enum_value_triples, materializer.add.
    rewrite add_concept_header_triples. by rewrite <- app_assoc.
Qed.

Lemma materialize_extract_triples (e : rdf_materializer.RdfSchemaExtract) :
  materialize_extract e = Ok (extract_triples e).
Proof.
  unfold materializer.materialize_extract, materializer.extract_triples.
  rewrite (for_each_blocks _ (container_triples (s2dm "ObjectType")))
    by (intros; apply materialize_container_triples).
  simpl.
  rewrite (for_each_blocks _ (container_triples (s2dm "InterfaceType")))
    by (intros; apply materialize_container_triples).
  simpl.
  rewrite (for_each_blocks _ (container_triples (s2dm "InputObjectType")))
    by (intros; apply materialize_container_triples).
  simpl.
  rewrite (for_each_blocks _ union_triples)
    by (intros; apply materialize_union_triples).
  simpl.
  rewrite (for_each_blocks _ enum_triples)
    by (intros; apply materialize_enum_triples).
  by rewrite <- !app_assoc.
Qed.

Lemma materialize_schema_triples (schema : graphql.GraphQLSchema)
    (e : rdf_materializer.RdfSchemaExtract) :
  extract_schema_for_rdf schema = Ok e ->
  materialize_schema_to_rdf schema = Ok (extract_triples e).
Proof.
  intros He. unfold materializer.materialize_schema_to_rdf.
  by rewrite He, materialize_extract_triples.
Qed.

Local Abbreviation subject := (materializer.subject Node).
Local Abbreviation has_header :=
  (fun (x : string) (g : Graph) =>
     In (concept namespace x, RDF_type, SKOS_Concept) g
     /\ In (concept namespace x, SKOS_prefLabel, label x) g).
Local Abbreviation names_ok :=
  (fun (names : list string) (g : Graph) =>
     (forall t, In t g -> exists x, In x names /\ subject t = concept namespace x)
     /\ (forall x, In x names -> has_header x g)).
Local Abbreviation container_names :=
  (fun c : rdf_materializer.RdfFieldContainerType =>
     rdf_materializer.container_name c
     :: List.map rdf_materializer.field_fqn (rdf_materializer.container_fields c)).
Local Abbreviation enum_names :=
  (fun t : rdf_materializer.RdfEnumType =>
     rdf_materializer.enum_name t
     :: List.map (fun v => rdf_materializer.enum_name t +:+ "." +:+ v)
          (rdf_materializer.enum_values t)).

Lemma header_triples_facts (x description : string) (s2dm_type : Node) :
  (forall t, In t (header_triples (concept namespace x) x description s2dm_type) ->
             subject t = concept namespace x)
  /\ has_header x (header_triples (concept namespace x) x description s2dm_type).
Proof.
  unfold materializer.header_triples. split.
  - intros t. rewrite in_app_iff. simpl.
    destruct (pystr.truthy (pystr.strip description)); simpl;
      intros [[<-|[<-|[<-|[]]]]|H]; try reflexivity; try done.
    by destruct H as [<-|[]].
  - split; apply in_or_app; left; simpl; auto.
Qed.

Lemma names_ok_app (n1 n2 : list string) (g1 g2 : Graph) :
  names_ok n1 g1 -> names_ok n2 g2 -> names_ok (n1 ++ n2) (g1 ++ g2).
Proof.
  intros [S1 C1] [S2 C2]. split.
  - intros t [H|H]%in_app_iff.
    + destruct (S1 t H) as (x & Hx & Ht). exists x. split; [|exact Ht].
      apply in_or_app. by left.
    + destruct (S2 t H) as (x & Hx & Ht). exists x. split; [|exact Ht].
      apply in_or_app. by right.
  - intros x [H|H]%in_app_iff.
    + destruct (C1 x H). split; apply in_or_app; by left.
    + destruct (C2 x H). split; apply in_or_app; by right.
Qed.

Lemma names_ok_concat {A} (names : A -> list string)
    (block : A -> list (materializer.Triple Node)) (items : list A) :
  (forall a, names_ok (names a) (block a)) ->
  names_ok (concat (List.map names items)) (concat (List.map block items)).
Proof.
  intros Hb. induction items as [|a items IH]; simpl.
  - split; intros ? [].
  - apply names_ok_app; [apply Hb|exact IH].
Qed.

Lemma names_ok_weaken (n n' : list string) (g : Graph) :
  (forall x, In x n <-> In x n') -> names_ok n g -> names_ok n' g.
Proof.
  intros Hn [S C]. split.
  - intros t Ht. destruct (S t Ht) as (x & Hx & E). exists x. by rewrite <- Hn.
  - intros x Hx. apply C. by rewrite Hn.
Qed.

Lemma field_triples_names (type_name : string)
    (field_info : rdf_materializer.RdfFieldInfo) :
  (forall t, In t (field_triples type_name field_info) ->
             subject t = concept namespace type_name
             \/ subject t = concept namespace (rdf_materializer.field_fqn field_info))
  /\ has_header (rdf_materializer.field_fqn field_info)
       (field_triples type_name field_info).
Proof.
  unfold materializer.field_triples.
  destruct (header_triples_facts (rdf_materializer.field_fqn field_info)
              EmptyString (s2dm "Field")) as [S [C1 C2]].
  split.
  - intros t [<-|[H|[<-|[<-|[]]]]%in_app_iff]; [by left|right..];
      [by apply S|reflexivity..].
  - split; right; apply in_or_app; by left.
Qed.

Lemma container_triples_names (s2dm_type : Node)
    (c : rdf_materializer.RdfFieldContainerType) :
  names_ok (container_names c) (container_triples s2dm_type c).
Proof.
  unfold materializer.container_triples.
  destruct (header_triples_facts (rdf_materializer.container_name c)
              (rdf_materializer.container_description c) s2dm_type) as [S C].
  split.
  - intros t [H|H]%in_app_iff.
    + exists (rdf_materializer.container_name c). split; [by left|by apply S].
    + apply List.in_concat in H as (blk & Hb & Ht).
      apply in_map_iff in Hb as (f & <- & Hf).
      destruct (proj1 (field_triples_names _ f) t Ht) as [E|E].
      * exists (rdf_materializer.container_name c). split; [by left|exact E].
      * exists (rdf_materializer.field_fqn f). split; [|exact E].
        right. apply in_map_iff. by exists f.
  - intros x [<-|H].
    + destruct C. split; apply in_or_app; by left.
    + apply in_map_iff in H as (f & <- & Hf).
      destruct (proj2 (field_triples_names (rdf_materializer.container_name c) f))
        as [C1 C2].
      split; apply in_or_app; right; apply List.in_concat;
        exists (field_triples (rdf_materializer.container_name c) f);
        (split; [apply in_map_iff; by exists f|assumption]).
Qed.

Lemma union_triples_names (u : rdf_materializer.RdfUnionType) :
  names_ok [rdf_materializer.union_name u] (union_triples u).
Proof.
  unfold materializer.union_triples.
  destruct (header_triples_facts (rdf_materializer.union_name u)
              (rdf_materializer.union_description u) (s2dm "UnionType")) as [S C].
  split.
  - intros t Ht. exists (rdf_materializer.union_name u). split; [by left|].
    apply in_app_iff in Ht as [H|H]; [by apply S|].
    by apply in_map_iff in H as (m & <- & _).
  - intros x [<-|[]]. destruct C. split; apply in_or_app; by left.
Qed.

Lemma enum_triples_names (t : rdf_materializer.RdfEnumType) :
  names_ok (enum_names t) (enum_triples t).
Proof.
  unfold materializer.enum_triples.
  destruct (header_triples_facts (rdf_materializer.enum_name t)
              (rdf_materializer.enum_description t) (s2dm "EnumType")) as [S C].
  split.
  - intros tr [H|H]%in_app_iff.
    + exists (rdf_materializer.enum_name t). split; [by left|by apply S].
    + apply List.in_concat in H as (blk & Hb & Ht).
      apply in_map_iff in Hb as (v & <- & Hv).
      unfold materializer.enum_value_triples in Ht. destruct Ht as [<-|Ht].
      * exists (rdf_materializer.enum_name t). split; [by left|reflexivity].
      * exists (rdf_materializer.enum_name t +:+ "." +:+ v). split.
        -- right. apply in_map_iff. by exists v.
        -- by apply (proj1 (header_triples_facts _ EmptyString (s2dm "EnumValue"))).
  - intros x [<-|H].
    + destruct C. split; apply in_or_app; by left.
    + apply in_map_iff in H as (v & <- & Hv).
      destruct (proj2 (header_triples_facts
                         (rdf_materializer.enum_name t +:+ "." +:+ v)
                         EmptyString (s2dm "EnumValue"))) as [C1 C2].
      split; apply in_or_app; right; apply List.in_concat;
        exists (enum_value_triples (rdf_materializer.enum_name t) v);
        (split; [apply in_map_iff; by exists v|by right]).
Qed.

Lemma in_concat_cons {A} (head : A -> string) (tail : A -> list string)
    (items : list A) (x : string) :
  In x (concat (List.map (fun a => head a :: tail a) items))
  <-> In x (List.map head items) \/ In x (concat (List.map tail items)).
Proof.
  induction items as [|a items IH]; simpl; [tauto|].
  rewrite !in_app_iff, IH. tauto.
Qed.

Lemma in_concat_singleton {A} (head : A -> string) (items : list A) (x : string) :
  In x (concat (List.map (fun a => [head a]) items)) <-> In x (List.map head items).
Proof. by rewrite concat_map_singleton. Qed.

(** X19. For a well-formed language tag [materialize_schema_to_rdf]
    returns a graph.  The subject of each of its triples is the concept, in
    the given namespace, of a type of the extract, of a field [Type.field] or
    of an enum value [Enum.VALUE]; and each of these concepts is typed
    [skos:Concept] and carries its name as [skos:prefLabel] in the
    language. *)
Theorem materialize_schema_to_rdf_concepts (schema : graphql.GraphQLSchema)
    (e : rdf_materializer.RdfSchemaExtract) :
  extract_schema_for_rdf schema = Ok e ->
  exists graph,
    materialize_schema_to_rdf schema = Ok graph
    /\ (forall t, In t graph ->
          exists x, In x (materializer.concept_names e)
                    /\ materializer.subject Node t = concept namespace x)
    /\ (forall x, In x (materializer.concept_names e) ->
          In (concept namespace x, RDF_type, SKOS_Concept) graph
          /\ In (concept namespace x, SKOS_prefLabel, label x) graph).
Proof.
  intros He. exists (extract_triples e).
  split; [apply (materialize_schema_triples schema e He)|].
  cut (names_ok (materializer.concept_names e) (extract_triples e));
    [intros [S C]; split; [exact S|exact C]|].
  eapply names_ok_weaken; [|unfold materializer.extract_triples;
    repeat apply names_ok_app;
    [apply (names_ok_concat container_names), container_triples_names
    |apply (names_ok_concat container_names), container_triples_names
    |apply (names_ok_concat container_names), container_triples_names
    |apply (names_ok_concat (fun u => [rdf_materializer.union_name u])),
       union_triples_names
    |apply (names_ok_concat enum_names), enum_triples_names]].
  intros x. unfold materializer.concept_names, rdf_materializer.extracted_type_names,
    rdf_materializer.containers.
  rewrite !map_app, !concat_app, !in_app_iff, in_concat_singleton, !in_concat_cons.
  tauto.
Qed.

(** X20. In the graph that [materialize_schema_to_rdf] returns for a
    well-formed language tag every field of a
    container is linked from its type by [s2dm:hasField], points by
    [s2dm:hasOutputType] to the [s2dm] term of its output type when that is
    a built-in scalar and to the concept of the namespace otherwise, and
    names its wrapper pattern as an [s2dm] term. *)
Theorem materialize_schema_to_rdf_fields (schema : graphql.GraphQLSchema)
    (e : rdf_materializer.RdfSchemaExtract) :
  extract_schema_for_rdf schema = Ok e ->
  exists graph,
    materialize_schema_to_rdf schema = Ok graph
    /\ forall c f,
         In c (rdf_materializer.containers e) ->
         In f (rdf_materializer.container_fields c) ->
         In (concept namespace (rdf_materializer.container_name c), s2dm "hasField",
             concept namespace (rdf_materializer.field_fqn f)) graph
         /\ In (concept namespace (rdf_materializer.field_fqn f), s2dm "hasOutputType",
                if bool_decide (rdf_materializer.output_type_name f
                                ∈ ["Int"; "Float"; "String"; "Boolean"; "ID"])
                then s2dm (rdf_materializer.output_type_name f)
                else concept namespace (rdf_materializer.output_type_name f)) graph
         /\ In (concept namespace (rdf_materializer.field_fqn f),
                s2dm "usesTypeWrapperPattern",
                s2dm (rdf_materializer.type_wrapper_pattern f)) graph.
Proof.
  intros He. exists (extract_triples e).
  split; [apply (materialize_schema_triples schema e He)|].
  intros c f Hc Hf.
  assert (forall t, In t (field_triples (rdf_materializer.container_name c) f) ->
                    In t (extract_triples e)) as Hin.
  { intros t Ht.
    assert (forall s2dm_type, In t (container_triples s2dm_type c)) as Hct.
    { intros s2dm_type. unfold materializer.container_triples.
      apply in_or_app. right. apply List.in_concat.
      exists (field_triples (rdf_materializer.container_name c) f).
      split; [apply in_map_iff; by exists f|exact Ht]. }
    unfold materializer.extract_triples, rdf_materializer.containers in *.
    rewrite !in_app_iff in Hc. rewrite !in_app_iff.
    destruct Hc as [Hc|[Hc|Hc]]; [left|right; left|right; right; left];
      apply List.in_concat; eexists; (split; [apply in_map_iff; by exists c|apply Hct]). }
  unfold materializer.field_triples, materializer.output_uri,
    materializer.BUILTIN_SCALARS in Hin.
  split; [|split]; apply Hin.
  - by left.
  - right. apply in_or_app. right. by left.
  - right. apply in_or_app. right. right. by left.
Qed.

End valid_language.

(** X21. When the language tag is refused, [materialize_schema_to_rdf]
    raises what [Literal] raises as soon as the extract names a type; for an
    extract without types it returns the empty graph. *)
Theorem materialize_schema_to_rdf_language_refused (schema : graphql.GraphQLSchema)
    (e : rdf_materializer.RdfSchemaExtract) (err : Exn) :
  extract_schema_for_rdf schema = Ok e ->
  (forall text, lang_literal text language = Raise err) ->
  materialize_schema_to_rdf schema
  = match rdf_materializer.extracted_type_names e with
    | [] => Ok []
    | _ :: _ => Raise (inr err)
    end.
Proof.
  intros He Hl. unfold materializer.materialize_schema_to_rdf. rewrite He.
  assert (forall g uri pl d ty,
            _add_concept_header g uri pl d ty language = Raise err) as Hh.
  { intros. unfold materializer._add_concept_header, materializer.and_then.
    by rewrite Hl. }
  unfold materializer.materialize_extract, rdf_materializer.extracted_type_names.
  destruct (rdf_materializer.object_types e) as [|c l]; simpl.
  2: { unfold materializer._materialize_field_container. by rewrite Hh. }
  destruct (rdf_materializer.interface_types e) as [|c l]; simpl.
  2: { unfold materializer._materialize_field_container. by rewrite Hh. }
  destruct (rdf_materializer.input_object_types e) as [|c l]; simpl.
  2: { unfold materializer._materialize_field_container. by rewrite Hh. }
  destruct (rdf_materializer.union_types e) as [|u l]; simpl.
  2: { unfold materializer.materialize_union. by rewrite Hh. }
  destruct (rdf_materializer.enum_types e) as [|t l]; simpl; [reflexivity|].
  unfold materializer.materialize_enum. by rewrite Hh.
Qed.

End materializer_facts.

Lemma materialize_schema_to_rdf_concepts_witness :
  exists graph,
    materializer.materialize_schema_to_rdf string unit materializer.iri
      (materializer.iri "s2dm:") id materializer.tagged
      "rdf:type" "skos:Concept" "skos:prefLabel" "skos:definition"
      spec_rdf.get_all_named_types spec_rdf.is_introspection_or_root_type
      spec_rdf.schema_with_scalar "ns:" "ns" "en" = Ok graph
    /\ In ("ns:T.at", "rdf:type", "skos:Concept") graph.
Proof.
  destruct (materialize_schema_to_rdf_concepts materializer.iri
              (materializer.iri "s2dm:") id materializer.tagged
              "rdf:type" "skos:Concept" "skos:prefLabel" "skos:definition"
              "ns:" "ns" "en"
              spec_rdf.get_all_named_types spec_rdf.is_introspection_or_root_type
              (fun text => text +:+ "@en") (fun text => eq_refl)
              spec_rdf.schema_with_scalar
              (spec_rdf.extract_of spec_rdf.is_introspection_or_root_type
                 (spec_rdf.get_all_named_types spec_rdf.schema_with_scalar))
              eq_refl) as (graph & Hg & _ & C).
  exists graph. split; [exact Hg|].
  apply (C "T.at"). vm_compute. tauto.
Defined.

Lemma materialize_schema_to_rdf_fields_witness :
  exists graph,
    materializer.materialize_schema_to_rdf string unit materializer.iri
      (materializer.iri "s2dm:") id materializer.tagged
      "rdf:type" "skos:Concept" "skos:prefLabel" "skos:definition"
      spec_rdf.get_all_named_types spec_rdf.is_introspection_or_root_type
      spec_rdf.schema_with_scalar "ns:" "ns" "en" = Ok graph
    /\ In ("ns:T.at", "s2dm:hasOutputType", "ns:DateTime") graph.
Proof.
  destruct (materialize_schema_to_rdf_fields materializer.iri
              (materializer.iri "s2dm:") id materializer.tagged
              "rdf:type" "skos:Concept" "skos:prefLabel" "skos:definition"
              "ns:" "ns" "en"
              spec_rdf.get_all_named_types spec_rdf.is_introspection_or_root_type
              (fun text => text +:+ "@en") (fun text => eq_refl)
              spec_rdf.schema_with_scalar
              (spec_rdf.extract_of spec_rdf.is_introspection_or_root_type
                 (spec_rdf.get_all_named_types spec_rdf.schema_with_scalar))
              eq_refl) as (graph & Hg & F).
  exists graph. split; [exact Hg|].
  apply (F (spec_rdf.container_of "T" None
              [("at", graphql.mkField (graphql.GraphQLNamed "DateTime") None)])
           (rdf_materializer.mkFieldInfo "T.at" "DateTime" "bare")).
  - vm_compute. tauto.
  - vm_compute. tauto.
Defined.

Lemma materialize_schema_to_rdf_language_refused_witness :
  materializer.materialize_schema_to_rdf string unit materializer.iri
    (materializer.iri "s2dm:") id materializer.tagged
    "rdf:type" "skos:Concept" "skos:prefLabel" "skos:definition"
    spec_rdf.get_all_named_types spec_rdf.is_introspection_or_root_type
    spec_rdf.schema_with_scalar "ns:" "ns" "e n"
  = Raise (inr tt).
Proof.
  apply (materialize_schema_to_rdf_language_refused materializer.iri
           (materializer.iri "s2dm:") id materializer.tagged
           "rdf:type" "skos:Concept" "skos:prefLabel" "skos:definition"
           "ns:" "ns" "e n"
           spec_rdf.get_all_named_types spec_rdf.is_introspection_or_root_type
           spec_rdf.schema_with_scalar
           (spec_rdf.extract_of spec_rdf.is_introspection_or_root_type
              (spec_rdf.get_all_named_types spec_rdf.schema_with_scalar))
           tt eq_refl (fun text => eq_refl)).
Defined.

(** ** What the directive map records *)

(** X22. In a schema whose type map, field dicts and enum-value dicts have
    distinct keys (as Python dicts do), [build_directive_map] records every
    directive other than [deprecated] and [specifiedBy]: the rendering of a
    directive of a type is in the list stored under the type's name, that of
    a directive of a field or enum value in the list stored under the pair
    of the type's name and the member's name. *)
Theorem build_directive_map_complete (print_string : string -> bool -> string)
    (schema : graphql.GraphQLSchema) (tn : string) (t : graphql.GraphQLNamedType)
    (d : graphql.DirectiveNode) :
  List.NoDup (List.map fst (graphql.type_map schema)) ->
  In (tn, t) (graphql.type_map schema) ->
  pystr.startswith tn "__" = false ->
  graphql.name_value d <> "deprecated" ->
  graphql.name_value d <> "specifiedBy" ->
  (forall n, graphql.type_ast_node t = Some n -> In d (graphql.directives n) ->
     exists strs, directive.build_directive_map print_string schema !! inl tn
                  = Some strs
                  /\ In (directive.format_directive_from_ast print_string d) strs)
  /\ (forall fs name f n,
        graphql.type_fields t = Some fs -> List.NoDup (List.map fst fs) ->
        In (name, f) fs -> graphql.ast_node f = Some n ->
        In d (graphql.directives n) ->
        exists strs, directive.build_directive_map print_string schema
                       !! inr (tn, name) = Some strs
                     /\ In (directive.format_directive_from_ast print_string d) strs)
  /\ (forall nm ds vs a name v n,
        t = graphql.GraphQLEnumType nm ds vs a -> List.NoDup (List.map fst vs) ->
        In (name, v) vs -> graphql.value_ast_node v = Some n ->
        In d (graphql.directives n) ->
        exists strs, directive.build_directive_map print_string schema
                       !! inr (tn, name) = Some strs
                     /\ In (directive.format_directive_from_ast print_string d) strs).
Proof.
  intros Hnd Hin Htn Hd Hs.
  exact (build_directive_map_records print_string schema tn t d Hnd Hin Htn
           (conj Hd Hs)).
Qed.

Lemma build_directive_map_complete_witness :
  exists strs,
    directive.build_directive_map printer.print_plain_string
      spec_directive.schema_field_deprecated !! inr ("T", "f") = Some strs
    /\ In "@custom" strs.
Proof.
  assert (List.NoDup
            (List.map fst (graphql.type_map spec_directive.schema_field_deprecated)))
    as Hnd by (repeat constructor; simpl; tauto).
  refine (proj1 (proj2
            (build_directive_map_complete printer.print_plain_string
               spec_directive.schema_field_deprecated "T" _
               spec_directive.custom_directive Hnd (or_introl eq_refl) eq_refl
               _ _))
            _ "f" _ _ eq_refl _ (or_introl eq_refl) eq_refl _).
  - discriminate.
  - discriminate.
  - repeat constructor; simpl; tauto.
  - simpl. tauto.
Defined.
